(** * Agent-PPT-generator: the presentation document model, its normalizer,
      the slide mutation engine, the generation pipeline and the persistence
      adapter, embedded from the TypeScript sources.

    Documents are JSON trees, because every presentation the editor works on
    has been through [JSON.parse].  A JavaScript object is a finite map from
    property names to values; [undefined] is not a document value and shows
    up only as the result of a property access, where it is [None].  Text
    held by the browser store is represented by the document it denotes. *)

From Stdlib Require Import QArith.
From stdpp Require Import gmap strings list fin_maps pretty list_numbers.
Close Scope Q_scope.
Local Open Scope string_scope.
Local Open Scope nat_scope.
Local Open Scope list_scope.

(** ** JavaScript values and the operators the sources use on them *)

Module JS.

#[warnings="-register-all"]
Inductive value :=
| VNull
| VBool (b : bool)
| VNum (q : Q)
| VStr (s : string)
| VArr (l : list value)
| VObj (o : gmap string value).

(** An object literal [{ k1: v1, ..., kn: vn }] with distinct keys. *)
Definition obj (fields : list (string * value)) : gmap string value :=
  list_to_map fields.

Definition num (z : Z) : value := VNum (inject_Z z).

(** Truthiness: [null], [false], [0] and [""] are falsy, as is [undefined]. *)
Definition truthy (v : value) : bool :=
  match v with
  | VNull => false
  | VBool b => b
  | VNum q => negb (Qnum q =? 0)%Z
  | VStr s => negb (String.eqb s "")
  | VArr _ | VObj _ => true
  end.

(** [v.k], and [v?.k]: the fields read by the sources are own properties of
    objects only; arrays, strings, numbers and booleans have none of them,
    and [null?.k] is [undefined]. *)
Definition prop (v : value) (k : string) : option value :=
  match v with VObj o => o !! k | _ => None end.

(** [x?.k] on a possibly undefined [x]. *)
Definition prop_opt (x : option value) (k : string) : option value :=
  match x with Some v => prop v k | None => None end.

(** [v.k] where the access throws a TypeError on [null]. *)
Definition member (v : value) (k : string) : option (option value) :=
  match v with VNull => None | _ => Some (prop v k) end.

(** [a || b] with [b] defined. *)
Definition js_or (a : option value) (b : value) : value :=
  match a with
  | Some v => if truthy v then v else b
  | None => b
  end.

(** [a || b] where [b] may be undefined too. *)
Definition js_or_opt (a b : option value) : option value :=
  match a with
  | Some v => if truthy v then Some v else b
  | None => b
  end.

(** [a ?? b]. *)
Definition nullish (a : option value) (b : value) : value :=
  match a with
  | Some VNull | None => b
  | Some v => v
  end.

(** [a === b].  Arrays and objects compare by identity; wherever the
    sources compare, one side is freshly parsed, so two of them are never
    the same object. *)
Definition strict_eq (a b : option value) : bool :=
  match a, b with
  | None, None => true
  | Some VNull, Some VNull => true
  | Some (VBool x), Some (VBool y) => Bool.eqb x y
  | Some (VNum x), Some (VNum y) => Qeq_bool x y
  | Some (VStr x), Some (VStr y) => String.eqb x y
  | _, _ => false
  end.

Definition isArray (x : option value) : bool :=
  match x with Some (VArr _) => true | _ => false end.

(** [typeof x === 'string'] *)
Definition typeof_string (x : option value) : bool :=
  match x with Some (VStr _) => true | _ => false end.

(** The elements of [Array.isArray(x) ? x : []]. *)
Definition array_or_empty (x : option value) : list value :=
  match x with Some (VArr l) => l | _ => [] end.

(** [v.k = x] on an object. *)
Definition assign (k : string) (x : value) (v : value) : value :=
  match v with VObj o => VObj (<[k := x]> o) | _ => v end.

Fixpoint index_props (i : nat) (l : list value) : gmap string value :=
  match l with
  | [] => ∅
  | x :: l' => <[pretty i := x]> (index_props (S i) l')
  end.

Fixpoint chars (s : string) : list value :=
  match s with
  | EmptyString => []
  | String c s' => VStr (String c EmptyString) :: chars s'
  end.

(** The own enumerable properties copied by a spread [...v]: the fields of
    an object, the indexed elements of an array or string, nothing for the
    other primitives. *)
Definition own_props (v : value) : gmap string value :=
  match v with
  | VObj o => o
  | VArr l => index_props 0 l
  | VStr s => index_props 0 (chars s)
  | VNull | VBool _ | VNum _ => ∅
  end.

(** [{ ...a, ...b }]: the properties of [b] override those of [a]. *)
Definition spread2 (a b : gmap string value) : gmap string value := b ∪ a.

(** [s.trim()], [s.replace(/\s/g, '')] and [s.substring(0, n)] on text
    whose white space is ASCII. *)
Fixpoint trimStart (s : string) : string :=
  match s with
  | EmptyString => EmptyString
  | String c s' => if Ascii.is_space c then trimStart s' else s
  end.

Definition trim (s : string) : string :=
  String.rev (trimStart (String.rev (trimStart s))).

Fixpoint remove_spaces (s : string) : string :=
  match s with
  | EmptyString => EmptyString
  | String c s' =>
      if Ascii.is_space c then remove_spaces s' else String c (remove_spaces s')
  end.

Definition substring0 (n : nat) (s : string) : string := String.substring 0 n s.

Definition nonempty (s : string) : bool := negb (String.eqb s "").

(** [l.filter((x, index) => f(index))] *)
Fixpoint filter_index_from {A} (f : nat → bool) (i : nat) (l : list A) : list A :=
  match l with
  | [] => []
  | x :: l' =>
      if f i then x :: filter_index_from f (S i) l' else filter_index_from f (S i) l'
  end.

Definition filter_index {A} (f : nat → bool) (l : list A) : list A :=
  filter_index_from f 0 l.

(** [encodeURIComponent] on the bytes of the text. *)
Definition unreserved (c : Ascii.ascii) : bool :=
  let n := Ascii.N_of_ascii c in
  ((65 <=? n) && (n <=? 90) || (97 <=? n) && (n <=? 122) || (48 <=? n) && (n <=? 57))%N
  || bool_decide (c ∈ Ascii.ascii_of_nat <$> [45; 95; 46; 33; 126; 42; 39; 40; 41]).

Definition hex_digit (n : N) : Ascii.ascii :=
  Ascii.ascii_of_N (if (n <? 10)%N then 48 + n else 55 + n).

Fixpoint encodeURIComponent (s : string) : string :=
  match s with
  | EmptyString => EmptyString
  | String c s' =>
      if unreserved c then String c (encodeURIComponent s')
      else
        let n := Ascii.N_of_ascii c in
        String (Ascii.ascii_of_nat 37)
          (String (hex_digit (n / 16)) (String (hex_digit (n mod 16))
             (encodeURIComponent s')))
  end.

(** The one-character text made of a double quote. *)
Definition dquote : string := String (Ascii.ascii_of_nat 34) EmptyString.

End JS.

(** ** Asynchronous code: the outside calls it makes, and how it settles *)

Module Async.
Import JS.

(** What a call to [ai.models.generateContent] asks for; the wording of the
    two prompt templates is fixed by the text and the slide count. *)
Inductive request :=
| SlidesForTopic (topic : string) (slideCount : Z)
| SlidesForText (text : string) (slideCount : Z).

Inductive event :=
| GenerateContent (r : request)
| GenerateImages (prompt : value)
| Fetch (url : string)
| ReadAsText (fileName : string)
| Alert (message : string).

(** What [fetch] gives: a rejection, or a response with its [ok] flag, its
    status and what [json()] parses from its body ([None] when that
    rejects). *)
Inductive http :=
| NetworkError
| Response (ok : bool) (status : Z) (json : option value).

(** A promise: the calls issued while it ran, then the value it resolved
    with, or [None] when it rejected. *)
Definition t (A : Type) : Type := list event * option A.

Definition ret {A} (a : A) : t A := ([], Some a).
Definition reject {A} : t A := ([], None).
Definition emit (e : event) : t unit := ([e], Some tt).

Definition bind {A B} (m : t A) (f : A → t B) : t B :=
  match m with
  | (tr, Some a) => let '(tr', r) := f a in (tr ++ tr', r)
  | (tr, None) => (tr, None)
  end.

(** [try { m } catch { handler }] *)
Definition catch {A} (m : t A) (handler : t A) : t A :=
  match m with
  | (tr, None) => let '(tr', r) := handler in (tr ++ tr', r)
  | settled => settled
  end.

(** [try { m } catch { }] where the loop goes on after a failure. *)
Definition attempt {A} (m : t A) : t (option A) := (m.1, Some m.2).

(** [Promise.all]: every promise runs; the result keeps their order and
    rejects when one of them does. *)
Fixpoint all {A} (ms : list (t A)) : t (list A) :=
  match ms with
  | [] => ret []
  | m :: ms' =>
      let '(tr, r) := all ms' in
      (m.1 ++ tr,
       match m.2, r with
       | Some a, Some l => Some (a :: l)
       | _, _ => None
       end)
  end.

Definition calls {A} (m : t A) : list event := m.1.
Definition settled {A} (m : t A) : option A := m.2.

Module Notations.
Notation "'let!' x := m 'in' k" := (bind m (λ x, k))
  (at level 10, x name, m at level 100, k at level 200).
Notation "'do!' m 'in' k" := (bind m (λ _, k))
  (at level 10, m at level 100, k at level 200).
End Notations.

End Async.

(** ** services/apiService: presentations in [localStorage] *)

Module Api.
Import JS.

(** A stored item: the serialisation of a document, or text that
    [JSON.parse] rejects (the empty text, which is falsy, included). *)
Inductive item :=
| Text (s : string)
| Json (v : value).

(** [writable] tells whether [setItem] succeeds; it throws when the quota
    is exceeded or the store is disabled. *)
Record LocalStorage := {
  items : gmap string item;
  writable : bool
}.

Definition getItem (key : string) (ls : LocalStorage) : option item :=
  items ls !! key.

(** [localStorage.setItem(key, JSON.stringify(v))], [None] when it throws. *)
Definition setItem (key : string) (v : value) (ls : LocalStorage) : option LocalStorage :=
  if writable ls
  then Some {| items := <[key := Json v]> (items ls); writable := writable ls |}
  else None.

(** One entry through the [filter] and the [map] of
    [_getAndCleanPresentations]: entries that are not objects or have no
    truthy id are dropped, the others get their missing fields. *)
Definition cleanEntry (p : value) : option value :=
  match p with
  | VObj _ =>
      match prop p "id" with
      | Some id =>
          if truthy id then
            Some (VObj (obj
              [("id", id);
               ("userId", js_or (prop p "userId") (VStr "unknown_user"));
               ("title", js_or (prop p "title") (VStr "Untitled Presentation"));
               ("slides", VArr (array_or_empty (prop p "slides")));
               ("theme", js_or (prop p "theme") (VStr "Default"));
               ("createdAt", js_or (prop p "createdAt") (VStr "1970-01-01T00:00:00.000Z"))]))
          else None
      | None => None
      end
  | _ => None
  end.

Definition _getAndCleanPresentations (ls : LocalStorage) : list value :=
  match getItem "presentations" ls with
  | None | Some (Text _) => []
  | Some (Json (VArr allPresentations)) => omap cleanEntry allPresentations
  | Some (Json _) => []
  end.

Fixpoint findIndex (f : value → bool) (l : list value) : option nat :=
  match l with
  | [] => None
  | x :: l' => if f x then Some 0 else S <$> findIndex f l'
  end.

Definition getPresentation (id : string) (ls : LocalStorage) : value :=
  let allPresentations := _getAndCleanPresentations ls in
  js_or (List.find (λ p, strict_eq (prop p "id") (Some (VStr id))) allPresentations) VNull.

Definition savePresentation (presentation : value) (ls : LocalStorage)
  : LocalStorage * value :=
  let allPresentations := _getAndCleanPresentations ls in
  let existingIndex :=
    findIndex (λ p, strict_eq (prop p "id") (prop presentation "id")) allPresentations in
  let allPresentations :=
    match existingIndex with
    | Some i => <[i := presentation]> allPresentations
    | None => allPresentations ++ [presentation]
    end in
  (match setItem "presentations" (VArr allPresentations) ls with
   | Some ls' => ls'
   | None => ls
   end, presentation).

Definition deletePresentation (id : string) (ls : LocalStorage) : LocalStorage :=
  let allPresentations := _getAndCleanPresentations ls in
  let filteredPresentations :=
    List.filter (λ p, negb (strict_eq (prop p "id") (Some (VStr id)))) allPresentations in
  match setItem "presentations" (VArr filteredPresentations) ls with
  | Some ls' => ls'
  | None => ls
  end.

(** [getPresentations]: the cleaned records whose owner is [userId]. *)
Definition getPresentations (userId : string) (ls : LocalStorage) : list value :=
  let allPresentations := _getAndCleanPresentations ls in
  List.filter (λ p, strict_eq (prop p "userId") (Some (VStr userId))) allPresentations.

(** The callback of the [map] in [getPresentationsMeta].  The records come
    out of [cleanEntry] with every field; a field that were missing would be
    [undefined], recorded as [VNull]. *)
Definition toMeta (p : value) : value :=
  VObj (obj
    [("id", default VNull (prop p "id"));
     ("title", default VNull (prop p "title"));
     ("slideCount", num (Z.of_nat (length (array_or_empty (prop p "slides")))));
     ("createdAt", default VNull (prop p "createdAt"))]).

Definition getPresentationsMeta (userId : string) (ls : LocalStorage) : list value :=
  let allPresentations := _getAndCleanPresentations ls in
  let userPresentations :=
    List.filter (λ p, strict_eq (prop p "userId") (Some (VStr userId))) allPresentations in
  toMeta <$> userPresentations.

(** *** Accounts *)

(** The browser store as the account functions see it.  The entries
    [user_pass_<email>] hold the password text as it was typed and are
    never parsed; none of these keys is ['users'], ['currentUser'] or
    ['presentations'], and different emails give different keys, so these
    entries are kept apart from the others, by email.  [passwordWritable]
    tells whether [setItem] succeeds on such an entry: the quota can run
    out between the two writes of [signup], so the second write can throw
    after the first one went through. *)
Record Browser := {
  storage : LocalStorage;
  passwords : gmap string string;
  passwordWritable : bool
}.

(** [localStorage.removeItem(key)] *)
Definition removeItem (key : string) (ls : LocalStorage) : LocalStorage :=
  {| items := delete key (items ls); writable := writable ls |}.

(** [JSON.parse(localStorage.getItem('users') || '[]')] in its [try]: a
    missing entry and the empty text give ['[]'], text that does not parse
    is caught and gives [[]] too. *)
Definition storedUsers (b : Browser) : value :=
  match getItem "users" (storage b) with
  | Some (Json users) => users
  | Some (Text _) | None => VArr []
  end.

(** [users.find(u => u.email === email)] on an array: the first match or
    [undefined]; [None] is the TypeError of reading [email] off a [null]
    element that comes before any match. *)
Fixpoint findByEmail (email : string) (users : list value) : option (option value) :=
  match users with
  | [] => Some None
  | u :: users' =>
      match member u "email" with
      | None => None
      | Some e =>
          if strict_eq e (Some (VStr email)) then Some (Some u)
          else findByEmail email users'
      end
  end.

(** [if (x)] on the result of a [find]. *)
Definition found (x : option value) : bool :=
  match x with Some u => truthy u | None => false end.

(** [signup]: the store afterwards and the promise returned.  Stored users
    that are not an array have no [find], and the call on them is a
    TypeError outside any [try], as is the one [findByEmail] reports: the
    promise rejects.  The two [setItem] calls share one [try]: when the
    first throws nothing is written, when the second throws the user list
    has been written already and stays so, and [null] is returned either
    way. *)
Definition signup (now : Z) (name email password_raw : string) (b : Browser)
  : Browser * Async.t value :=
  match storedUsers b with
  | VArr users =>
      match findByEmail email users with
      | None => (b, Async.reject)
      | Some existingUser =>
          if found existingUser then (b, Async.ret VNull)
          else
            let newUser :=
              VObj (obj [("id", VStr (pretty now)); ("name", VStr name);
                         ("email", VStr email)]) in
            match setItem "users" (VArr (users ++ [newUser])) (storage b) with
            | Some ls' =>
                if passwordWritable b then
                  ({| storage := ls';
                      passwords := <[email := password_raw]> (passwords b);
                      passwordWritable := passwordWritable b |},
                   Async.ret newUser)
                else
                  ({| storage := ls'; passwords := passwords b;
                      passwordWritable := passwordWritable b |},
                   Async.ret VNull)
            | None => (b, Async.ret VNull)
            end
      end
  | _ => (b, Async.reject)
  end.

(** [login]: [None] when it throws, for the same two reasons. *)
Definition login (email password_raw : string) (b : Browser) : option (Browser * value) :=
  match storedUsers b with
  | VArr users =>
      match findByEmail email users with
      | None => None
      | Some user =>
          let storedPassword := passwords b !! email in
          match user with
          | Some u =>
              if truthy u && bool_decide (storedPassword = Some password_raw) then
                match setItem "currentUser" u (storage b) with
                | Some ls' =>
                    Some ({| storage := ls'; passwords := passwords b;
                             passwordWritable := passwordWritable b |}, u)
                | None => Some (b, VNull)
                end
              else Some (b, VNull)
          | None => Some (b, VNull)
          end
      end
  | _ => None
  end.

Definition logout (b : Browser) : Browser :=
  {| storage := removeItem "currentUser" (storage b); passwords := passwords b;
     passwordWritable := passwordWritable b |}.

Definition getCurrentUser (b : Browser) : value :=
  match getItem "currentUser" (storage b) with
  | Some (Json user) =>
      if truthy user && found (prop user "id") && found (prop user "name")
         && found (prop user "email")
      then user else VNull
  | Some (Text _) | None => VNull
  end.

End Api.

(** ** services/geminiService *)

Module Gemini.
Import JS Async Async.Notations.

(** The answer to a [generateContent] call as the service sees it: the call
    rejects, its text is not JSON, or its text parses to a document. *)
Inductive reply :=
| Rejected
| NotJson
| Parsed (v : value).

(** The client held in [this.ai]; [generateImages] gives the image bytes of
    the first generated image, or [None] when the call fails or has none. *)
Record GoogleGenAI := {
  generateContent : request → reply;
  generateImages : value → option string
}.

(** The loop [for (let i = 2; i <= slideCount; i++)] visits these [i]. *)
Definition from_two (slideCount : Z) : list Z := seqZ 2 (slideCount - 1).

Definition getMockSlides (topic : string) (slideCount : Z) : list value :=
  VObj (obj [("title", VStr ("Introduction to " +:+ topic));
             ("content", VArr [VStr "By SlideForge AI"; VStr "An AI-powered presentation"])])
  :: ((λ i : Z,
        VObj (obj [("title", VStr ("Topic " +:+ pretty (i - 1)%Z +:+ " of " +:+ topic));
                   ("content",
                     VArr [VStr ("This is bullet point 1 for slide " +:+ pretty i +:+ ".");
                           VStr "This is bullet point 2 discussing a key aspect.";
                           VStr "And a final concluding point for this slide."])]))
      <$> from_two slideCount).

Definition getMockSlidesFromText (text : string) (slideCount : Z) : list value :=
  VObj (obj [("title", VStr "Summary of Your Text");
             ("content",
               VArr [VStr "Based on the content you provided.";
                     VStr ("First few words: " +:+ dquote +:+ substring0 30 text
                           +:+ "..." +:+ dquote)])])
  :: ((λ i : Z,
        VObj (obj [("title", VStr ("Key Point " +:+ pretty (i - 1)%Z));
                   ("content",
                     VArr [VStr "This slide discusses a key point from the text.";
                           VStr "Further details and analysis would go here."])]))
      <$> from_two slideCount).

(** The [try] block shared by the two generators: the parsed array, an
    empty list for any other document, a rejection otherwise. *)
Definition askForSlides (client : GoogleGenAI) (r : request) : Async.t (list value) :=
  do! emit (GenerateContent r) in
  match generateContent client r with
  | Rejected | NotJson => reject
  | Parsed (VArr jsonResponse) => ret jsonResponse
  | Parsed _ => ret []
  end.

Definition generatePresentationSlides (ai : option GoogleGenAI)
    (topic : string) (slideCount : Z) : Async.t (list value) :=
  match ai with
  | None => ret (getMockSlides topic slideCount)
  | Some client =>
      catch (askForSlides client (SlidesForTopic topic slideCount))
            (ret (getMockSlides topic slideCount))
  end.

Definition generateSlidesFromText (ai : option GoogleGenAI)
    (text : string) (slideCount : Z) : Async.t (list value) :=
  match ai with
  | None => ret (getMockSlidesFromText text slideCount)
  | Some client =>
      catch (askForSlides client (SlidesForText text slideCount))
            (ret (getMockSlidesFromText text slideCount))
  end.

(** The placeholder address; [prompt.replace] throws unless the prompt is
    a string. *)
Definition placeholderImage (prompt : value) : Async.t string :=
  match prompt with
  | VStr s => ret ("https://picsum.photos/seed/" +:+ remove_spaces s +:+ "/1280/720")
  | _ => reject
  end.

Definition generateImage (ai : option GoogleGenAI) (prompt : value) : Async.t string :=
  match ai with
  | None => placeholderImage prompt
  | Some client =>
      catch (do! emit (GenerateImages prompt) in
             match generateImages client prompt with
             | Some base64ImageBytes => ret ("data:image/jpeg;base64," +:+ base64ImageBytes)
             | None => reject
             end)
            (placeholderImage prompt)
  end.

End Gemini.

(** ** components/editor/EditorPage *)

Module Editor.
Import JS Async Async.Notations.

Definition defaultTitleStyle : gmap string value :=
  obj [("fontSize", VStr "48px"); ("fontFamily", VStr "Arial");
       ("color", VStr "#000000"); ("bold", VBool true);
       ("italic", VBool false); ("underline", VBool false)].

Definition defaultContentStyle : gmap string value :=
  obj [("fontSize", VStr "24px"); ("fontFamily", VStr "Arial");
       ("color", VStr "#333333"); ("bold", VBool false);
       ("italic", VBool false); ("underline", VBool false)].

Definition defaultBg : value :=
  VObj (obj [("type", VStr "color"); ("value", VStr "#ffffff")]).

(** "Ensure new properties exist": the two branches on [background.type]. *)
Definition ensureBackgroundProps (background : value) : value :=
  if strict_eq (prop background "type") (Some (VStr "image")) then
    let background :=
      assign "opacity" (nullish (prop background "opacity") (num 1)) background in
    assign "blur" (nullish (prop background "blur") (num 0)) background
  else if strict_eq (prop background "type") (Some (VStr "gradient")) then
    let background :=
      assign "color1" (js_or (prop background "color1") (VStr "#ffffff")) background in
    let background :=
      assign "color2" (js_or (prop background "color2") (VStr "#bbbbbb")) background in
    assign "angle" (js_or (prop background "angle") (num 90)) background
  else background.

(** The callback of [slides.map]; [now] is what [Date.now()] returns while
    the slide at [index] is cleaned. *)
Definition cleanSlide (now : Z) (index : nat) (slide : value) : value :=
  let background :=
    match prop slide "background" with
    | Some b => if truthy b && typeof_string (prop b "type") then b else defaultBg
    | None => defaultBg
    end in
  let background := ensureBackgroundProps background in
  VObj (obj
    [("id", js_or (prop slide "id") (VStr (pretty now +:+ "-" +:+ pretty index)));
     ("title", js_or (prop slide "title") (VStr "Untitled Slide"));
     ("content", VArr (array_or_empty (prop slide "content")));
     ("background", background);
     ("titleStyle",
       VObj (spread2 defaultTitleStyle
               (own_props (js_or (prop slide "titleStyle") (VObj ∅)))));
     ("contentStyle",
       VObj (spread2 defaultContentStyle
               (own_props (js_or (prop slide "contentStyle") (VObj ∅)))))]).

Definition cleanedSlides (clock : nat → Z) (slides : list value) : list value :=
  imap (λ index slide, cleanSlide (clock index) index slide) slides.

(** The body of the mount effect on the fetched [data]: the presentation
    put into the state, or [None] when the effect reports
    "Presentation not found." instead. *)
Definition normalize (clock : nat → Z) (data : value) : option value :=
  if truthy data then
    let slides := array_or_empty (prop data "slides") in
    Some (VObj (<["slides" := VArr (cleanedSlides clock slides)]> (own_props data)))
  else None.

(** *** The state of the component *)

Record State := {
  presentation : option value;
  currentSlideIndex : nat;
  isLoading : bool;
  error : option string;
  gallerySearchQuery : string;
  galleryImages : list (option value);
  isSearching : bool
}.

Definition setPresentation (p : option value) (st : State) : State :=
  {| presentation := p; currentSlideIndex := currentSlideIndex st;
     isLoading := isLoading st; error := error st;
     gallerySearchQuery := gallerySearchQuery st;
     galleryImages := galleryImages st; isSearching := isSearching st |}.

Definition setCurrentSlideIndex (i : nat) (st : State) : State :=
  {| presentation := presentation st; currentSlideIndex := i;
     isLoading := isLoading st; error := error st;
     gallerySearchQuery := gallerySearchQuery st;
     galleryImages := galleryImages st; isSearching := isSearching st |}.

Definition setIsLoading (b : bool) (st : State) : State :=
  {| presentation := presentation st; currentSlideIndex := currentSlideIndex st;
     isLoading := b; error := error st;
     gallerySearchQuery := gallerySearchQuery st;
     galleryImages := galleryImages st; isSearching := isSearching st |}.

Definition setError (e : option string) (st : State) : State :=
  {| presentation := presentation st; currentSlideIndex := currentSlideIndex st;
     isLoading := isLoading st; error := e;
     gallerySearchQuery := gallerySearchQuery st;
     galleryImages := galleryImages st; isSearching := isSearching st |}.

Definition setGalleryImages (l : list (option value)) (st : State) : State :=
  {| presentation := presentation st; currentSlideIndex := currentSlideIndex st;
     isLoading := isLoading st; error := error st;
     gallerySearchQuery := gallerySearchQuery st;
     galleryImages := l; isSearching := isSearching st |}.

Definition setIsSearching (b : bool) (st : State) : State :=
  {| presentation := presentation st; currentSlideIndex := currentSlideIndex st;
     isLoading := isLoading st; error := error st;
     gallerySearchQuery := gallerySearchQuery st;
     galleryImages := galleryImages st; isSearching := b |}.

(** The mount effect, timer callback included. *)
Definition mountEffect (clock : nat → Z) (presentationId : string)
    (ls : Api.LocalStorage) (st : State) : State :=
  let st := setCurrentSlideIndex 0 (setError None (setIsLoading true st)) in
  let data := Api.getPresentation presentationId ls in
  setIsLoading false
    match normalize clock data with
    | Some p => setPresentation (Some p) st
    | None => setError (Some "Presentation not found.") st
    end.

(** *** Editing *)

(** [p.slides], an array by the type of the state. *)
Definition slides_of (p : value) : list value := array_or_empty (prop p "slides").

(** [{ ...p, slides: newSlides }] *)
Definition with_slides (p : value) (newSlides : list value) : value :=
  VObj (<["slides" := VArr newSlides]> (own_props p)).

Definition updateSlide (slideIndex : nat) (updatedProps : gmap string value)
    (st : State) : State :=
  match presentation st with
  | None => setPresentation None st
  | Some p =>
      let newSlides := slides_of p in
      let newSlides :=
        match newSlides !! slideIndex with
        | Some slide =>
            if truthy slide
            then <[slideIndex := VObj (spread2 (own_props slide) updatedProps)]> newSlides
            else newSlides
        | None => newSlides
        end in
      setPresentation (Some (with_slides p newSlides)) st
  end.

Definition goToNextSlide (st : State) : State :=
  match presentation st with
  | Some p =>
      if (Z.of_nat (currentSlideIndex st) <? Z.of_nat (length (slides_of p)) - 1)%Z
      then setCurrentSlideIndex (currentSlideIndex st + 1) st
      else st
  | None => st
  end.

Definition goToPrevSlide (st : State) : State :=
  if 0 <? currentSlideIndex st
  then setCurrentSlideIndex (currentSlideIndex st - 1) st
  else st.

Definition addSlide (now : Z) (st : State) : State :=
  match presentation st with
  | None => st
  | Some p =>
      let first := slides_of p !! 0 in
      let newSlide :=
        VObj (obj
          [("id", VStr (pretty now));
           ("title", VStr "New Slide Title");
           ("content", VArr [VStr "New slide content."]);
           ("background", VObj (obj [("type", VStr "color"); ("value", VStr "#ffffff")]));
           ("titleStyle", js_or (prop_opt first "titleStyle") (VObj defaultTitleStyle));
           ("contentStyle", js_or (prop_opt first "contentStyle") (VObj defaultContentStyle))]) in
      setCurrentSlideIndex (length (slides_of p))
        (setPresentation (Some (with_slides p (slides_of p ++ [newSlide]))) st)
  end.

Definition deleteSlide (st : State) : State :=
  match presentation st with
  | None => st
  | Some p =>
      if length (slides_of p) <=? 1 then st
      else
        let updatedSlides :=
          filter_index (λ index, negb (index =? currentSlideIndex st)) (slides_of p) in
        let st' := setPresentation (Some (with_slides p updatedSlides)) st in
        setCurrentSlideIndex
          (Z.to_nat (Z.min (Z.of_nat (currentSlideIndex st'))
                           (Z.of_nat (length updatedSlides) - 1)))
          st'
  end.

Definition changeBackground (newBackground : value) (st : State) : State :=
  updateSlide (currentSlideIndex st) (obj [("background", newBackground)]) st.

(** The three "Background Type" buttons.  [seed] is the text of
    [currentSlide.id] in the address template: the id itself, for a slide
    whose id is a string as its type says. *)
Definition solidBackground : value :=
  VObj (obj [("type", VStr "color"); ("value", VStr "#ffffff")]).

Definition gradientBackground : value :=
  VObj (obj [("type", VStr "gradient"); ("color1", VStr "#ffffff");
             ("color2", VStr "#a0aec0"); ("angle", num 90)]).

Definition imageBackground (seed : string) : value :=
  VObj (obj [("type", VStr "image");
             ("value", VStr ("https://picsum.photos/seed/" +:+ seed +:+ "/1280/720"));
             ("opacity", num 1); ("blur", num 0)]).

(** *** Web image search *)

(** [img.thumbnail] for every element, a TypeError on a [null] element. *)
Fixpoint thumbnails (l : list value) : option (list (option value)) :=
  match l with
  | [] => Some []
  | img :: l' =>
      match member img "thumbnail", thumbnails l' with
      | Some t, Some ts => Some (t :: ts)
      | _, _ => None
      end
  end.

(** The key that the source writes out in place is an argument here. *)
Definition searchWithSerpApi (SERPAPI_KEY : string) (fetch : string → http)
    (query : string) : Async.t (list (option value)) :=
  let url := "https://serpapi.com/search.json?q=" +:+ encodeURIComponent query
             +:+ "&tbm=isch&api_key=" +:+ SERPAPI_KEY in
  do! emit (Fetch url) in
  match fetch url with
  | NetworkError => reject
  | Response false _ _ => reject
  | Response true _ None => reject
  | Response true _ (Some data) =>
      match member data "images_results" with
      | None => reject
      | Some None | Some (Some VNull) => reject
      | Some (Some (VArr results)) =>
          match thumbnails results with
          | Some imageUrls => if length imageUrls =? 0 then reject else ret imageUrls
          | None => reject
          end
      | Some (Some _) => reject
      end
  end.

Definition searchWithFallback (query : string) : Async.t (list (option value)) :=
  let sanitizedQuery := remove_spaces query in
  ret ((λ i : nat,
          Some (VStr ("https://picsum.photos/seed/" +:+ sanitizedQuery +:+ pretty i
                      +:+ "/400/300")))
       <$> seq 0 12).

(** The [for] loop of [handleImageSearch] over its providers: the list of
    the first provider that resolves with a non-empty one. *)
Fixpoint tryProviders (providers : list (string → Async.t (list (option value))))
    (query : string) : Async.t (option (list (option value))) :=
  match providers with
  | [] => ret None
  | provider :: rest =>
      let! r := attempt (provider query) in
      match r with
      | Some imageUrls =>
          if 0 <? length imageUrls then ret (Some imageUrls)
          else tryProviders rest query
      | None => tryProviders rest query
      end
  end.

(** The body of [handleImageSearch] for a list of providers: nothing on a
    blank query; otherwise the gallery is emptied, the providers are tried,
    and the user is alerted when none of them gave images. *)
Definition searchWith (providers : list (string → Async.t (list (option value))))
    (st : State) : Async.t State :=
  if negb (nonempty (trim (gallerySearchQuery st))) then ret st
  else
    let st := setGalleryImages [] (setIsSearching true st) in
    let! found := tryProviders providers (gallerySearchQuery st) in
    match found with
    | Some imageUrls => ret (setIsSearching false (setGalleryImages imageUrls st))
    | None =>
        do! emit (Alert "Could not fetch images. Please try again later.") in
        ret (setIsSearching false st)
    end.

Definition handleImageSearch (SERPAPI_KEY : string) (fetch : string → http)
    (st : State) : Async.t State :=
  searchWith [searchWithSerpApi SERPAPI_KEY fetch; searchWithFallback] st.

(** *** Saving, reordering, regenerating *)

(** [handleSave]: the store after the save and the alerts shown. *)
Definition handleSave (st : State) (ls : Api.LocalStorage)
  : Api.LocalStorage * list event :=
  match presentation st with
  | Some p => ((Api.savePresentation p ls).1, [Alert "Presentation Saved!"])
  | None => (ls, [])
  end.

(** [l.splice(i, 0, x)]: the start is clamped to the length. *)
Definition splice_in {A} (i : nat) (x : A) (l : list A) : list A :=
  take i l ++ x :: drop i l.

(** [handleDragSort], with the two refs as arguments.  [splice(from, 1)[0]]
    is [undefined] when [from] is past the end; the entry inserted then is
    recorded as [VNull]. *)
Definition handleDragSort (dragItem dragOverItem : option nat) (st : State) : State :=
  match dragItem, dragOverItem, presentation st with
  | Some from, Some to, Some p =>
      let newSlides := slides_of p in
      let draggedItemContent := default VNull (newSlides !! from) in
      let newSlides := delete from newSlides in
      let newSlides := splice_in to draggedItemContent newSlides in
      setPresentation (Some (with_slides p newSlides)) st
  | _, _, _ => st
  end.

(** [presentation?.slides[currentSlideIndex]] *)
Definition currentSlide (st : State) : option value :=
  match presentation st with
  | Some p => slides_of p !! currentSlideIndex st
  | None => None
  end.

(** [regenerateImage], with the prompt held in the state of the page as an
    argument. *)
Definition regenerateImage (ai : option Gemini.GoogleGenAI) (aiImagePrompt : string)
    (st : State) : Async.t State :=
  if negb (match currentSlide st with Some slide => truthy slide | None => false end)
     || negb (nonempty aiImagePrompt)
  then ret st
  else
    catch
      (let! imageUrl := Gemini.generateImage ai (VStr aiImagePrompt) in
       let newBackground :=
         VObj (obj [("type", VStr "image"); ("value", VStr imageUrl);
                    ("opacity", num 1); ("blur", num 0)]) in
       ret (changeBackground newBackground st))
      (do! emit (Alert "Failed to generate a new image. Please try again.") in ret st).

End Editor.

(** ** components/create/CreatePresentationPage *)

Module Create.
Import JS Async Async.Notations.

Inductive ContentSource := SourceAi | SourceText | SourceFile.
Inductive ImageSource := ImagesAi | ImagesGoogle | ImagesNone.

(** An uploaded file: [text] is what [readAsText] loads, [None] when the
    reader fails. *)
Record File := {
  name : string;
  type : string;
  text : option string
}.

(** The form fields held in the state of the page. *)
Record Form := {
  title : string;
  source : ContentSource;
  textContent : string;
  uploadedFile : option File;
  numSlides : Z;
  selectedTheme : string;
  imageSource : ImageSource
}.

(** The readings of the clock: [Date.now()] at the start of the callback
    for each slide, [Date.now()] and [new Date().toISOString()] when the
    presentation is assembled. *)
Record Clock := {
  slideStarted : nat → Z;
  assembled : Z;
  assembledIso : string
}.

(** What the page runs against: the Gemini client, if one is configured,
    the network, the clock, and the access key of the photo search, which
    the source writes out in place. *)
Record World := {
  ai : option Gemini.GoogleGenAI;
  fetch : string → http;
  clock : Clock;
  unsplashAccessKey : string
}.

(** What a run leaves behind: the outside calls made, the message given to
    [setError], the presentation handed to [onPresentationGenerated] and
    the store. *)
Record Outcome := {
  calls : list event;
  error : string;
  generated : option value;
  storage : Api.LocalStorage
}.

Definition defaultTitleStyle : gmap string value :=
  obj [("fontSize", VStr "48px"); ("fontFamily", VStr "Arial");
       ("color", VStr "#000000"); ("bold", VBool true);
       ("italic", VBool false); ("underline", VBool false)].

Definition defaultContentStyle : gmap string value :=
  obj [("fontSize", VStr "24px"); ("fontFamily", VStr "Arial");
       ("color", VStr "#333333"); ("bold", VBool false);
       ("italic", VBool false); ("underline", VBool false)].

(** [name.replace(/\.[^/.]+$/, '')]: the last dot and what follows it go,
    when what follows is not empty and has no slash. *)
Fixpoint extension_chars (s : string) : bool :=
  match s with
  | EmptyString => true
  | String c s' =>
      negb (Ascii.eqb c (Ascii.ascii_of_nat 46)) && negb (Ascii.eqb c (Ascii.ascii_of_nat 47))
      && extension_chars s'
  end.

Fixpoint strip_extension (s : string) : string :=
  match s with
  | EmptyString => EmptyString
  | String c s' =>
      if Ascii.eqb c (Ascii.ascii_of_nat 46) && nonempty s' && extension_chars s'
      then EmptyString
      else String c (strip_extension s')
  end.

Definition readFile (uploadedFile : File) : Async.t string :=
  if String.eqb (type uploadedFile) "text/plain" then
    do! emit (ReadAsText (name uploadedFile)) in
    match text uploadedFile with
    | Some result => ret result
    | None => reject
    end
  else
    ret ("This presentation is about the contents of the file named: "
         +:+ name uploadedFile).

(** The [switch] on the content source: a validation message, or the
    working title with the promise of the text to generate from. *)
Inductive resolved :=
| Invalid (message : string)
| Content (presentationTitle : string) (contentForGeneration : Async.t string).

Definition resolveSource (form : Form) : resolved :=
  let presentationTitle := trim (title form) in
  match source form with
  | SourceText =>
      if negb (nonempty (trim (textContent form)))
      then Invalid "Please provide content in the text area."
      else Content
             (if nonempty presentationTitle then presentationTitle
              else substring0 50 (textContent form) +:+ "...")
             (ret (textContent form))
  | SourceFile =>
      match uploadedFile form with
      | None => Invalid "Please upload a file."
      | Some file =>
          Content
            (if nonempty presentationTitle then presentationTitle
             else strip_extension (name file))
            (readFile file)
      end
  | SourceAi => Content presentationTitle (ret (title form))
  end.

(** [data.results.map(i => i.urls?.regular || i.urls?.small)]; an entry
    without either address is [undefined] in memory and [null] once
    stored, and is recorded as [VNull]. *)
Fixpoint photoUrls (results : list value) : option (list value) :=
  match results with
  | [] => Some []
  | i :: rest =>
      match member i "urls", photoUrls rest with
      | Some urls, Some l =>
          Some (default VNull (js_or_opt (prop_opt urls "regular") (prop_opt urls "small"))
                :: l)
      | _, _ => None
      end
  end.

Definition searchPhotos (w : World) (numSlides : Z) (imagePrompt : value)
  : Async.t value :=
  match imagePrompt with
  | VStr prompt =>
      let sanitizedQuery := remove_spaces prompt in
      let endpoint :=
        "https://api.unsplash.com/search/photos?query="
        +:+ encodeURIComponent sanitizedQuery
        +:+ "&client_id=" +:+ unsplashAccessKey w
        +:+ "&per_page=" +:+ pretty (numSlides + 10)%Z in
      do! emit (Fetch endpoint) in
      match fetch w endpoint with
      | NetworkError => reject
      | Response _ _ None => reject
      | Response _ _ (Some data) =>
          match member data "results" with
          | Some (Some (VArr results)) =>
              match photoUrls results with
              | Some imageUrl => ret (VArr imageUrl)
              | None => reject
              end
          | _ => reject
          end
      end
  | _ => reject
  end.

(** The callback of [slideContents.map]. *)
Definition buildSlide (w : World) (form : Form) (presentationTitle : string)
    (index : nat) (content : value) : Async.t value :=
  let slideId := pretty (slideStarted (clock w) index) +:+ "-" +:+ pretty index in
  let! background :=
    match imageSource form with
    | ImagesNone => ret (VObj (obj [("type", VStr "color"); ("value", VStr "#FFFFFF")]))
    | mode =>
        match member content "title" with
        | None => reject
        | Some contentTitle =>
            let imagePrompt := js_or contentTitle (VStr presentationTitle) in
            let! imageUrl :=
              match mode with
              | ImagesAi =>
                  let! url := Gemini.generateImage (ai w) imagePrompt in ret (VStr url)
              | _ => searchPhotos w (numSlides form) imagePrompt
              end in
            ret (VObj (obj [("type", VStr "image"); ("value", imageUrl)]))
        end
    end in
  match member content "title", member content "content" with
  | Some contentTitle, Some contentContent =>
      ret (VObj (obj
        [("id", VStr slideId);
         ("title", js_or contentTitle (VStr "Untitled Slide"));
         ("content", js_or contentContent (VArr []));
         ("background", background);
         ("titleStyle", VObj defaultTitleStyle);
         ("contentStyle", VObj defaultContentStyle)]))
  | _, _ => reject
  end.

(** "Generate slide content using Gemini service based on source". *)
Definition generateSlideContents (w : World) (form : Form)
    (contentForGeneration : string) : Async.t (list value) :=
  match source form with
  | SourceAi =>
      Gemini.generatePresentationSlides (ai w) contentForGeneration (numSlides form)
  | _ => Gemini.generateSlidesFromText (ai w) contentForGeneration (numSlides form)
  end.

(** The body of the [try] block once the source is resolved, up to the new
    presentation. *)
Definition assemble (userId : string) (w : World) (form : Form)
    (presentationTitle : string) (contentForGeneration : Async.t string)
  : Async.t value :=
  let! contentForGeneration := contentForGeneration in
  let! slideContents := generateSlideContents w form contentForGeneration in
  let! slides := all (imap (buildSlide w form presentationTitle) slideContents) in
  ret (VObj (obj
    [("id", VStr (pretty (assembled (clock w))));
     ("userId", VStr userId);
     ("title", VStr presentationTitle);
     ("slides", VArr slides);
     ("theme", VStr (selectedTheme form));
     ("createdAt", VStr (assembledIso (clock w)))])).

Definition handleGenerate (userId : string) (w : World) (form : Form)
    (ls : Api.LocalStorage) : Outcome :=
  if negb (nonempty (trim (title form)))
     && match source form with SourceAi => true | _ => false end
  then {| calls := []; error := "Presentation Title is required for AI generation.";
          generated := None; storage := ls |}
  else
    match resolveSource form with
    | Invalid message =>
        {| calls := []; error := message; generated := None; storage := ls |}
    | Content presentationTitle contentForGeneration =>
        match assemble userId w form presentationTitle contentForGeneration with
        | (tr, Some newPresentation) =>
            let '(ls', savedPresentation) := Api.savePresentation newPresentation ls in
            {| calls := tr; error := ""; generated := Some savedPresentation;
               storage := ls' |}
        | (tr, None) =>
            {| calls := tr; error := "Failed to generate presentation. Please try again.";
               generated := None; storage := ls |}
        end
    end.

End Create.

(** ** components/dashboard/DashboardPage *)

Module Dashboard.
Import JS.

(** The effect on mount: the list shown. *)
Definition mountEffect (userId : string) (ls : Api.LocalStorage) : list value :=
  Api.getPresentationsMeta userId ls.

(** [handleDelete]: [confirmed] is the answer to the confirmation dialog;
    the store and the list shown afterwards. *)
Definition handleDelete (confirmed : bool) (id : string)
    (ls : Api.LocalStorage) (presentations : list value)
  : Api.LocalStorage * list value :=
  if confirmed then
    (Api.deletePresentation id ls,
     List.filter (λ p, negb (strict_eq (prop p "id") (Some (VStr id)))) presentations)
  else (ls, presentations).

End Dashboard.

(** ** components/auth/LoginPage and SignUpPage *)

Module Auth.
Import JS.

(** The [error] and [isLoading] states of either page. *)
Record State := {
  error : string;
  isLoading : bool
}.

Definition setError (e : string) (st : State) : State :=
  {| error := e; isLoading := isLoading st |}.

Definition setIsLoading (l : bool) (st : State) : State :=
  {| error := error st; isLoading := l |}.

(** What a submission leaves behind once its timer has run: the store, the
    page state, and the argument of the [onLogin] call, if it was made. *)
Record LoginOutcome := {
  loginBrowser : Api.Browser;
  loginState : State;
  onLogin : option value
}.

(** [LoginPage.handleSubmit].  When [login] throws, the timer callback
    stops there: the page keeps loading and no callback is made. *)
Definition loginSubmit (email password : string) (b : Api.Browser) (st : State)
  : LoginOutcome :=
  let st := setIsLoading true (setError "" st) in
  match Api.login email password b with
  | None => {| loginBrowser := b; loginState := st; onLogin := None |}
  | Some (b', user) =>
      let st := setIsLoading false st in
      if truthy user
      then {| loginBrowser := b'; loginState := st; onLogin := Some user |}
      else {| loginBrowser := b';
              loginState := setError "Invalid email or password." st;
              onLogin := None |}
  end.

Record SignUpOutcome := {
  signUpBrowser : Api.Browser;
  signUpState : State;
  onSignUpSuccess : bool
}.

(** [if (newUser)] where [newUser] is what [apiService.signup] returned: a
    promise, which is an object and so truthy whatever it settles to. *)
Definition truthy_promise {A} (newUser : Async.t A) : bool := true.

(** [SignUpPage.handleSubmit]; [password.length] counts the characters of
    ASCII text. *)
Definition signUpSubmit (now : Z) (name email password : string)
    (b : Api.Browser) (st : State) : SignUpOutcome :=
  if String.length password <? 6 then
    {| signUpBrowser := b;
       signUpState := setError "Password must be at least 6 characters." st;
       onSignUpSuccess := false |}
  else
    let st := setIsLoading true (setError "" st) in
    let '(b', newUser) := Api.signup now name email password b in
    let st := setIsLoading false st in
    if truthy_promise newUser
    then {| signUpBrowser := b'; signUpState := st; onSignUpSuccess := true |}
    else {| signUpBrowser := b';
            signUpState := setError "An account with this email already exists." st;
            onSignUpSuccess := false |}.

End Auth.

(** ** app: which page is shown *)

Module App.
Import JS.

Inductive View := Login | SignUp | Dashboard | Create | Editor.

(** [editingPresentationId] is a text or [null]. *)
Record State := {
  user : value;
  currentView : View;
  editingPresentationId : value
}.

Definition setUser (u : value) (st : State) : State :=
  {| user := u; currentView := currentView st;
     editingPresentationId := editingPresentationId st |}.

Definition setCurrentView (v : View) (st : State) : State :=
  {| user := user st; currentView := v;
     editingPresentationId := editingPresentationId st |}.

Definition setEditingPresentationId (id : value) (st : State) : State :=
  {| user := user st; currentView := currentView st; editingPresentationId := id |}.

(** The effect that runs when [user] has changed, and on mount. *)
Definition userEffect (st : State) : State :=
  setCurrentView (if truthy (user st) then Dashboard else Login) st.

(** The state after the first render and its effect. *)
Definition init (b : Api.Browser) : State :=
  let user := Api.getCurrentUser b in
  userEffect {| user := user; currentView := if truthy user then Dashboard else Login;
                editingPresentationId := VNull |}.

(** The callbacks handed to the pages.  [userChanged] tells whether React
    sees a new [user], which is when the effect runs again; after a logout
    the effect can only repeat what the handler did.  The presentation
    handed over by the creation page is an object; an [id] it lacked would
    be [undefined], recorded as [VNull]. *)
Inductive Callback :=
| handleLogin (loggedInUser : value) (userChanged : bool)
| handleLogout
| handleNavigateToSignUp
| handleNavigateToLogin
| handleCreateNew
| handleBackToDashboard
| handleEditPresentation (id : string)
| handlePresentationGenerated (presentation : gmap string value).

Definition handle (c : Callback) (b : Api.Browser) (st : State) : Api.Browser * State :=
  match c with
  | handleLogin loggedInUser userChanged =>
      let st := setCurrentView Dashboard (setUser loggedInUser st) in
      (b, if userChanged then userEffect st else st)
  | handleLogout =>
      (Api.logout b, userEffect (setCurrentView Login (setUser VNull st)))
  | handleNavigateToSignUp => (b, setCurrentView SignUp st)
  | handleNavigateToLogin => (b, setCurrentView Login st)
  | handleCreateNew => (b, setCurrentView Create st)
  | handleBackToDashboard =>
      (b, setCurrentView Dashboard (setEditingPresentationId VNull st))
  | handleEditPresentation id =>
      (b, setCurrentView Editor (setEditingPresentationId (VStr id) st))
  | handlePresentationGenerated presentation =>
      (b, setCurrentView Editor
            (setEditingPresentationId (default VNull (presentation !! "id")) st))
  end.

Fixpoint run (cs : list Callback) (b : Api.Browser) (st : State) : Api.Browser * State :=
  match cs with
  | [] => (b, st)
  | c :: cs' => let '(b', st') := handle c b st in run cs' b' st'
  end.

(** What [renderContent] returns. *)
Inductive Page :=
| LoginPage
| SignUpPage
| DashboardPage (user : value)
| CreatePresentationPage (user : value)
| EditorPage (presentationId : value).

Definition renderContent (st : State) : Page :=
  match currentView st with
  | Login => LoginPage
  | SignUp => SignUpPage
  | Dashboard => if truthy (user st) then DashboardPage (user st) else LoginPage
  | Create => if truthy (user st) then CreatePresentationPage (user st) else LoginPage
  | Editor =>
      if truthy (user st) && truthy (editingPresentationId st)
      then EditorPage (editingPresentationId st) else LoginPage
  end.

End App.

(** ** Notions of the specification, to state the properties with *)

Module Spec.
Import JS.

(** The required input for the chosen content source is absent. *)
Definition missing_input (form : Create.Form) : bool :=
  match Create.source form with
  | Create.SourceAi => negb (nonempty (trim (Create.title form)))
  | Create.SourceText => negb (nonempty (trim (Create.textContent form)))
  | Create.SourceFile =>
      match Create.uploadedFile form with None => true | Some _ => false end
  end.

(** A [{title, content}] pair as the generator is meant to return it. *)
Definition slide_pair (v : value) : bool :=
  typeof_string (prop v "title") && isArray (prop v "content").

(** The generator call failed, or what it returned is not a sequence of
    pairs. *)
Definition generator_failed (r : Gemini.reply) : bool :=
  match r with
  | Gemini.Rejected | Gemini.NotJson => true
  | Gemini.Parsed (VArr l) => negb (forallb slide_pair l)
  | Gemini.Parsed _ => true
  end.

(** The record has the given id. *)
Definition has_id (id : string) (p : value) : bool :=
  strict_eq (prop p "id") (Some (VStr id)).

(** An image provider that fails or returns the empty list. *)
Definition gave_nothing (query : string)
    (provider : string → Async.t (list (option value))) : Prop :=
  Async.settled (provider query) = None ∨ Async.settled (provider query) = Some [].

(** The generator call issued for the form fails: it rejects, or its text
    is not JSON. *)
Definition request_of (form : Create.Form) (text : string) : Async.request :=
  match Create.source form with
  | Create.SourceAi => Async.SlidesForTopic text (Create.numSlides form)
  | _ => Async.SlidesForText text (Create.numSlides form)
  end.

Definition call_fails (w : Create.World) (r : Async.request) : Prop :=
  ∀ client, Create.ai w = Some client →
    Gemini.generateContent client r = Gemini.Rejected ∨
    Gemini.generateContent client r = Gemini.NotJson.

(** The local fallback generator for the form. *)
Definition fallback_slides (form : Create.Form) (text : string) : list value :=
  match Create.source form with
  | Create.SourceAi => Gemini.getMockSlides text (Create.numSlides form)
  | _ => Gemini.getMockSlidesFromText text (Create.numSlides form)
  end.

(** A pair with a non-empty text for title and a list for content. *)
Definition proper_pair (pair : value) : Prop :=
  ∃ t body, prop pair "title" = Some (VStr t) ∧ t ≠ "" ∧
            prop pair "content" = Some (VArr body).

(** A background as the editor expects it: an object with a text for type,
    an image with its opacity and blur, a gradient with its two colours and
    its angle. *)
Definition valid_background (b : value) : Prop :=
  ∃ o t, b = VObj o ∧ o !! "type" = Some (VStr t) ∧
    (t = "image" →
       nullish (o !! "opacity") VNull ≠ VNull ∧ nullish (o !! "blur") VNull ≠ VNull) ∧
    (t = "gradient" →
       truthy (js_or (o !! "color1") VNull) = true ∧
       truthy (js_or (o !! "color2") VNull) = true ∧
       truthy (js_or (o !! "angle") VNull) = true).

(** A text style with every field of the defaults. *)
Definition full_style (style : value) : Prop :=
  ∃ o, style = VObj o ∧
    ∀ k, k ∈ ["fontSize"; "fontFamily"; "color"; "bold"; "italic"; "underline"] →
         is_Some (o !! k).

(** A slide as the editor expects it: exactly the six fields, a truthy id
    and title, a list for content, a valid background and two full
    styles. *)
Definition valid_slide (slide : value) : Prop :=
  ∃ id title content background titleStyle contentStyle,
    slide = VObj (obj [("id", id); ("title", title); ("content", VArr content);
                       ("background", background); ("titleStyle", titleStyle);
                       ("contentStyle", contentStyle)]) ∧
    truthy id = true ∧ truthy title = true ∧
    valid_background background ∧ full_style titleStyle ∧ full_style contentStyle.

(** An editor state in good order: a presentation is loaded, its slides are
    all valid, and the cursor is on a slide (or at 0 when there is none). *)
Definition well_formed (st : Editor.State) : Prop :=
  ∃ p, Editor.presentation st = Some p ∧
    Forall valid_slide (Editor.slides_of p) ∧
    Editor.currentSlideIndex st ≤ length (Editor.slides_of p) - 1.

(** A slide whose title is a non-empty text. *)
Definition titled (slide : value) : Prop :=
  ∃ t, prop slide "title" = Some (VStr t) ∧ t ≠ "".

End Spec.

(** ** Sample inputs *)

Module Sample.
Import JS.

Definition clock : Create.Clock :=
  {| Create.slideStarted := λ _, 1700000000000%Z;
     Create.assembled := 1700000000001%Z;
     Create.assembledIso := "2023-11-14T22:13:20.001Z" |}.

Definition emptyStore : Api.LocalStorage := {| Api.items := ∅; Api.writable := true |}.

(** A form in direct mode, without images. *)
Definition directForm (slideCount : Z) : Create.Form :=
  {| Create.title := "Solar power"; Create.source := Create.SourceAi;
     Create.textContent := ""; Create.uploadedFile := None;
     Create.numSlides := slideCount; Create.selectedTheme := "Default";
     Create.imageSource := Create.ImagesNone |}.

(** A world whose generator answers every request with [r]. *)
Definition answering (r : Gemini.reply) : Create.World :=
  {| Create.ai := Some {| Gemini.generateContent := λ _, r;
                          Gemini.generateImages := λ _, None |};
     Create.fetch := λ _, Async.NetworkError;
     Create.clock := clock;
     Create.unsplashAccessKey := "access-key" |}.

Definition twoPairs : list value :=
  [VObj (obj [("title", VStr "A"); ("content", VArr [VStr "a1"])]);
   VObj (obj [("title", VStr "B"); ("content", VArr [VStr "b1"])])].

(** A JSON answer that is not a list of slides. *)
Definition errorDocument : value :=
  VObj (obj [("error", VStr "quota exceeded")]).

End Sample.

Import JS.

(** * Properties *)

(** ** The text helpers on sample inputs *)

Example trim_sample : trim "  red  cats  " = "red  cats".
Proof. reflexivity. Qed.

Example trim_blank : trim "   " = "".
Proof. reflexivity. Qed.

Example remove_spaces_sample : remove_spaces "red cats 2" = "redcats2".
Proof. reflexivity. Qed.

Example encodeURIComponent_sample : encodeURIComponent "red cats&dogs" = "red%20cats%26dogs".
Proof. reflexivity. Qed.

Example strip_extension_samples :
  Create.strip_extension "notes.final.txt" = "notes.final" ∧
  Create.strip_extension ".txt" = "" ∧
  Create.strip_extension "notes." = "notes." ∧
  Create.strip_extension "v1.2/notes" = "v1.2/notes".
Proof. repeat split; reflexivity. Qed.

Example getMockSlides_three :
  (λ s, prop s "title") <$> Gemini.getMockSlides "Tea" 3 =
  [Some (VStr "Introduction to Tea"); Some (VStr "Topic 1 of Tea");
   Some (VStr "Topic 2 of Tea")].
Proof. vm_compute. reflexivity. Qed.

Example getMockSlides_zero : length (Gemini.getMockSlides "Tea" 0) = 1.
Proof. reflexivity. Qed.

(** ** The cleaning on sample inputs *)

Example cleanSlide_null :
  Editor.cleanSlide 5 0 VNull =
  VObj (obj [("id", VStr "5-0"); ("title", VStr "Untitled Slide"); ("content", VArr []);
             ("background", Editor.defaultBg);
             ("titleStyle", VObj Editor.defaultTitleStyle);
             ("contentStyle", VObj Editor.defaultContentStyle)]).
Proof. vm_compute. reflexivity. Qed.

(** ** Operators *)

Lemma js_or_truthy a d : truthy d = true → truthy (js_or a d) = true.
Proof.
  intros Hd. destruct a as [v|]; simpl; [|done].
  by destruct (truthy v) eqn:Hv.
Qed.

Lemma js_or_kept v d : truthy v = true → js_or (Some v) d = v.
Proof. intros Hv. simpl. by rewrite Hv. Qed.

Lemma nullish_not_null a d : d ≠ VNull → nullish a d ≠ VNull.
Proof. intros Hd. by destruct a as [[]|]. Qed.

Lemma nullish_kept v d : v ≠ VNull → nullish (Some v) d = v.
Proof. by destruct v. Qed.

Lemma prop_assign_ne k k' x v : k ≠ k' → prop (assign k x v) k' = prop v k'.
Proof. intros Hk. destruct v; simpl; try done. by rewrite lookup_insert_ne. Qed.

Lemma prop_assign_obj k x o : prop (assign k x (VObj o)) k = Some x.
Proof. simpl. by rewrite lookup_insert_eq. Qed.

Lemma assign_same k x v : prop v k = Some x → assign k x v = v.
Proof. destruct v; simpl; try done. intros Hk. by rewrite insert_id. Qed.

Lemma spread2_absorb (D X : gmap string value) :
  spread2 D (spread2 D X) = spread2 D X.
Proof.
  unfold spread2. by rewrite <-(assoc_L (∪)), (idemp_L (∪)).
Qed.

(** ** The normalizer *)

Lemma ensureBackgroundProps_type b :
  prop (Editor.ensureBackgroundProps b) "type" = prop b "type".
Proof.
  unfold Editor.ensureBackgroundProps.
  repeat case_match; by rewrite ?prop_assign_ne.
Qed.

Lemma ensureBackgroundProps_obj o :
  ∃ o', Editor.ensureBackgroundProps (VObj o) = VObj o'.
Proof.
  unfold Editor.ensureBackgroundProps. repeat case_match; simpl; eauto.
Qed.

Ltac lookup_simpl :=
  repeat (rewrite lookup_insert_eq || rewrite lookup_insert_ne by done).

Ltac map_ext :=
  apply map_eq; intros ?; rewrite !lookup_insert; repeat case_decide; done.

Lemma ensureBackgroundProps_idem b :
  Editor.ensureBackgroundProps (Editor.ensureBackgroundProps b) =
  Editor.ensureBackgroundProps b.
Proof.
  destruct b as [| | | | |o];
    try (unfold Editor.ensureBackgroundProps; simpl; done).
  unfold Editor.ensureBackgroundProps at 1.
  rewrite !ensureBackgroundProps_type.
  unfold Editor.ensureBackgroundProps.
  destruct (strict_eq (prop (VObj o) "type") (Some (VStr "image"))) eqn:Hi;
    [|destruct (strict_eq (prop (VObj o) "type") (Some (VStr "gradient"))) eqn:Hg;
      [|done]];
    cbn [assign prop]; lookup_simpl;
    rewrite ?nullish_kept by (by apply nullish_not_null);
    rewrite ?js_or_kept by (by apply js_or_truthy);
    f_equal; map_ext.
Qed.

Lemma obj_lookup k (l : list (string * value)) :
  obj l !! k = snd <$> List.find (λ p, String.eqb p.1 k) l.
Proof.
  induction l as [|[k' v] l IH]; [done|].
  unfold obj in *. cbn [list_to_map foldr List.find fst].
  rewrite lookup_insert. destruct (String.eqb_spec k' k) as [->|Hne].
  - by rewrite decide_True.
  - by rewrite decide_False.
Qed.

Lemma prop_obj k l : prop (VObj (obj l)) k = snd <$> List.find (λ p, String.eqb p.1 k) l.
Proof. apply obj_lookup. Qed.

Lemma kept_background_stays b :
  truthy b && typeof_string (prop b "type") = true →
  let b' := Editor.ensureBackgroundProps b in
  truthy b' && typeof_string (prop b' "type") = true.
Proof.
  intros Hb. simpl. rewrite ensureBackgroundProps_type.
  destruct b as [| | | | |o]; try done.
  destruct (ensureBackgroundProps_obj o) as [o' ->]. done.
Qed.

Lemma string_app_length (s1 s2 : string) :
  String.length (s1 +:+ s2) = String.length s1 + String.length s2.
Proof.
  induction s1 as [|c s1 IH]; [done|].
  change (S (String.length (s1 +:+ s2)) = S (String.length s1 + String.length s2)).
  by rewrite IH.
Qed.

Lemma synthesized_id_truthy (now : Z) (index : nat) :
  truthy (VStr (pretty now +:+ "-" +:+ pretty index)) = true.
Proof.
  simpl. destruct (String.eqb_spec (pretty now +:+ "-" +:+ pretty index) "") as [E|]; [|done].
  apply (f_equal String.length) in E. rewrite !string_app_length in E. simpl in E. lia.
Qed.

Lemma cleanSlide_idem now now' index index' slide :
  Editor.cleanSlide now' index' (Editor.cleanSlide now index slide) =
  Editor.cleanSlide now index slide.
Proof.
  unfold Editor.cleanSlide.
  rewrite !prop_obj.
  cbn [List.find fst snd String.eqb Ascii.eqb Bool.eqb fmap option_fmap option_map].
  set (bg0 := match prop slide "background" with
              | Some b => if truthy b && typeof_string (prop b "type")
                          then b else Editor.defaultBg
              | None => Editor.defaultBg
              end).
  assert (Hk : truthy bg0 && typeof_string (prop bg0 "type") = true).
  { subst bg0. destruct (prop slide "background") as [b|]; [|done].
    by destruct (truthy b && typeof_string (prop b "type")) eqn:Hb. }
  rewrite (kept_background_stays _ Hk), ensureBackgroundProps_idem.
  rewrite (js_or_kept (js_or (prop slide "id") _))
    by apply js_or_truthy, synthesized_id_truthy.
  rewrite (js_or_kept (js_or (prop slide "title") _)) by by apply js_or_truthy.
  rewrite !(js_or_kept (VObj _)) by done.
  cbn [array_or_empty own_props].
  by rewrite !spread2_absorb.
Qed.

Lemma cleanedSlides_idem clock clock' slides :
  Editor.cleanedSlides clock' (Editor.cleanedSlides clock slides) =
  Editor.cleanedSlides clock slides.
Proof.
  unfold Editor.cleanedSlides. apply list_eq. intros i.
  rewrite !list_lookup_imap. destruct (slides !! i) as [s|]; [|done].
  simpl. by rewrite cleanSlide_idem.
Qed.

(** C1. The document normalizer is idempotent: cleaning the result of a
    cleaning again, whatever the clock shows by then, gives that result back,
    for every input; on the inputs it rejects ([null] and the other falsy
    values) both sides report the presentation as not found. *)
Theorem normalize_idempotent (clock clock' : nat → Z) (x : value) :
  Editor.normalize clock x ≫= Editor.normalize clock' = Editor.normalize clock x.
Proof.
  unfold Editor.normalize. destruct (truthy x); [|done].
  cbn [mbind option_bind truthy prop own_props].
  rewrite lookup_insert_eq. cbn [array_or_empty].
  rewrite cleanedSlides_idem. by rewrite insert_insert_eq.
Qed.

Example normalize_null clock : Editor.normalize clock VNull = None.
Proof. reflexivity. Qed.

Example normalize_empty_object clock :
  Editor.normalize clock (VObj ∅) = Some (VObj (obj [("slides", VArr [])])).
Proof. reflexivity. Qed.

Example normalize_slides_not_array clock :
  Editor.normalize clock (VObj (obj [("id", VStr "p1"); ("slides", VStr "oops")])) =
  Some (VObj (obj [("id", VStr "p1"); ("slides", VArr [])])).
Proof. vm_compute. reflexivity. Qed.

(** ** Background defaults *)

Lemma ensureBackgroundProps_image o :
  o !! "type" = Some (VStr "image") →
  Editor.ensureBackgroundProps (VObj o) =
  VObj (<["blur" := nullish (o !! "blur") (num 0)]>
          (<["opacity" := nullish (o !! "opacity") (num 1)]> o)).
Proof.
  intros Ht. unfold Editor.ensureBackgroundProps. cbn [prop]. rewrite Ht.
  cbn [strict_eq String.eqb Ascii.eqb Bool.eqb assign prop]. by lookup_simpl.
Qed.

Lemma ensureBackgroundProps_gradient o :
  o !! "type" = Some (VStr "gradient") →
  Editor.ensureBackgroundProps (VObj o) =
  VObj (<["angle" := js_or (o !! "angle") (num 90)]>
          (<["color2" := js_or (o !! "color2") (VStr "#bbbbbb")]>
             (<["color1" := js_or (o !! "color1") (VStr "#ffffff")]> o))).
Proof.
  intros Ht. unfold Editor.ensureBackgroundProps. cbn [prop]. rewrite Ht.
  cbn [strict_eq String.eqb Ascii.eqb Bool.eqb assign prop]. by lookup_simpl.
Qed.

(** An image background keeps an opacity and a blur it has, zero included. *)
Lemma image_fields_preserved o opacity blur :
  o !! "type" = Some (VStr "image") →
  o !! "opacity" = Some (VNum opacity) → o !! "blur" = Some (VNum blur) →
  Editor.ensureBackgroundProps (VObj o) = VObj o.
Proof.
  intros Ht Ho Hb. rewrite ensureBackgroundProps_image by done.
  rewrite Ho, Hb. cbn [nullish]. f_equal. by rewrite !insert_id by by lookup_simpl.
Qed.

(** C6. A stored gradient whose angle is 0 comes out of the cleaning with the
    angle 90: the gradient branch takes a present but falsy field for a
    missing one, where the image branch keeps an opacity of 0. *)
Theorem gradient_angle_zero_is_reset :
  let stored := VObj (obj [("type", VStr "gradient"); ("color1", VStr "#ff0000");
                           ("color2", VStr "#0000ff"); ("angle", num 0)]) in
  let slide := VObj (obj [("id", VStr "s1"); ("title", VStr "T"); ("content", VArr []);
                          ("background", stored)]) in
  prop stored "angle" = Some (num 0) ∧
  prop (Editor.cleanSlide 0 0 slide) "background" ≫= (λ b, prop b "angle") = Some (num 90) ∧
  prop (Editor.ensureBackgroundProps
          (VObj (obj [("type", VStr "image"); ("value", VStr "u"); ("opacity", num 0);
                      ("blur", num 0)]))) "opacity" = Some (num 0).
Proof. vm_compute. done. Qed.

(** ** The slide mutation engine *)

Lemma filter_index_from_below {A} (l : list A) (c k : nat) :
  c < k → filter_index_from (λ index, negb (index =? c)) k l = l.
Proof.
  revert k. induction l as [|x l IH]; intros k Hk; [done|].
  cbn [filter_index_from]. destruct (Nat.eqb_spec k c); [lia|].
  cbn [negb]. f_equal. apply IH. lia.
Qed.

Lemma filter_index_from_delete {A} (l : list A) (c k : nat) :
  filter_index_from (λ index, negb (index =? k + c)) k l = delete c l.
Proof.
  revert c k. induction l as [|x l IH]; intros c k; [done|].
  cbn [filter_index_from]. destruct c as [|c].
  - rewrite Nat.add_0_r, Nat.eqb_refl. cbn [negb].
    rewrite (filter_index_from_below l k (S k)) by lia. done.
  - destruct (Nat.eqb_spec k (k + S c)); [lia|]. cbn [negb].
    replace (k + S c) with (S k + c) by lia. by rewrite IH.
Qed.

Lemma filter_index_delete {A} (l : list A) (c : nat) :
  filter_index (λ index, negb (index =? c)) l = delete c l.
Proof. apply (filter_index_from_delete l c 0). Qed.

Lemma slides_of_with_slides p l : Editor.slides_of (Editor.with_slides p l) = l.
Proof.
  unfold Editor.slides_of, Editor.with_slides. cbn [prop].
  by rewrite lookup_insert_eq.
Qed.

Lemma length_delete_in_range {A} (l : list A) (c : nat) :
  c < length l → length (delete c l) = length l - 1.
Proof.
  intros Hc. apply length_delete. by apply lookup_lt_is_Some_2.
Qed.

Lemma delete_out_of_range {A} (l : list A) (c : nat) :
  length l ≤ c → delete c l = l.
Proof.
  revert c. induction l as [|x l IH]; intros c Hc; [by destruct c|].
  destruct c as [|c]; simpl in *; [lia|]. f_equal. apply IH. lia.
Qed.

Lemma length_delete_bounds {A} (l : list A) (c : nat) :
  length l - 1 ≤ length (delete c l) ≤ length l.
Proof.
  destruct (decide (c < length l)) as [Hc|Hc].
  - rewrite length_delete_in_range by done. lia.
  - rewrite delete_out_of_range by lia. lia.
Qed.

(** C7. With exactly one slide [deleteSlide] changes nothing; with more, the
    slide under the cursor is removed and the cursor becomes the smaller of
    the old cursor and the new last index, which is in range. *)
Theorem deleteSlide_floor_and_cursor (st : Editor.State) (p : value) :
  Editor.presentation st = Some p →
  (length (Editor.slides_of p) = 1 → Editor.deleteSlide st = st) ∧
  (1 < length (Editor.slides_of p) →
     ∃ p', Editor.presentation (Editor.deleteSlide st) = Some p' ∧
       Editor.slides_of p' = delete (Editor.currentSlideIndex st) (Editor.slides_of p) ∧
       (Editor.currentSlideIndex st < length (Editor.slides_of p) →
          length (Editor.slides_of p') = length (Editor.slides_of p) - 1) ∧
       Editor.currentSlideIndex (Editor.deleteSlide st) =
         Nat.min (Editor.currentSlideIndex st) (length (Editor.slides_of p') - 1) ∧
       Editor.currentSlideIndex (Editor.deleteSlide st) < length (Editor.slides_of p')).
Proof.
  intros Hp. unfold Editor.deleteSlide. rewrite Hp. split.
  - intros ->. done.
  - intros Hlen. destruct (Nat.leb_spec (length (Editor.slides_of p)) 1); [lia|].
    rewrite filter_index_delete.
    eexists. cbn [Editor.presentation Editor.setCurrentSlideIndex Editor.setPresentation
                  Editor.currentSlideIndex].
    split; [done|]. rewrite slides_of_with_slides.
    pose proof (length_delete_bounds (Editor.slides_of p) (Editor.currentSlideIndex st)).
    split; [done|]. split; [apply length_delete_in_range|]. lia.
Qed.

Lemma deleteSlide_floor_and_cursor_witness :
  let slide (n : string) := VObj (obj [("id", VStr n)]) in
  let p := VObj (obj [("id", VStr "p"); ("slides", VArr [slide "a"; slide "b"; slide "c"])]) in
  let st := {| Editor.presentation := Some p; Editor.currentSlideIndex := 2;
               Editor.isLoading := false; Editor.error := None;
               Editor.gallerySearchQuery := ""; Editor.galleryImages := [];
               Editor.isSearching := false |} in
  ∃ p', Editor.presentation (Editor.deleteSlide st) = Some p' ∧
        Editor.slides_of p' = [slide "a"; slide "b"] ∧
        Editor.currentSlideIndex (Editor.deleteSlide st) = 1.
Proof.
  intros slide p st.
  destruct (deleteSlide_floor_and_cursor st p eq_refl) as [_ H].
  destruct H as (p' & Hp' & Hs & _ & Hc & _).
  - vm_compute. lia.
  - exists p'. split; [exact Hp'|]. split.
    + rewrite Hs. reflexivity.
    + rewrite Hc, Hs. reflexivity.
Defined.

Lemma spread_one_field (s : gmap string value) k x :
  spread2 s (obj [(k, x)]) = <[k := x]> s.
Proof.
  unfold spread2, obj. cbn [list_to_map foldr].
  rewrite <-insert_union_l. by rewrite (left_id_L ∅ (∪)).
Qed.

Lemma updateSlide_object st p i s updatedProps :
  Editor.presentation st = Some p →
  Editor.slides_of p !! i = Some (VObj s) →
  Editor.updateSlide i updatedProps st =
  Editor.setPresentation
    (Some (Editor.with_slides p (<[i := VObj (spread2 s updatedProps)]> (Editor.slides_of p))))
    st.
Proof. intros Hp Hs. unfold Editor.updateSlide. by rewrite Hp, Hs. Qed.

(** C8. [changeBackground] puts the new background on the current slide and
    touches nothing else: the slide keeps every other field, the title and
    content styles among them, the other slides and the cursor stay as they
    were.  The "Image" type button passes a fresh image background, so a
    slide that had a gradient ends up with opacity 1, blur 0 and none of
    color1, color2 or angle. *)
Theorem changeBackground_frame (st : Editor.State) (p : value)
    (s : gmap string value) (newBackground : value) :
  Editor.presentation st = Some p →
  Editor.slides_of p !! Editor.currentSlideIndex st = Some (VObj s) →
  let i := Editor.currentSlideIndex st in
  let st' := Editor.changeBackground newBackground st in
  ∃ p', Editor.presentation st' = Some p' ∧
    Editor.currentSlideIndex st' = i ∧
    Editor.slides_of p' = <[i := VObj (<["background" := newBackground]> s)]> (Editor.slides_of p) ∧
    length (Editor.slides_of p') = length (Editor.slides_of p) ∧
    (∀ j, j ≠ i → Editor.slides_of p' !! j = Editor.slides_of p !! j) ∧
    (∃ s', Editor.slides_of p' !! i = Some (VObj s') ∧
       s' !! "background" = Some newBackground ∧
       s' !! "titleStyle" = s !! "titleStyle" ∧
       s' !! "contentStyle" = s !! "contentStyle" ∧
       (∀ k, k ≠ "background" → s' !! k = s !! k)) ∧
    (∀ seed, newBackground = Editor.imageBackground seed →
       prop newBackground "type" = Some (VStr "image") ∧
       prop newBackground "opacity" = Some (num 1) ∧
       prop newBackground "blur" = Some (num 0) ∧
       prop newBackground "color1" = None ∧
       prop newBackground "color2" = None ∧
       prop newBackground "angle" = None).
Proof.
  intros Hp Hs i st'. subst st'. unfold Editor.changeBackground. fold i in Hs |- *.
  rewrite (updateSlide_object st p i s _ Hp Hs), spread_one_field.
  eexists. split; [done|]. split; [done|].
  rewrite slides_of_with_slides. split; [done|].
  split; [by rewrite length_insert|].
  split; [by intros j Hj; rewrite list_lookup_insert_ne|].
  split.
  - eexists. split; [apply list_lookup_insert_eq; by eapply lookup_lt_Some|].
    rewrite lookup_insert_eq. repeat split; try by rewrite lookup_insert_ne.
    intros k Hk. by rewrite lookup_insert_ne.
  - intros seed ->. repeat split; reflexivity.
Qed.

Lemma changeBackground_frame_witness :
  let gradient := VObj (obj [("type", VStr "gradient"); ("color1", VStr "#ff0000");
                             ("color2", VStr "#0000ff"); ("angle", num 45)]) in
  let s := obj [("id", VStr "s1"); ("title", VStr "T"); ("content", VArr []);
                ("background", gradient);
                ("titleStyle", VObj Editor.defaultTitleStyle);
                ("contentStyle", VObj Editor.defaultContentStyle)] in
  let p := VObj (obj [("id", VStr "p"); ("slides", VArr [VObj s])]) in
  let st := {| Editor.presentation := Some p; Editor.currentSlideIndex := 0;
               Editor.isLoading := false; Editor.error := None;
               Editor.gallerySearchQuery := ""; Editor.galleryImages := [];
               Editor.isSearching := false |} in
  ∃ p' s', Editor.presentation (Editor.changeBackground (Editor.imageBackground "s1") st)
             = Some p' ∧
    Editor.slides_of p' !! 0 = Some (VObj s') ∧
    s' !! "background" = Some (Editor.imageBackground "s1") ∧
    s' !! "titleStyle" = Some (VObj Editor.defaultTitleStyle).
Proof.
  intros gradient s p st.
  destruct (changeBackground_frame st p s (Editor.imageBackground "s1") eq_refl eq_refl)
    as (p' & Hp' & _ & _ & _ & _ & (s' & Hs' & Hb & Ht & _) & _).
  exists p', s'. split; [exact Hp'|]. split; [exact Hs'|]. split; [exact Hb|].
  rewrite Ht. reflexivity.
Defined.

(** ** The persistence adapter *)

Lemma cleanEntry_Some p q :
  Api.cleanEntry p = Some q →
  ∃ id, prop p "id" = Some id ∧ truthy id = true ∧
    q = VObj (obj
          [("id", id);
           ("userId", js_or (prop p "userId") (VStr "unknown_user"));
           ("title", js_or (prop p "title") (VStr "Untitled Presentation"));
           ("slides", VArr (array_or_empty (prop p "slides")));
           ("theme", js_or (prop p "theme") (VStr "Default"));
           ("createdAt", js_or (prop p "createdAt") (VStr "1970-01-01T00:00:00.000Z"))]).
Proof.
  unfold Api.cleanEntry. destruct p as [| | | | |o]; try done.
  destruct (prop (VObj o) "id") as [id|]; [|done].
  destruct (truthy id) eqn:Hid; [|done].
  intros [= <-]. eauto.
Qed.

Lemma cleanEntry_id p q : Api.cleanEntry p = Some q → prop q "id" = prop p "id".
Proof.
  intros (id & Hid & _ & ->)%cleanEntry_Some. by rewrite prop_obj, Hid.
Qed.

Lemma cleanEntry_fix p q : Api.cleanEntry p = Some q → Api.cleanEntry q = Some q.
Proof.
  intros (id & Hid & Ht & ->)%cleanEntry_Some.
  unfold Api.cleanEntry. rewrite !prop_obj.
  cbn [List.find fst snd String.eqb Ascii.eqb Bool.eqb fmap option_fmap option_map].
  rewrite Ht. rewrite !js_or_kept by by apply js_or_truthy. done.
Qed.

Lemma omap_cleanEntry_fixed l :
  Forall (λ q, Api.cleanEntry q = Some q) l → omap Api.cleanEntry l = l.
Proof. induction 1 as [|q l Hq _ IH]; [done|]. cbn [omap list_omap]. by rewrite Hq, IH. Qed.

Lemma omap_cleanEntry_all_fixed l :
  Forall (λ q, Api.cleanEntry q = Some q) (omap Api.cleanEntry l).
Proof.
  induction l as [|p l IH]; [constructor|]. cbn [omap list_omap].
  destruct (Api.cleanEntry p) as [q|] eqn:Hq; [|done].
  constructor; [by eapply cleanEntry_fix|done].
Qed.

Lemma cleaned_all_fixed ls :
  Forall (λ q, Api.cleanEntry q = Some q) (Api._getAndCleanPresentations ls).
Proof.
  unfold Api._getAndCleanPresentations.
  destruct (Api.getItem "presentations" ls) as [[|[]]|]; try constructor.
  apply omap_cleanEntry_all_fixed.
Qed.

Lemma cleaned_after_setItem l ls ls' :
  Api.setItem "presentations" (VArr l) ls = Some ls' →
  Api._getAndCleanPresentations ls' = omap Api.cleanEntry l.
Proof.
  unfold Api.setItem. destruct (Api.writable ls); [|done]. intros [= <-].
  unfold Api._getAndCleanPresentations, Api.getItem. cbn [Api.items].
  by rewrite lookup_insert_eq.
Qed.

Lemma Forall_filter_bool {A} (P : A → Prop) (f : A → bool) l :
  Forall P l → Forall P (List.filter f l).
Proof.
  induction 1 as [|x l Hx _ IH]; [constructor|]. cbn [List.filter].
  destruct (f x); [by constructor|done].
Qed.

Lemma has_id_distinct id id' p :
  id' ≠ id → Spec.has_id id' p = true → Spec.has_id id p = false.
Proof.
  unfold Spec.has_id. destruct (prop p "id") as [[| | |s| |]|]; try done. cbn [strict_eq].
  intros Hne ->%String.eqb_eq. by apply String.eqb_neq.
Qed.

Lemma find_filter_same_id id l :
  List.find (Spec.has_id id) (List.filter (λ p, negb (Spec.has_id id p)) l) = None.
Proof.
  induction l as [|p l IH]; [done|]. cbn [List.filter].
  destruct (Spec.has_id id p) eqn:Hp; cbn [negb List.find]; [done|]. by rewrite Hp.
Qed.

Lemma find_filter_other_id id id' l :
  id' ≠ id →
  List.find (Spec.has_id id') (List.filter (λ p, negb (Spec.has_id id p)) l) =
  List.find (Spec.has_id id') l.
Proof.
  intros Hne. induction l as [|p l IH]; [done|]. cbn [List.filter List.find].
  destruct (Spec.has_id id' p) eqn:Hp'.
  - rewrite (has_id_distinct id id' p Hne Hp'). cbn [negb List.find]. by rewrite Hp'.
  - destruct (Spec.has_id id p); cbn [negb List.find]; [done|]. by rewrite Hp'.
Qed.

(** C10, as the code has it.  In a store that accepts the write,
    [deletePresentation id] removes exactly the records with that id: the
    stored collection becomes the previous one without them, loading [id]
    afterwards finds nothing, and loading any other id gives what it gave
    before. *)
Theorem deletePresentation_exact (id : string) (ls : Api.LocalStorage) :
  Api.writable ls = true →
  let ls' := Api.deletePresentation id ls in
  Api._getAndCleanPresentations ls' =
    List.filter (λ p, negb (Spec.has_id id p)) (Api._getAndCleanPresentations ls) ∧
  Api.getPresentation id ls' = VNull ∧
  (∀ id', id' ≠ id → Api.getPresentation id' ls' = Api.getPresentation id' ls).
Proof.
  intros Hw ls'.
  assert (Hl : Api._getAndCleanPresentations ls' =
    List.filter (λ p, negb (Spec.has_id id p)) (Api._getAndCleanPresentations ls)).
  { subst ls'. unfold Api.deletePresentation.
    destruct (Api.setItem _ _ ls) as [ls1|] eqn:Hset.
    - rewrite (cleaned_after_setItem _ _ _ Hset).
      apply omap_cleanEntry_fixed, Forall_filter_bool, cleaned_all_fixed.
    - unfold Api.setItem in Hset. by rewrite Hw in Hset. }
  split; [done|]. unfold Api.getPresentation. rewrite Hl. split.
  - by rewrite (find_filter_same_id id).
  - intros id' Hne. by rewrite (find_filter_other_id id id' _ Hne).
Qed.

Lemma deletePresentation_exact_witness :
  let record (id : string) :=
    VObj (obj [("id", VStr id); ("userId", VStr "u"); ("title", VStr "T");
               ("slides", VArr []); ("theme", VStr "Default");
               ("createdAt", VStr "2024-01-01T00:00:00.000Z")]) in
  let ls := {| Api.items := {["presentations" := Api.Json (VArr [record "a"; record "b"])]};
               Api.writable := true |} in
  Api.getPresentation "a" (Api.deletePresentation "a" ls) = VNull ∧
  Api.getPresentation "b" (Api.deletePresentation "a" ls) = record "b".
Proof.
  intros record ls.
  destruct (deletePresentation_exact "a" ls eq_refl) as (_ & Ha & Hb).
  split; [exact Ha|]. rewrite (Hb "b") by discriminate. vm_compute. reflexivity.
Defined.

(** C10 as stated fails when the store refuses the write: the error is
    swallowed, and the record asked to be deleted is still there. *)
Lemma deletePresentation_refused_keeps_record :
  let record (id : string) :=
    VObj (obj [("id", VStr id); ("userId", VStr "u"); ("title", VStr "T");
               ("slides", VArr []); ("theme", VStr "Default");
               ("createdAt", VStr "2024-01-01T00:00:00.000Z")]) in
  let ls := {| Api.items := {["presentations" := Api.Json (VArr [record "a"; record "b"])]};
               Api.writable := false |} in
  Api._getAndCleanPresentations ls = [record "a"; record "b"] ∧
  Api.deletePresentation "a" ls = ls ∧
  Api.getPresentation "a" (Api.deletePresentation "a" ls) = record "a" ∧
  Api.getPresentation "a" (Api.deletePresentation "a" ls) ≠ VNull.
Proof.
  intros record ls.
  assert (Hget : Api.getPresentation "a" (Api.deletePresentation "a" ls) = record "a")
    by (vm_compute; reflexivity).
  split; [vm_compute; reflexivity|]. split; [reflexivity|]. split; [exact Hget|].
  rewrite Hget. discriminate.
Qed.

Lemma has_id_cleanEntry id p q :
  Api.cleanEntry p = Some q → Spec.has_id id q = Spec.has_id id p.
Proof. intros Hq. unfold Spec.has_id. by rewrite (cleanEntry_id p q Hq). Qed.

Lemma find_after_upsert id p q all :
  Api.cleanEntry p = Some q → Spec.has_id id p = true →
  List.find (Spec.has_id id)
    (omap Api.cleanEntry
       match Api.findIndex (Spec.has_id id) all with
       | Some i => <[i := p]> all
       | None => all ++ [p]
       end) = Some q.
Proof.
  intros Hq Hid.
  assert (Hqid : Spec.has_id id q = true) by by rewrite (has_id_cleanEntry id p q Hq).
  induction all as [|x l IH].
  - cbn [Api.findIndex app omap list_omap]. rewrite Hq. cbn [List.find]. by rewrite Hqid.
  - cbn [Api.findIndex]. destruct (Spec.has_id id x) eqn:Hx.
    + cbn [insert list_insert omap list_omap]. rewrite Hq. cbn [List.find]. by rewrite Hqid.
    + assert (Hstep : ∀ rest,
        List.find (Spec.has_id id) (omap Api.cleanEntry (x :: rest)) =
        List.find (Spec.has_id id) (omap Api.cleanEntry rest)).
      { intros rest. cbn [omap list_omap].
        destruct (Api.cleanEntry x) as [x'|] eqn:Hx'; [|done].
        cbn [List.find]. by rewrite (has_id_cleanEntry id x x' Hx'), Hx. }
      destruct (Api.findIndex (Spec.has_id id) l) as [i|];
        cbn [fmap option_fmap option_map insert list_insert app];
        by rewrite Hstep.
Qed.

(** C5, as the code has it.  Saving a presentation whose id is a non-empty
    text into a store that accepts the write, and loading that id, gives the
    presentation with the record-level defaults of the adapter (owner,
    title, theme, creation date, and an empty list for slides that are not
    an array); the slides themselves come back as they were stored, without
    the cleaning the editor applies. *)
Theorem save_then_get (p : value) (id : string) (ls : Api.LocalStorage) :
  prop p "id" = Some (VStr id) → id ≠ "" → Api.writable ls = true →
  (Api.savePresentation p ls).2 = p ∧
  Some (Api.getPresentation id (Api.savePresentation p ls).1) = Api.cleanEntry p ∧
  (Api.cleanEntry p = Some p → Api.getPresentation id (Api.savePresentation p ls).1 = p).
Proof.
  intros Hid Hne Hw.
  assert (Hq : ∃ q, Api.cleanEntry p = Some q).
  { unfold Api.cleanEntry. destruct p; try done. rewrite Hid. cbn [truthy].
    apply String.eqb_neq in Hne. rewrite Hne. eauto. }
  destruct Hq as [q Hq].
  assert (Hget : Api.getPresentation id (Api.savePresentation p ls).1 = q).
  { unfold Api.savePresentation. cbn [fst].
    destruct (Api.setItem _ _ ls) as [ls1|] eqn:Hset;
      [|unfold Api.setItem in Hset; by rewrite Hw in Hset].
    unfold Api.getPresentation. rewrite (cleaned_after_setItem _ _ _ Hset), Hid.
    rewrite (find_after_upsert id p q _ Hq).
    - apply js_or_kept. by destruct (cleanEntry_Some p q Hq) as (? & _ & _ & ->).
    - unfold Spec.has_id. rewrite Hid. cbn [strict_eq]. apply String.eqb_refl. }
  split; [done|]. split; [by rewrite Hget, Hq|].
  intros Hp. rewrite Hget. congruence.
Qed.

Lemma save_then_get_witness :
  let image := VObj (obj [("type", VStr "image"); ("value", VStr "https://img/1")]) in
  let slide := VObj (obj [("id", VStr "1-0"); ("title", VStr "A"); ("content", VArr [VStr "a1"]);
                          ("background", image);
                          ("titleStyle", VObj Create.defaultTitleStyle);
                          ("contentStyle", VObj Create.defaultContentStyle)]) in
  let p := VObj (obj [("id", VStr "1"); ("userId", VStr "u"); ("title", VStr "Deck");
                      ("slides", VArr [slide]); ("theme", VStr "Default");
                      ("createdAt", VStr "2024-01-01T00:00:00.000Z")]) in
  let ls := {| Api.items := ∅; Api.writable := true |} in
  Api.getPresentation "1" (Api.savePresentation p ls).1 = p.
Proof.
  intros image slide p ls.
  destruct (save_then_get p "1" ls) as (_ & _ & H); [reflexivity|discriminate|reflexivity|].
  apply H. vm_compute. reflexivity.
Defined.

(** The two conditions are needed: a presentation with the empty id is
    dropped by the cleaning on the way back, and a store that refuses the
    write keeps what it had. *)
Example save_with_empty_id_is_lost :
  let p := VObj (obj [("id", VStr ""); ("userId", VStr "u"); ("title", VStr "Deck");
                      ("slides", VArr []); ("theme", VStr "Default");
                      ("createdAt", VStr "2024-01-01T00:00:00.000Z")]) in
  Api.getPresentation "" (Api.savePresentation p Sample.emptyStore).1 = VNull.
Proof. vm_compute. reflexivity. Qed.

Example save_into_full_store_is_lost :
  let p := VObj (obj [("id", VStr "1"); ("userId", VStr "u"); ("title", VStr "Deck");
                      ("slides", VArr []); ("theme", VStr "Default");
                      ("createdAt", VStr "2024-01-01T00:00:00.000Z")]) in
  let full := {| Api.items := ∅; Api.writable := false |} in
  Api.getPresentation "1" (Api.savePresentation p full).1 = VNull.
Proof. vm_compute. reflexivity. Qed.

(** C5 as stated fails: a presentation as the generation pipeline builds it,
    with an image background that has no opacity, is loaded back exactly as
    it was saved, while its normalization has the opacity and blur filled
    in. *)
Lemma save_then_get_is_not_normalize :
  let image := VObj (obj [("type", VStr "image"); ("value", VStr "https://img/1")]) in
  let slide := VObj (obj [("id", VStr "1-0"); ("title", VStr "A"); ("content", VArr [VStr "a1"]);
                          ("background", image);
                          ("titleStyle", VObj Create.defaultTitleStyle);
                          ("contentStyle", VObj Create.defaultContentStyle)]) in
  let p := VObj (obj [("id", VStr "1"); ("userId", VStr "u"); ("title", VStr "Deck");
                      ("slides", VArr [slide]); ("theme", VStr "Default");
                      ("createdAt", VStr "2024-01-01T00:00:00.000Z")]) in
  let ls := {| Api.items := ∅; Api.writable := true |} in
  Some (Api.getPresentation "1" (Api.savePresentation p ls).1) ≠
  Editor.normalize (λ _, 0%Z) p.
Proof.
  intros image slide p ls H.
  apply (f_equal (λ r, r ≫= λ v, Editor.slides_of v !! 0 ≫= λ s,
                   prop s "background" ≫= λ b, prop b "opacity")) in H.
  vm_compute in H. discriminate H.
Qed.

(** ** Promises *)

Lemma settled_bind {A B} (m : Async.t A) (f : A → Async.t B) :
  Async.settled (Async.bind m f) = Async.settled m ≫= (λ a, Async.settled (f a)).
Proof. destruct m as [tr [a|]]; [|done]. simpl. by destruct (f a). Qed.

Lemma calls_bind {A B} (m : Async.t A) (f : A → Async.t B) :
  Async.calls (Async.bind m f) =
  Async.calls m ++ match Async.settled m with
                   | Some a => Async.calls (f a)
                   | None => []
                   end.
Proof.
  destruct m as [tr [a|]]; simpl; [by destruct (f a)|by rewrite app_nil_r].
Qed.

(** ** Web image search *)

Lemma tryProviders_cons provider rest query :
  Async.settled (Editor.tryProviders (provider :: rest) query) =
  match Async.settled (provider query) with
  | Some imageUrls =>
      if 0 <? length imageUrls then Some (Some imageUrls)
      else Async.settled (Editor.tryProviders rest query)
  | None => Async.settled (Editor.tryProviders rest query)
  end.
Proof.
  cbn [Editor.tryProviders]. rewrite settled_bind.
  unfold Async.attempt, Async.settled. cbn [snd mbind option_bind].
  destruct (provider query).2 as [imageUrls|]; [|done].
  by destruct (0 <? length imageUrls).
Qed.

Lemma tryProviders_calls_cons provider rest query :
  Async.calls (Editor.tryProviders (provider :: rest) query) =
  Async.calls (provider query) ++
  match Async.settled (provider query) with
  | Some imageUrls =>
      if 0 <? length imageUrls then [] else Async.calls (Editor.tryProviders rest query)
  | None => Async.calls (Editor.tryProviders rest query)
  end.
Proof.
  cbn [Editor.tryProviders]. rewrite calls_bind.
  unfold Async.attempt, Async.settled, Async.calls. cbn [fst snd].
  destruct (provider query).2 as [imageUrls|]; [|done].
  by destruct (0 <? length imageUrls).
Qed.

Lemma tryProviders_skip failed rest query :
  Forall (Spec.gave_nothing query) failed →
  Async.settled (Editor.tryProviders (failed ++ rest) query) =
    Async.settled (Editor.tryProviders rest query) ∧
  Async.calls (Editor.tryProviders (failed ++ rest) query) =
    (failed ≫= λ provider, Async.calls (provider query)) ++
    Async.calls (Editor.tryProviders rest query).
Proof.
  induction 1 as [|provider failed Hp _ [IHs IHc]]; [done|].
  rewrite <-app_comm_cons, tryProviders_cons, tryProviders_calls_cons.
  cbn [mbind list_bind]. rewrite <-app_assoc.
  destruct Hp as [-> | ->]; cbn [length Nat.ltb Nat.leb]; by rewrite ?IHs, ?IHc.
Qed.

Lemma tryProviders_win winner rest query imageUrls :
  Async.settled (winner query) = Some imageUrls → imageUrls ≠ [] →
  Async.settled (Editor.tryProviders (winner :: rest) query) = Some (Some imageUrls) ∧
  Async.calls (Editor.tryProviders (winner :: rest) query) = Async.calls (winner query).
Proof.
  intros Hw Hne. rewrite tryProviders_cons, tryProviders_calls_cons, Hw.
  destruct imageUrls; [done|]. cbn [length Nat.ltb Nat.leb]. by rewrite app_nil_r.
Qed.

Lemma searchWith_found providers st imageUrls :
  nonempty (trim (Editor.gallerySearchQuery st)) = true →
  Async.settled (Editor.tryProviders providers (Editor.gallerySearchQuery st)) =
    Some (Some imageUrls) →
  Async.settled (Editor.searchWith providers st) =
    Some (Editor.setIsSearching false
            (Editor.setGalleryImages imageUrls
               (Editor.setGalleryImages [] (Editor.setIsSearching true st)))) ∧
  Async.calls (Editor.searchWith providers st) =
    Async.calls (Editor.tryProviders providers (Editor.gallerySearchQuery st)).
Proof.
  intros Hq Hf. unfold Editor.searchWith. rewrite Hq. cbn [negb].
  cbn [Editor.gallerySearchQuery Editor.setGalleryImages Editor.setIsSearching].
  rewrite settled_bind, calls_bind, Hf. cbn [mbind option_bind].
  split; [done|]. cbn [Async.calls Async.ret fst]. by rewrite app_nil_r.
Qed.

Lemma searchWith_exhausted providers st :
  nonempty (trim (Editor.gallerySearchQuery st)) = true →
  Async.settled (Editor.tryProviders providers (Editor.gallerySearchQuery st)) = Some None →
  Async.settled (Editor.searchWith providers st) =
    Some (Editor.setIsSearching false
            (Editor.setGalleryImages [] (Editor.setIsSearching true st))) ∧
  Async.calls (Editor.searchWith providers st) =
    Async.calls (Editor.tryProviders providers (Editor.gallerySearchQuery st)) ++
    [Async.Alert "Could not fetch images. Please try again later."].
Proof.
  intros Hq Hf. unfold Editor.searchWith. rewrite Hq. cbn [negb].
  cbn [Editor.gallerySearchQuery Editor.setGalleryImages Editor.setIsSearching].
  rewrite settled_bind, calls_bind, Hf. cbn [mbind option_bind]. done.
Qed.

Lemma tryProviders_exhausted providers query :
  Forall (Spec.gave_nothing query) providers →
  Async.settled (Editor.tryProviders providers query) = Some None.
Proof.
  intros H. destruct (tryProviders_skip providers [] query H) as [Hs _].
  by rewrite app_nil_r in Hs.
Qed.

Lemma searchWithSerpApi_calls key fetch query :
  ∃ url, Async.calls (Editor.searchWithSerpApi key fetch query) = [Async.Fetch url].
Proof.
  unfold Editor.searchWithSerpApi. eexists. rewrite calls_bind.
  cbn [Async.calls Async.settled Async.emit fst snd].
  repeat case_match; reflexivity.
Qed.

Lemma searchWithSerpApi_nonempty key fetch query imageUrls :
  Async.settled (Editor.searchWithSerpApi key fetch query) = Some imageUrls →
  imageUrls ≠ [].
Proof.
  unfold Editor.searchWithSerpApi. rewrite settled_bind.
  cbn [Async.settled Async.emit snd mbind option_bind].
  repeat case_match; try done. intros [= <-] ->. done.
Qed.

Lemma searchWithSerpApi_url key fetch query :
  Async.calls (Editor.searchWithSerpApi key fetch query) =
  [Async.Fetch ("https://serpapi.com/search.json?q=" +:+ encodeURIComponent query
                +:+ "&tbm=isch&api_key=" +:+ key)].
Proof.
  unfold Editor.searchWithSerpApi. rewrite calls_bind.
  cbn [Async.calls Async.settled Async.emit fst snd].
  repeat case_match; reflexivity.
Qed.

(** C9, for a query that is not blank.  The search takes its providers in
    order and stops at the first one that resolves with a non-empty list,
    which becomes the gallery; the providers after it are not called.  When
    every provider fails or returns nothing the search still resolves, with
    an empty gallery and the alert that no images could be fetched.  The
    editor's own search has the primary provider first and the fallback
    second: its one outside call is the request of the primary; when the
    primary resolves with a non-empty list, that list is the gallery; when
    the primary fails or returns nothing, the gallery is exactly the twelve
    addresses of the fallback, in order; and it never alerts, since the
    fallback always answers. *)
Theorem image_search_first_nonempty_wins
    (providers : list (string → Async.t (list (option value)))) (st : Editor.State) :
  nonempty (trim (Editor.gallerySearchQuery st)) = true →
  let query := Editor.gallerySearchQuery st in
  let fallbackUrls :=
    (λ i : nat, Some (VStr ("https://picsum.photos/seed/" +:+ remove_spaces query
                            +:+ pretty i +:+ "/400/300"))) <$> seq 0 12 in
  (∀ failed winner rest imageUrls,
     providers = failed ++ winner :: rest →
     Forall (Spec.gave_nothing query) failed →
     Async.settled (winner query) = Some imageUrls → imageUrls ≠ [] →
     ∃ st', Async.settled (Editor.searchWith providers st) = Some st' ∧
       Editor.galleryImages st' = imageUrls ∧
       Async.calls (Editor.searchWith providers st) =
         (failed ≫= λ provider, Async.calls (provider query)) ++ Async.calls (winner query)) ∧
  (Forall (Spec.gave_nothing query) providers →
     ∃ st', Async.settled (Editor.searchWith providers st) = Some st' ∧
       Editor.galleryImages st' = [] ∧
       Async.Alert "Could not fetch images. Please try again later."
         ∈ Async.calls (Editor.searchWith providers st)) ∧
  (∀ key fetch,
     let primary := Editor.searchWithSerpApi key fetch in
     Editor.handleImageSearch key fetch st =
       Editor.searchWith [primary; Editor.searchWithFallback] st ∧
     Async.calls (Editor.handleImageSearch key fetch st) = Async.calls (primary query) ∧
     Async.calls (primary query) =
       [Async.Fetch ("https://serpapi.com/search.json?q=" +:+ encodeURIComponent query
                     +:+ "&tbm=isch&api_key=" +:+ key)] ∧
     (∀ imageUrls, Async.settled (primary query) = Some imageUrls → imageUrls ≠ [] →
        ∃ st', Async.settled (Editor.handleImageSearch key fetch st) = Some st' ∧
          Editor.galleryImages st' = imageUrls) ∧
     (Spec.gave_nothing query primary →
        Async.settled (Editor.searchWithFallback query) = Some fallbackUrls ∧
        length fallbackUrls = 12 ∧
        ∃ st', Async.settled (Editor.handleImageSearch key fetch st) = Some st' ∧
          Editor.galleryImages st' = fallbackUrls) ∧
     Async.Alert "Could not fetch images. Please try again later."
       ∉ Async.calls (Editor.handleImageSearch key fetch st)).
Proof.
  intros Hq query fallbackUrls.
  assert (Hwin : ∀ providers failed winner rest imageUrls,
     providers = failed ++ winner :: rest →
     Forall (Spec.gave_nothing query) failed →
     Async.settled (winner query) = Some imageUrls → imageUrls ≠ [] →
     ∃ st', Async.settled (Editor.searchWith providers st) = Some st' ∧
       Editor.galleryImages st' = imageUrls ∧
       Async.calls (Editor.searchWith providers st) =
         (failed ≫= λ provider, Async.calls (provider query)) ++ Async.calls (winner query)).
  { intros providers' failed winner rest imageUrls -> Hfailed Hw Hne.
    destruct (tryProviders_skip failed (winner :: rest) query Hfailed) as [Hs Hc].
    destruct (tryProviders_win winner rest query imageUrls Hw Hne) as [Hs' Hc'].
    destruct (searchWith_found (failed ++ winner :: rest) st imageUrls Hq) as [Hr Hcalls].
    { fold query. by rewrite Hs. }
    eexists. split; [exact Hr|]. split; [done|].
    rewrite Hcalls. fold query. by rewrite Hc, Hc'. }
  split; [apply Hwin|]. split.
  - intros Hall.
    destruct (searchWith_exhausted providers st Hq) as [Hr Hcalls].
    { by apply tryProviders_exhausted. }
    eexists. split; [exact Hr|]. split; [done|].
    rewrite Hcalls. set_solver.
  - intros key fetch primary.
    assert (Hfb : Async.settled (Editor.searchWithFallback query) = Some fallbackUrls)
      by reflexivity.
    assert (Hprimary : ∀ imageUrls,
              Async.settled (primary query) = Some imageUrls → imageUrls ≠ [] →
              ∃ st', Async.settled (Editor.handleImageSearch key fetch st) = Some st' ∧
                Editor.galleryImages st' = imageUrls ∧
                Async.calls (Editor.handleImageSearch key fetch st) =
                  Async.calls (primary query)).
    { intros imageUrls Hs Hne.
      destruct (Hwin [primary; Editor.searchWithFallback] [] primary
                  [Editor.searchWithFallback] imageUrls eq_refl (Forall_nil_2 _) Hs Hne)
        as (st' & Hst' & Hg & Hc).
      exists st'. split; [exact Hst'|]. split; [exact Hg|]. exact Hc. }
    assert (Hfallback : Spec.gave_nothing query primary →
              ∃ st', Async.settled (Editor.handleImageSearch key fetch st) = Some st' ∧
                Editor.galleryImages st' = fallbackUrls ∧
                Async.calls (Editor.handleImageSearch key fetch st) =
                  Async.calls (primary query)).
    { intros Hnothing.
      destruct (Hwin [primary; Editor.searchWithFallback] [primary] Editor.searchWithFallback
                  [] fallbackUrls eq_refl) as (st' & Hst' & Hg & Hc);
        [by constructor|exact Hfb|done|].
      exists st'. split; [exact Hst'|]. split; [exact Hg|].
      unfold Editor.handleImageSearch. fold primary. rewrite Hc.
      cbn [mbind list_bind]. by rewrite !app_nil_r. }
    assert (Hcalls : Async.calls (Editor.handleImageSearch key fetch st) =
                     Async.calls (primary query)).
    { destruct (Async.settled (primary query)) as [[|u imageUrls]|] eqn:Hs.
      - destruct Hfallback as (_ & _ & _ & Hc); [by right|]. exact Hc.
      - destruct (Hprimary (u :: imageUrls) eq_refl) as (_ & _ & _ & Hc); [done|]. exact Hc.
      - destruct Hfallback as (_ & _ & _ & Hc); [by left|]. exact Hc. }
    split; [reflexivity|]. split; [exact Hcalls|].
    split; [apply searchWithSerpApi_url|]. split; [|split].
    + intros imageUrls Hs Hne. destruct (Hprimary imageUrls Hs Hne) as (st' & Hst' & Hg & _).
      by exists st'.
    + intros Hnothing. split; [exact Hfb|]. split; [reflexivity|].
      destruct (Hfallback Hnothing) as (st' & Hst' & Hg & _). by exists st'.
    + rewrite Hcalls. unfold primary. rewrite searchWithSerpApi_url.
      intros Hin. apply list_elem_of_singleton in Hin. discriminate Hin.
Qed.

Lemma image_search_first_nonempty_wins_witness :
  let st := {| Editor.presentation := None; Editor.currentSlideIndex := 0;
               Editor.isLoading := false; Editor.error := None;
               Editor.gallerySearchQuery := "red cats"; Editor.galleryImages := [];
               Editor.isSearching := false |} in
  let offline (_ : string) := Async.NetworkError in
  let answer := VObj (obj [("images_results",
                  VArr [VObj (obj [("thumbnail", VStr "https://img/1")])])]) in
  let online (_ : string) := Async.Response true 200 (Some answer) in
  (∃ st', Async.settled (Editor.handleImageSearch "key" offline st) = Some st' ∧
     Editor.galleryImages st' !! 11 =
       Some (Some (VStr "https://picsum.photos/seed/redcats11/400/300"))) ∧
  (∃ st', Async.settled (Editor.handleImageSearch "key" online st) = Some st' ∧
     Editor.galleryImages st' = [Some (VStr "https://img/1")]).
Proof.
  intros st offline answer online. split.
  - destruct (image_search_first_nonempty_wins
                [Editor.searchWithSerpApi "key" offline; Editor.searchWithFallback] st eq_refl)
      as (Hwin & _ & _).
    destruct (Hwin [Editor.searchWithSerpApi "key" offline] Editor.searchWithFallback []
                ((λ i : nat, Some (VStr ("https://picsum.photos/seed/redcats" +:+ pretty i
                                         +:+ "/400/300"))) <$> seq 0 12)
                eq_refl) as (st' & Hst' & Hg & _);
      [constructor; [by left|constructor]|reflexivity|discriminate|].
    exists st'. split; [exact Hst'|]. rewrite Hg. reflexivity.
  - destruct (image_search_first_nonempty_wins
                [Editor.searchWithSerpApi "key" online; Editor.searchWithFallback] st eq_refl)
      as (_ & _ & Heditor).
    destruct (Heditor "key" online) as (_ & _ & _ & Hprimary & _).
    apply Hprimary; [reflexivity|discriminate].
Defined.

(** C9 as stated fails for a blank query: the primary provider fails and the
    fallback would return its twelve addresses, yet the search returns at
    once, calls no provider, leaves the gallery empty and reports nothing. *)
Lemma blank_query_searches_nothing :
  let st := {| Editor.presentation := None; Editor.currentSlideIndex := 0;
               Editor.isLoading := false; Editor.error := None;
               Editor.gallerySearchQuery := "   "; Editor.galleryImages := [];
               Editor.isSearching := false |} in
  let offline (_ : string) := Async.NetworkError in
  Async.settled (Editor.searchWithSerpApi "key" offline "   ") = None ∧
  (∃ imageUrls, Async.settled (Editor.searchWithFallback "   ") = Some imageUrls ∧
     length imageUrls = 12) ∧
  Async.settled (Editor.handleImageSearch "key" offline st) = Some st ∧
  Editor.galleryImages st = [] ∧
  Async.calls (Editor.handleImageSearch "key" offline st) = [].
Proof.
  intros st offline. split; [reflexivity|]. split; [by eexists|]. done.
Qed.

(** ** The generation pipeline *)

(** C3. When the input required by the chosen content source is absent,
    [handleGenerate] ends with the validation message of that source, hands
    over no presentation, leaves the store alone, and has made no outside
    call at all: no generator call, no fetch, no file read. *)
Theorem validation_precedes_calls (userId : string) (w : Create.World)
    (form : Create.Form) (ls : Api.LocalStorage) :
  Spec.missing_input form = true →
  let outcome := Create.handleGenerate userId w form ls in
  Create.calls outcome = [] ∧
  Create.generated outcome = None ∧
  Create.storage outcome = ls ∧
  Create.error outcome =
    match Create.source form with
    | Create.SourceAi => "Presentation Title is required for AI generation."
    | Create.SourceText => "Please provide content in the text area."
    | Create.SourceFile => "Please upload a file."
    end.
Proof.
  unfold Spec.missing_input, Create.handleGenerate, Create.resolveSource.
  destruct (Create.source form).
  - intros ->. done.
  - intros ->. rewrite andb_false_r. done.
  - destruct (Create.uploadedFile form); [done|]. intros _. rewrite andb_false_r. done.
Qed.

Lemma validation_precedes_calls_witness :
  let form := {| Create.title := "Pasted notes"; Create.source := Create.SourceText;
                 Create.textContent := "   "; Create.uploadedFile := None;
                 Create.numSlides := 7; Create.selectedTheme := "Default";
                 Create.imageSource := Create.ImagesAi |} in
  let w := {| Create.ai := None; Create.fetch := λ _, Async.NetworkError;
              Create.clock := {| Create.slideStarted := λ _, 0%Z; Create.assembled := 0%Z;
                                 Create.assembledIso := "1970-01-01T00:00:00.000Z" |};
              Create.unsplashAccessKey := "access-key" |} in
  let ls := {| Api.items := ∅; Api.writable := true |} in
  Create.calls (Create.handleGenerate "u1" w form ls) = [] ∧
  Create.error (Create.handleGenerate "u1" w form ls) =
    "Please provide content in the text area.".
Proof.
  intros form w ls.
  destruct (validation_precedes_calls "u1" w form ls eq_refl) as (Hc & _ & _ & He).
  split; [exact Hc|exact He].
Defined.

Lemma settled_all_cons {A} (m : Async.t A) ms :
  Async.settled (Async.all (m :: ms)) =
  match Async.settled m, Async.settled (Async.all ms) with
  | Some a, Some l => Some (a :: l)
  | _, _ => None
  end.
Proof. cbn [Async.all]. by destruct (Async.all ms). Qed.

Lemma all_imap_settled {A} (P : nat → value → A → Prop) (f : nat → value → Async.t A) l :
  (∀ i x, l !! i = Some x → ∃ y, Async.settled (f i x) = Some y ∧ P i x y) →
  ∃ ys, Async.settled (Async.all (imap f l)) = Some ys ∧
    length ys = length l ∧
    ∀ i x, l !! i = Some x → ∃ y, ys !! i = Some y ∧ P i x y.
Proof.
  revert P f. induction l as [|x l IH]; intros P f Hf.
  - exists []. split; [done|]. split; [done|]. intros i x Hx. by rewrite lookup_nil in Hx.
  - destruct (Hf 0 x eq_refl) as (y & Hy & HP).
    destruct (IH (λ i, P (S i)) (f ∘ S)) as (ys & Hys & Hlen & Hall).
    { intros i x' Hx'. apply (Hf (S i) x' Hx'). }
    exists (y :: ys). rewrite imap_cons, settled_all_cons, Hy, Hys.
    split; [done|]. split; [by rewrite !length_cons, Hlen|].
    intros [|i] x' Hx'.
    + injection Hx' as <-. eauto.
    + apply (Hall i x' Hx').
Qed.

Lemma member_not_null v k : v ≠ VNull → member v k = Some (prop v k).
Proof. by destruct v. Qed.

Lemma handleGenerate_generated userId w form ls t c newPresentation :
  Spec.missing_input form = false →
  Create.resolveSource form = Create.Content t c →
  Async.settled (Create.assemble userId w form t c) = Some newPresentation →
  Create.generated (Create.handleGenerate userId w form ls) = Some newPresentation ∧
  Create.error (Create.handleGenerate userId w form ls) = "".
Proof.
  intros Hin Hres Hnew. unfold Create.handleGenerate. rewrite Hres.
  assert (Hcheck : negb (nonempty (trim (Create.title form)))
                   && match Create.source form with Create.SourceAi => true | _ => false end
                   = false).
  { unfold Spec.missing_input in Hin. destruct (Create.source form).
    - by rewrite Hin.
    - apply andb_false_r.
    - apply andb_false_r. }
  rewrite Hcheck.
  destruct (Create.assemble userId w form t c) as [tr [np|]] eqn:Ha;
    cbn [Async.settled snd] in Hnew; [|done].
  injection Hnew as ->. done.
Qed.

Lemma settled_assemble userId w form t c text slideContents slides :
  Async.settled c = Some text →
  Async.settled (Create.generateSlideContents w form text) = Some slideContents →
  Async.settled (Async.all (imap (Create.buildSlide w form t) slideContents)) = Some slides →
  ∃ p, Async.settled (Create.assemble userId w form t c) = Some p ∧
       Editor.slides_of p = slides.
Proof.
  intros Hc Hg Hs. unfold Create.assemble.
  rewrite settled_bind, Hc. cbn [mbind option_bind].
  rewrite settled_bind, Hg. cbn [mbind option_bind].
  rewrite settled_bind, Hs. cbn [mbind option_bind].
  eexists. split; [reflexivity|]. unfold Editor.slides_of. by rewrite prop_obj.
Qed.

Lemma buildSlide_no_images w form t index content :
  Create.imageSource form = Create.ImagesNone → content ≠ VNull →
  Async.settled (Create.buildSlide w form t index content) =
  Some (VObj (obj
    [("id", VStr (pretty (Create.slideStarted (Create.clock w) index) +:+ "-" +:+ pretty index));
     ("title", js_or (prop content "title") (VStr "Untitled Slide"));
     ("content", js_or (prop content "content") (VArr []));
     ("background", VObj (obj [("type", VStr "color"); ("value", VStr "#FFFFFF")]));
     ("titleStyle", VObj Create.defaultTitleStyle);
     ("contentStyle", VObj Create.defaultContentStyle)])).
Proof.
  intros Hm Hc. unfold Create.buildSlide. rewrite Hm, settled_bind.
  cbn [Async.settled Async.ret snd mbind option_bind].
  by rewrite !member_not_null.
Qed.

(** C4, as the code has it.  With image mode 'none', one slide is built per
    entry of the sequence the generator returned, in that order, with the
    title and the content of the entry (or their defaults), and every
    background is the colour "#FFFFFF", written in upper case. *)
Theorem generation_keeps_order (userId : string) (w : Create.World) (form : Create.Form)
    (ls : Api.LocalStorage) (t : string) (c : Async.t string) (text : string)
    (pairs : list value) :
  Create.imageSource form = Create.ImagesNone →
  Spec.missing_input form = false →
  Create.resolveSource form = Create.Content t c →
  Async.settled c = Some text →
  Async.settled (Create.generateSlideContents w form text) = Some pairs →
  Forall (λ pair, pair ≠ VNull) pairs →
  ∃ p, Create.generated (Create.handleGenerate userId w form ls) = Some p ∧
    length (Editor.slides_of p) = length pairs ∧
    ∀ i pair, pairs !! i = Some pair →
      ∃ slide, Editor.slides_of p !! i = Some slide ∧
        prop slide "title" = Some (js_or (prop pair "title") (VStr "Untitled Slide")) ∧
        prop slide "content" = Some (js_or (prop pair "content") (VArr [])) ∧
        prop slide "background" =
          Some (VObj (obj [("type", VStr "color"); ("value", VStr "#FFFFFF")])).
Proof.
  intros Hm Hin Hres Hc Hg Hpairs.
  destruct (all_imap_settled
    (λ _ pair slide,
       prop slide "title" = Some (js_or (prop pair "title") (VStr "Untitled Slide")) ∧
       prop slide "content" = Some (js_or (prop pair "content") (VArr [])) ∧
       prop slide "background" =
         Some (VObj (obj [("type", VStr "color"); ("value", VStr "#FFFFFF")])))
    (Create.buildSlide w form t) pairs) as (slides & Hs & Hlen & Hall).
  { intros i pair Hi. eexists. split.
    - apply buildSlide_no_images; [done|].
      rewrite Forall_forall in Hpairs. apply Hpairs. by eapply list_elem_of_lookup_2.
    - by rewrite !prop_obj. }
  destruct (settled_assemble userId w form t c text pairs slides Hc Hg Hs) as (p & Hp & Hsl).
  destruct (handleGenerate_generated userId w form ls t c p Hin Hres Hp) as [Hgen _].
  exists p. rewrite Hsl. done.
Qed.

Lemma generation_keeps_order_witness :
  let outcome := Create.handleGenerate "u1" (Sample.answering (Gemini.Parsed (VArr Sample.twoPairs)))
                   (Sample.directForm 2) Sample.emptyStore in
  ∃ p, Create.generated outcome = Some p ∧
    (Editor.slides_of p !! 1 ≫= λ slide, prop slide "title") = Some (VStr "B").
Proof.
  intros outcome.
  destruct (generation_keeps_order "u1" (Sample.answering (Gemini.Parsed (VArr Sample.twoPairs)))
              (Sample.directForm 2) Sample.emptyStore "Solar power"
              (Async.ret "Solar power") "Solar power" Sample.twoPairs)
    as (p & Hp & _ & Hall);
    [reflexivity|reflexivity|reflexivity|reflexivity|reflexivity|
     repeat constructor; discriminate|].
  exists p. split; [exact Hp|].
  destruct (Hall 1 _ eq_refl) as (slide & Hs & Ht & _).
  rewrite Hs. cbn [mbind option_bind]. rewrite Ht. reflexivity.
Defined.

(** C4 as stated fails on the colour: the background of a generated slide
    is not [{type: 'color', value: '#ffffff'}]. *)
Lemma generated_background_is_not_lowercase :
  let outcome := Create.handleGenerate "u1" (Sample.answering (Gemini.Parsed (VArr Sample.twoPairs)))
                   (Sample.directForm 2) Sample.emptyStore in
  ∃ p slide, Create.generated outcome = Some p ∧
    length (Editor.slides_of p) = 2 ∧
    Editor.slides_of p !! 0 = Some slide ∧
    prop slide "background" ≠
      Some (VObj (obj [("type", VStr "color"); ("value", VStr "#ffffff")])).
Proof.
  intros outcome.
  destruct (Create.generated outcome) as [p|] eqn:Hp; [|by vm_compute in Hp].
  destruct (Editor.slides_of p !! 0) as [slide|] eqn:Hs.
  - exists p, slide. split; [done|].
    assert (Hq : Create.generated outcome ≫= (λ p, Some (length (Editor.slides_of p))) = Some 2)
      by (vm_compute; reflexivity).
    rewrite Hp in Hq. injection Hq as Hq. split; [done|]. split; [done|].
    assert (Hv : (Create.generated outcome ≫= λ p, Editor.slides_of p !! 0 ≫= λ slide,
                    prop slide "background" ≫= λ b, prop b "value")
                 = Some (VStr "#FFFFFF")) by (vm_compute; reflexivity).
    rewrite Hp in Hv. cbn [mbind option_bind] in Hv. rewrite Hs in Hv.
    cbn [mbind option_bind] in Hv. intros Hb. rewrite Hb in Hv. vm_compute in Hv.
    discriminate Hv.
  - assert (Hq : (Create.generated outcome ≫= λ p, Editor.slides_of p !! 0) ≠ None)
      by (vm_compute; discriminate).
    rewrite Hp in Hq. cbn [mbind option_bind] in Hq. done.
Qed.

Lemma generateSlideContents_fallback w form text :
  Spec.call_fails w (Spec.request_of form text) →
  Async.settled (Create.generateSlideContents w form text) =
  Some (Spec.fallback_slides form text).
Proof.
  unfold Spec.call_fails, Spec.request_of, Spec.fallback_slides,
    Create.generateSlideContents.
  intros Hfail.
  destruct (Create.source form);
    unfold Gemini.generatePresentationSlides, Gemini.generateSlidesFromText,
      Gemini.askForSlides;
    (destruct (Create.ai w) as [client|]; [|done]);
    by destruct (Hfail client eq_refl) as [-> | ->].
Qed.

Lemma length_from_two (n : Z) : (1 ≤ n)%Z → Z.of_nat (S (length (Gemini.from_two n))) = n.
Proof. intros Hn. unfold Gemini.from_two. rewrite length_seqZ. lia. Qed.

Lemma fallback_slides_length form text :
  (1 ≤ Create.numSlides form)%Z →
  Z.of_nat (length (Spec.fallback_slides form text)) = Create.numSlides form.
Proof.
  intros Hn. unfold Spec.fallback_slides, Gemini.getMockSlides, Gemini.getMockSlidesFromText.
  destruct (Create.source form); rewrite length_cons, length_fmap; by apply length_from_two.
Qed.

Lemma fallback_slides_proper form text :
  Forall Spec.proper_pair (Spec.fallback_slides form text).
Proof.
  unfold Spec.fallback_slides, Gemini.getMockSlides, Gemini.getMockSlidesFromText.
  destruct (Create.source form); constructor;
    try (eexists _, _; split; [by rewrite prop_obj|split; [done|by rewrite prop_obj]]);
    apply Forall_fmap, Forall_forall; intros i _;
    (eexists _, _; split; [by rewrite prop_obj|split; [done|by rewrite prop_obj]]).
Qed.

Lemma generateImage_of_text ai prompt :
  ∃ url, Async.settled (Gemini.generateImage ai (VStr prompt)) = Some url.
Proof.
  unfold Gemini.generateImage. destruct ai as [client|]; [|by eexists].
  cbn [Async.bind Async.emit]. destruct (Gemini.generateImages client (VStr prompt));
    by eexists.
Qed.

Lemma buildSlide_titled w form presentationTitle index content t :
  Create.imageSource form ≠ Create.ImagesGoogle →
  prop content "title" = Some (VStr t) → t ≠ "" →
  ∃ slide, Async.settled (Create.buildSlide w form presentationTitle index content) = Some slide ∧
    prop slide "title" = Some (VStr t) ∧
    prop slide "content" = Some (js_or (prop content "content") (VArr [])).
Proof.
  intros Hmode Ht Hne.
  assert (Hc : content ≠ VNull) by by intros ->.
  assert (Htt : truthy (VStr t) = true) by (cbn; by apply negb_true_iff, String.eqb_neq).
  destruct (Create.imageSource form) eqn:Hm; [|done|].
  - unfold Create.buildSlide. rewrite Hm, !member_not_null, Ht by done.
    rewrite (js_or_kept _ _ Htt).
    destruct (generateImage_of_text (Create.ai w) t) as [url Hurl].
    rewrite !settled_bind, Hurl. cbn [mbind option_bind Async.settled Async.ret snd].
    eexists. split; [done|]. by rewrite !prop_obj, (js_or_kept _ _ Htt).
  - eexists. split; [by apply buildSlide_no_images|].
    by rewrite !prop_obj, Ht, (js_or_kept _ _ Htt).
Qed.

Lemma generateSlideContents_parsed w form text client v :
  Create.ai w = Some client →
  Gemini.generateContent client (Spec.request_of form text) = Gemini.Parsed v →
  Async.settled (Create.generateSlideContents w form text) = Some (array_or_empty (Some v)).
Proof.
  unfold Spec.request_of, Create.generateSlideContents. intros Hai Hreply.
  destruct (Create.source form);
    unfold Gemini.generatePresentationSlides, Gemini.generateSlidesFromText,
      Gemini.askForSlides;
    rewrite Hai, Hreply; by destruct v.
Qed.

Lemma settled_all_rejects {A} (ms : list (Async.t A)) m :
  m ∈ ms → Async.settled m = None → Async.settled (Async.all ms) = None.
Proof.
  intros Hin Hm. revert Hin. induction ms as [|m' ms IH]; intros Hin.
  - by apply elem_of_nil in Hin.
  - rewrite settled_all_cons. apply elem_of_cons in Hin as [<-|Hin]; [by rewrite Hm|].
    rewrite (IH Hin). by destruct (Async.settled m').
Qed.

Lemma buildSlide_null w form t index :
  Async.settled (Create.buildSlide w form t index VNull) = None.
Proof.
  unfold Create.buildSlide. rewrite settled_bind.
  by destruct (Create.imageSource form).
Qed.

Lemma assemble_rejected userId w form t c text slideContents :
  Async.settled c = Some text →
  Async.settled (Create.generateSlideContents w form text) = Some slideContents →
  Async.settled (Async.all (imap (Create.buildSlide w form t) slideContents)) = None →
  Async.settled (Create.assemble userId w form t c) = None.
Proof.
  intros Hc Hg Hs. unfold Create.assemble.
  rewrite settled_bind, Hc. cbn [mbind option_bind].
  rewrite settled_bind, Hg. cbn [mbind option_bind].
  by rewrite settled_bind, Hs.
Qed.

Lemma handleGenerate_rejected userId w form ls t c :
  Spec.missing_input form = false →
  Create.resolveSource form = Create.Content t c →
  Async.settled (Create.assemble userId w form t c) = None →
  Create.generated (Create.handleGenerate userId w form ls) = None ∧
  Create.error (Create.handleGenerate userId w form ls) =
    "Failed to generate presentation. Please try again." ∧
  Create.storage (Create.handleGenerate userId w form ls) = ls.
Proof.
  intros Hin Hres Hnone. unfold Create.handleGenerate. rewrite Hres.
  assert (Hcheck : negb (nonempty (trim (Create.title form)))
                   && match Create.source form with Create.SourceAi => true | _ => false end
                   = false).
  { unfold Spec.missing_input in Hin. destruct (Create.source form).
    - by rewrite Hin.
    - apply andb_false_r.
    - apply andb_false_r. }
  rewrite Hcheck.
  destruct (Create.assemble userId w form t c) as [tr [np|]] eqn:Ha;
    cbn [Async.settled snd] in Hnone; done.
Qed.

(** C2, as the code has it.  When the generator call fails (it rejects, its
    answer is not JSON, or no client is configured), the pipeline goes on
    with the local fallback generator: for a slide count of at least one and
    image mode 'none' or 'ai' it hands over a presentation with exactly that
    many slides, each carrying the non-empty title of the fallback slide at
    its position.  An answer that parses is never replaced by the fallback.
    When it is not an array, the presentation handed over has no slides.
    When it is an array with a [null] entry, the run ends with the general
    failure message, hands over nothing and saves nothing.  When it is an
    array without [null] entries and no images are asked for, every entry
    becomes one slide, in order, with the entry's title or "Untitled Slide"
    and the entry's content or the empty list, so that the number of slides
    is the length of the array, whatever the slide count asked for. *)
Theorem generator_failure_falls_back (userId : string) (w : Create.World)
    (form : Create.Form) (ls : Api.LocalStorage) (t : string) (c : Async.t string)
    (text : string) :
  Spec.missing_input form = false →
  Create.resolveSource form = Create.Content t c →
  Async.settled c = Some text →
  let outcome := Create.handleGenerate userId w form ls in
  ((1 ≤ Create.numSlides form)%Z →
   Create.imageSource form ≠ Create.ImagesGoogle →
   Spec.call_fails w (Spec.request_of form text) →
   ∃ p, Create.generated outcome = Some p ∧
     Create.error outcome = "" ∧
     Z.of_nat (length (Editor.slides_of p)) = Create.numSlides form ∧
     Forall Spec.titled (Editor.slides_of p) ∧
     ∀ i pair, Spec.fallback_slides form text !! i = Some pair →
       ∃ slide, Editor.slides_of p !! i = Some slide ∧
         prop slide "title" = prop pair "title" ∧
         prop slide "content" = prop pair "content") ∧
  (∀ client v, Create.ai w = Some client →
     Gemini.generateContent client (Spec.request_of form text) = Gemini.Parsed v →
     isArray (Some v) = false →
     ∃ p, Create.generated outcome = Some p ∧ Create.error outcome = "" ∧
       Editor.slides_of p = []) ∧
  (∀ client pairs, Create.ai w = Some client →
     Gemini.generateContent client (Spec.request_of form text) = Gemini.Parsed (VArr pairs) →
     VNull ∈ pairs →
     Create.generated outcome = None ∧
     Create.error outcome = "Failed to generate presentation. Please try again." ∧
     Create.storage outcome = ls) ∧
  (∀ client pairs, Create.ai w = Some client →
     Gemini.generateContent client (Spec.request_of form text) = Gemini.Parsed (VArr pairs) →
     Forall (λ pair, pair ≠ VNull) pairs →
     Create.imageSource form = Create.ImagesNone →
     ∃ p, Create.generated outcome = Some p ∧ Create.error outcome = "" ∧
       length (Editor.slides_of p) = length pairs ∧
       ∀ i pair, pairs !! i = Some pair →
         ∃ slide, Editor.slides_of p !! i = Some slide ∧
           prop slide "title" = Some (js_or (prop pair "title") (VStr "Untitled Slide")) ∧
           prop slide "content" = Some (js_or (prop pair "content") (VArr []))).
Proof.
  intros Hin Hres Hc outcome. subst outcome.
  split; [|split; [|split]].
  - intros Hn Hmode Hfail.
    pose proof (generateSlideContents_fallback w form text Hfail) as Hg.
    destruct (all_imap_settled
      (λ _ pair slide, prop slide "title" = prop pair "title" ∧
                       prop slide "content" = prop pair "content" ∧ Spec.titled slide)
      (Create.buildSlide w form t) (Spec.fallback_slides form text))
      as (slides & Hs & Hlen & Hall).
    { intros i pair Hi.
      pose proof (fallback_slides_proper form text) as Hall.
      rewrite Forall_lookup in Hall.
      destruct (Hall i pair Hi) as (tt & body & Htt & Hne & Hbody).
      destruct (buildSlide_titled w form t i pair tt Hmode Htt Hne) as (slide & Hb & Hst & Hsc).
      exists slide. split; [done|]. split; [congruence|].
      split; [by rewrite Hsc, Hbody|]. by exists tt. }
    destruct (settled_assemble userId w form t c text _ slides Hc Hg Hs) as (p & Hp & Hsl).
    destruct (handleGenerate_generated userId w form ls t c p Hin Hres Hp) as [Hgen Herr].
    exists p. rewrite Hsl. split; [done|]. split; [done|].
    split; [by rewrite Hlen; apply fallback_slides_length|]. split.
    + apply Forall_lookup. intros i slide Hi.
      destruct (lookup_lt_is_Some_2 (Spec.fallback_slides form text) i) as [pair Hpair].
      { rewrite <-Hlen. by eapply lookup_lt_Some. }
      destruct (Hall i pair Hpair) as (slide' & Hi' & _ & _ & Ht). congruence.
    + intros i pair Hpair. destruct (Hall i pair Hpair) as (slide & Hi & Ht & Hc' & _). eauto.
  - intros client v Hai Hreply Hv.
    pose proof (generateSlideContents_parsed w form text client v Hai Hreply) as Hg.
    assert (Hempty : array_or_empty (Some v) = []) by by destruct v.
    rewrite Hempty in Hg.
    destruct (settled_assemble userId w form t c text [] [] Hc Hg eq_refl) as (p & Hp & Hsl).
    destruct (handleGenerate_generated userId w form ls t c p Hin Hres Hp) as [Hgen Herr].
    by exists p.
  - intros client pairs Hai Hreply Hnull.
    pose proof (generateSlideContents_parsed w form text client _ Hai Hreply) as Hg.
    cbn [array_or_empty] in Hg.
    apply (handleGenerate_rejected userId w form ls t c Hin Hres).
    apply (assemble_rejected userId w form t c text pairs Hc Hg).
    apply list_elem_of_lookup in Hnull as [i Hi].
    apply (settled_all_rejects _ (Create.buildSlide w form t i VNull)).
    + by apply (elem_of_lookup_imap_2 (Create.buildSlide w form t) pairs VNull i).
    + apply buildSlide_null.
  - intros client pairs Hai Hreply Hpairs Hm.
    pose proof (generateSlideContents_parsed w form text client _ Hai Hreply) as Hg.
    cbn [array_or_empty] in Hg.
    destruct (all_imap_settled
      (λ _ pair slide,
         prop slide "title" = Some (js_or (prop pair "title") (VStr "Untitled Slide")) ∧
         prop slide "content" = Some (js_or (prop pair "content") (VArr [])))
      (Create.buildSlide w form t) pairs) as (slides & Hs & Hlen & Hall).
    { intros i pair Hi. eexists. split.
      - apply buildSlide_no_images; [done|].
        rewrite Forall_forall in Hpairs. apply Hpairs. by eapply list_elem_of_lookup_2.
      - by rewrite !prop_obj. }
    destruct (settled_assemble userId w form t c text pairs slides Hc Hg Hs) as (p & Hp & Hsl).
    destruct (handleGenerate_generated userId w form ls t c p Hin Hres Hp) as [Hgen Herr].
    exists p. rewrite Hsl. done.
Qed.

Lemma generator_failure_falls_back_witness :
  let outcome := Create.handleGenerate "u1" (Sample.answering Gemini.Rejected)
                   (Sample.directForm 5) Sample.emptyStore in
  ∃ p, Create.generated outcome = Some p ∧
    length (Editor.slides_of p) = 5 ∧
    (Editor.slides_of p !! 4 ≫= λ slide, prop slide "title")
      = Some (VStr "Topic 4 of Solar power").
Proof.
  intros outcome.
  destruct (generator_failure_falls_back "u1" (Sample.answering Gemini.Rejected)
              (Sample.directForm 5) Sample.emptyStore "Solar power"
              (Async.ret "Solar power") "Solar power")
    as (Hfallback & _); [reflexivity|reflexivity|reflexivity|].
  destruct Hfallback as (p & Hp & _ & Hlen & _ & Hall);
    [vm_compute; discriminate|discriminate|intros client [= <-]; by left|].
  exists p. split; [exact Hp|]. split; [cbn [Create.numSlides Sample.directForm] in Hlen; lia|].
  destruct (Hall 4 _ eq_refl) as (slide & Hs & Ht & _).
  rewrite Hs. cbn [mbind option_bind]. rewrite Ht. reflexivity.
Defined.

(** C2 as stated fails on malformed data: an answer that parses to something
    other than a list is not replaced by the fallback, and the presentation
    handed over has no slide instead of the five asked for. *)
Lemma malformed_answer_gives_no_slides :
  let outcome := Create.handleGenerate "u1"
                   (Sample.answering (Gemini.Parsed Sample.errorDocument))
                   (Sample.directForm 5) Sample.emptyStore in
  Spec.generator_failed (Gemini.Parsed Sample.errorDocument) = true ∧
  (∃ p, Create.generated outcome = Some p ∧ Editor.slides_of p = []) ∧
  ¬ ∃ p, Create.generated outcome = Some p ∧ Z.of_nat (length (Editor.slides_of p)) = 5%Z.
Proof.
  intros outcome.
  assert (Hq : (Create.generated outcome ≫= λ p, Some (Editor.slides_of p)) = Some [])
    by (vm_compute; reflexivity).
  split; [reflexivity|]. split.
  - destruct (Create.generated outcome) as [p|]; [|done].
    exists p. split; [done|]. cbn [mbind option_bind] in Hq. congruence.
  - intros (p & Hp & Hlen). rewrite Hp in Hq. cbn [mbind option_bind] in Hq.
    injection Hq as Hq. rewrite Hq in Hlen. done.
Qed.

(** The restriction on the image mode is needed: with the photo search as
    image source and the network down, the run ends with the general error
    message and no presentation, fallback slides or not. *)
Lemma photo_search_offline_aborts :
  let form := {| Create.title := "Solar power"; Create.source := Create.SourceAi;
                 Create.textContent := ""; Create.uploadedFile := None;
                 Create.numSlides := 5; Create.selectedTheme := "Default";
                 Create.imageSource := Create.ImagesGoogle |} in
  let outcome := Create.handleGenerate "u1" (Sample.answering Gemini.Rejected) form
                   Sample.emptyStore in
  Create.generated outcome = None ∧
  Create.error outcome = "Failed to generate presentation. Please try again." ∧
  length (Create.calls outcome) = 6.
Proof. vm_compute. done. Qed.

(** * Further properties of the code *)

(** ** Valid slides and the cleaning *)

Lemma default_style_keys (D : gmap string value) k v :
  D = Editor.defaultTitleStyle ∨ D = Editor.defaultContentStyle →
  D !! k = Some v →
  k ∈ ["fontSize"; "fontFamily"; "color"; "bold"; "italic"; "underline"].
Proof.
  intros [-> | ->]; unfold Editor.defaultTitleStyle, Editor.defaultContentStyle;
    rewrite obj_lookup; cbn [List.find fst];
    repeat match goal with
           | |- context [String.eqb ?a k] =>
               destruct (String.eqb_spec a k) as [<-|_]; [intros _; set_solver|]
           end;
    done.
Qed.

Lemma default_style_has (D : gmap string value) k :
  D = Editor.defaultTitleStyle ∨ D = Editor.defaultContentStyle →
  k ∈ ["fontSize"; "fontFamily"; "color"; "bold"; "italic"; "underline"] →
  is_Some (D !! k).
Proof.
  intros HD Hk. repeat (apply elem_of_cons in Hk as [->|Hk]);
    [destruct HD as [-> | ->]; by eexists..|]. by apply elem_of_nil in Hk.
Qed.

Lemma full_style_merged (D X : gmap string value) :
  D = Editor.defaultTitleStyle ∨ D = Editor.defaultContentStyle →
  Spec.full_style (VObj (spread2 D X)).
Proof.
  intros HD. eexists. split; [done|]. intros k Hk. unfold spread2.
  apply lookup_union_is_Some. right. by apply default_style_has.
Qed.

Lemma full_style_absorbs (D o : gmap string value) :
  D = Editor.defaultTitleStyle ∨ D = Editor.defaultContentStyle →
  Spec.full_style (VObj o) → spread2 D o = o.
Proof.
  intros HD (o' & [= <-] & Hfull). unfold spread2. apply map_eq. intros k.
  rewrite lookup_union. destruct (o !! k) as [x|] eqn:Hx.
  - by destruct (D !! k).
  - destruct (D !! k) as [v|] eqn:Hv; [|done].
    destruct (Hfull k (default_style_keys D k v HD Hv)) as [y Hy]. congruence.
Qed.

Lemma strict_eq_text (x : option value) (t : string) :
  strict_eq x (Some (VStr t)) = true ↔ x = Some (VStr t).
Proof.
  destruct x as [[| | |s| |]|]; cbn [strict_eq]; try (split; [done|discriminate]).
  rewrite String.eqb_eq. split; [by intros ->|by intros [= ->]].
Qed.

Lemma ensureBackgroundProps_other o t :
  o !! "type" = Some (VStr t) → t ≠ "image" → t ≠ "gradient" →
  Editor.ensureBackgroundProps (VObj o) = VObj o.
Proof.
  intros Ht Hi Hg. unfold Editor.ensureBackgroundProps. cbn [prop]. rewrite Ht.
  cbn [strict_eq]. apply String.eqb_neq in Hi, Hg. by rewrite Hi, Hg.
Qed.

Lemma ensureBackgroundProps_valid o t :
  o !! "type" = Some (VStr t) →
  Spec.valid_background (Editor.ensureBackgroundProps (VObj o)).
Proof.
  intros Ht. destruct (decide (t = "image")) as [->|Hi];
    [|destruct (decide (t = "gradient")) as [->|Hg]].
  - rewrite ensureBackgroundProps_image by done.
    eexists _, "image". split; [done|]. split; [by lookup_simpl|].
    split; [|done]. intros _. lookup_simpl.
    split; (rewrite nullish_kept; [|apply nullish_not_null; done]);
      by apply nullish_not_null.
  - rewrite ensureBackgroundProps_gradient by done.
    eexists _, "gradient". split; [done|]. split; [by lookup_simpl|].
    split; [done|]. intros _. lookup_simpl.
    repeat split; (rewrite js_or_kept; by apply js_or_truthy).
  - rewrite (ensureBackgroundProps_other o t) by done.
    eexists _, t. by repeat split.
Qed.

Lemma valid_background_fixed b :
  Spec.valid_background b →
  truthy b && typeof_string (prop b "type") = true ∧ Editor.ensureBackgroundProps b = b.
Proof.
  intros (o & t & -> & Ht & Himg & Hgrad). cbn [prop truthy]. rewrite Ht.
  split; [done|].
  destruct (decide (t = "image")) as [->|Hi];
    [|destruct (decide (t = "gradient")) as [->|Hg]].
  - destruct (Himg eq_refl) as [Ho Hb].
    rewrite ensureBackgroundProps_image by done. f_equal.
    destruct (o !! "opacity") as [x|] eqn:Hx; [|done].
    destruct (o !! "blur") as [y|] eqn:Hy; [|done].
    rewrite !nullish_kept by (by destruct x, y).
    by rewrite !insert_id by by lookup_simpl.
  - destruct (Hgrad eq_refl) as (H1 & H2 & H3).
    rewrite ensureBackgroundProps_gradient by done. f_equal.
    destruct (o !! "color1") as [x|] eqn:Hx; [|done].
    destruct (o !! "color2") as [y|] eqn:Hy; [|done].
    destruct (o !! "angle") as [z|] eqn:Hz; [|done].
    cbn [js_or] in *. destruct (truthy x), (truthy y), (truthy z); try done.
    by rewrite !insert_id by by lookup_simpl.
  - by apply (ensureBackgroundProps_other o t).
Qed.

Lemma cleanSlide_valid now index slide : Spec.valid_slide (Editor.cleanSlide now index slide).
Proof.
  unfold Editor.cleanSlide. eexists _, _, _, _, _, _. split; [reflexivity|].
  split; [apply js_or_truthy, synthesized_id_truthy|].
  split; [by apply js_or_truthy|].
  split; [|split; apply full_style_merged; auto].
  destruct (prop slide "background") as [b|]; [|by apply (ensureBackgroundProps_valid _ "color")].
  destruct (truthy b && typeof_string (prop b "type")) eqn:Hb;
    [|by apply (ensureBackgroundProps_valid _ "color")].
  destruct b as [| | | | |o];
    try (cbn [prop typeof_string] in Hb; rewrite andb_false_r in Hb; done).
  cbn [prop truthy andb] in Hb.
  destruct (o !! "type") as [[| | |t| |]|] eqn:Ht; try done.
  by apply (ensureBackgroundProps_valid o t).
Qed.

Lemma cleanSlide_fixes_valid now index slide :
  Spec.valid_slide slide → Editor.cleanSlide now index slide = slide.
Proof.
  intros (id & title & content & b & ts & cs & -> & Hid & Ht & Hb & Hts & Hcs).
  unfold Editor.cleanSlide. rewrite !prop_obj.
  cbn [List.find fst snd String.eqb Ascii.eqb Bool.eqb fmap option_fmap option_map].
  destruct (valid_background_fixed b Hb) as [-> ->].
  rewrite (js_or_kept id), (js_or_kept title) by done.
  pose proof Hts as (ots & -> & _). pose proof Hcs as (ocs & -> & _).
  rewrite !(js_or_kept (VObj _)) by done. cbn [array_or_empty own_props].
  by rewrite !full_style_absorbs by auto.
Qed.

(** X1. The valid slides are exactly the slides the cleaning leaves alone:
    every cleaned slide is valid, and a valid slide comes out unchanged,
    whatever the clock and the index. *)
Theorem valid_slide_iff_fixed (now : Z) (index : nat) (slide : value) :
  Spec.valid_slide (Editor.cleanSlide now index slide) ∧
  (Spec.valid_slide slide ↔ Editor.cleanSlide now index slide = slide).
Proof.
  split; [apply cleanSlide_valid|]. split; [apply cleanSlide_fixes_valid|].
  intros <-. apply cleanSlide_valid.
Qed.

Lemma normalize_slides_valid clock data p :
  Editor.normalize clock data = Some p → Forall Spec.valid_slide (Editor.slides_of p).
Proof.
  unfold Editor.normalize. destruct (truthy data); [|done]. intros [= <-].
  unfold Editor.slides_of. cbn [prop]. rewrite lookup_insert_eq. cbn [array_or_empty].
  unfold Editor.cleanedSlides. apply Forall_lookup. intros i s. rewrite list_lookup_imap.
  destruct (_ !! i); [|done]. intros [= <-]. apply cleanSlide_valid.
Qed.

(** X2. Loading changes nothing but the slides: the presentation keeps every
    other field of the record, has as many slides as the record had, each of
    them valid, and the slides that were valid already are kept as they
    were. *)
Theorem normalize_shape (clock : nat → Z) (data p : value) :
  Editor.normalize clock data = Some p →
  Forall Spec.valid_slide (Editor.slides_of p) ∧
  length (Editor.slides_of p) = length (array_or_empty (prop data "slides")) ∧
  (∀ k, k ≠ "slides" → prop p k = own_props data !! k) ∧
  (∀ i slide, array_or_empty (prop data "slides") !! i = Some slide →
     Spec.valid_slide slide → Editor.slides_of p !! i = Some slide).
Proof.
  unfold Editor.normalize. destruct (truthy data); [|done]. intros [= <-].
  unfold Editor.slides_of. cbn [prop]. rewrite lookup_insert_eq. cbn [array_or_empty].
  unfold Editor.cleanedSlides. split; [|split; [|split]].
  - apply Forall_lookup. intros i s. rewrite list_lookup_imap.
    destruct (_ !! i); [|done]. intros [= <-]. apply cleanSlide_valid.
  - by rewrite length_imap.
  - intros k Hk. by rewrite lookup_insert_ne.
  - intros i slide Hi Hv. rewrite list_lookup_imap, Hi. cbn. f_equal.
    by apply cleanSlide_fixes_valid.
Qed.

Lemma normalize_shape_witness :
  let slide := VObj (obj [("title", VStr "Only a title")]) in
  let data := VObj (obj [("id", VStr "p1"); ("title", VStr "Deck"); ("slides", VArr [slide])]) in
  ∃ p, Editor.normalize (λ _, 7%Z) data = Some p ∧
    length (Editor.slides_of p) = 1 ∧ prop p "title" = Some (VStr "Deck").
Proof.
  intros slide data. eexists. split; [reflexivity|].
  destruct (normalize_shape (λ _, 7%Z) data _ eq_refl) as (_ & Hlen & Hk & _).
  split; [exact Hlen|]. rewrite Hk by discriminate. reflexivity.
Defined.

(** ** Loading and saving from the editor *)

Lemma getPresentation_cases id ls :
  Api.getPresentation id ls = VNull ∨
  ∃ q, Api.getPresentation id ls = q ∧ Api.cleanEntry q = Some q ∧
       prop q "id" = Some (VStr id).
Proof.
  unfold Api.getPresentation.
  destruct (List.find _ (Api._getAndCleanPresentations ls)) as [q|] eqn:Hf; [right|by left].
  apply List.find_some in Hf as [Hin Hid].
  pose proof (cleaned_all_fixed ls) as Hall. rewrite Forall_forall in Hall.
  apply list_elem_of_In, Hall in Hin.
  exists q. split; [|split; [done|by apply strict_eq_text]].
  apply js_or_kept. by destruct (cleanEntry_Some q q Hin) as (? & _ & _ & ->).
Qed.

Lemma getPresentation_after_save p q id ls :
  prop p "id" = Some (VStr id) → Api.cleanEntry p = Some q → Api.writable ls = true →
  Api.getPresentation id (Api.savePresentation p ls).1 = q.
Proof.
  intros Hid Hq Hw. unfold Api.savePresentation. cbn [fst].
  destruct (Api.setItem _ _ ls) as [ls1|] eqn:Hset;
    [|unfold Api.setItem in Hset; by rewrite Hw in Hset].
  unfold Api.getPresentation. rewrite (cleaned_after_setItem _ _ _ Hset), Hid.
  rewrite (find_after_upsert id p q _ Hq).
  - apply js_or_kept. by destruct (cleanEntry_Some p q Hq) as (? & _ & _ & ->).
  - unfold Spec.has_id. rewrite Hid. cbn [strict_eq]. apply String.eqb_refl.
Qed.

Lemma record_with_slides a b c d e f cs :
  <["slides" := VArr cs]>
    (obj [("id", a); ("userId", b); ("title", c); ("slides", d); ("theme", e);
          ("createdAt", f)]) =
  obj [("id", a); ("userId", b); ("title", c); ("slides", VArr cs); ("theme", e);
       ("createdAt", f)].
Proof.
  unfold obj. cbn [list_to_map foldr]. apply map_eq. intros k.
  rewrite !lookup_insert. repeat case_decide; simplify_eq; done.
Qed.

Lemma normalize_record_fixed clock q :
  Api.cleanEntry q = Some q →
  ∃ p, Editor.normalize clock q = Some p ∧ Api.cleanEntry p = Some p ∧
       prop p "id" = prop q "id".
Proof.
  intros Hq. pose proof (cleanEntry_Some q q Hq) as (id & Hid & Ht & Heq).
  pose proof (js_or_truthy (prop q "userId") (VStr "unknown_user") eq_refl) as Hu.
  pose proof (js_or_truthy (prop q "title") (VStr "Untitled Presentation") eq_refl) as Hti.
  pose proof (js_or_truthy (prop q "theme") (VStr "Default") eq_refl) as Hth.
  pose proof (js_or_truthy (prop q "createdAt") (VStr "1970-01-01T00:00:00.000Z") eq_refl)
    as Hc.
  revert Heq Hu Hti Hth Hc.
  generalize (js_or (prop q "userId") (VStr "unknown_user")) as u.
  generalize (js_or (prop q "title") (VStr "Untitled Presentation")) as t.
  generalize (js_or (prop q "theme") (VStr "Default")) as th.
  generalize (js_or (prop q "createdAt") (VStr "1970-01-01T00:00:00.000Z")) as c.
  generalize (array_or_empty (prop q "slides")) as sl.
  intros sl c th t u -> Hu Hti Hth Hc. clear Hq Hid.
  unfold Editor.normalize. cbn [truthy own_props]. eexists. split; [reflexivity|].
  rewrite record_with_slides. split; [|by rewrite !prop_obj].
  unfold Api.cleanEntry. rewrite !prop_obj.
  cbn [List.find fst snd String.eqb Ascii.eqb Bool.eqb fmap option_fmap option_map].
  rewrite Ht, !js_or_kept by done. done.
Qed.

(** X3. Opening the editor on an id either finds nothing, and then reports
    "Presentation not found." and keeps the presentation it had, or loads a
    presentation with that id whose slides are all valid; in both cases the
    loading flag is cleared and the cursor is on the first slide. *)
Theorem mountEffect_outcome (clock : nat → Z) (id : string) (ls : Api.LocalStorage)
    (st : Editor.State) :
  let st' := Editor.mountEffect clock id ls st in
  Editor.isLoading st' = false ∧ Editor.currentSlideIndex st' = 0 ∧
  ((Api.getPresentation id ls = VNull ∧
    Editor.error st' = Some "Presentation not found." ∧
    Editor.presentation st' = Editor.presentation st) ∨
   (∃ p, Editor.presentation st' = Some p ∧ Editor.error st' = None ∧
      prop p "id" = Some (VStr id) ∧ Forall Spec.valid_slide (Editor.slides_of p))).
Proof.
  intros st'. subst st'. unfold Editor.mountEffect.
  destruct (getPresentation_cases id ls) as [-> | (q & -> & Hq & Hid)].
  - split; [done|]. split; [done|]. left. done.
  - destruct (normalize_record_fixed clock q Hq) as (p & Hp & _ & Hpid).
    rewrite Hp. split; [done|]. split; [done|]. right.
    exists p. split; [done|]. split; [done|]. split; [congruence|].
    by apply (normalize_slides_valid clock q).
Qed.

Lemma mounted_after_save clock p q id ls st :
  prop p "id" = Some (VStr id) → Api.cleanEntry p = Some q → Api.writable ls = true →
  Editor.presentation (Editor.mountEffect clock id (Api.savePresentation p ls).1 st) =
  Editor.normalize clock q.
Proof.
  intros Hid Hq Hw. unfold Editor.mountEffect.
  rewrite (getPresentation_after_save p q id ls Hid Hq Hw).
  destruct (normalize_record_fixed clock q (cleanEntry_fix p q Hq)) as (p' & -> & _).
  done.
Qed.

(** X4. Opening the editor on a presentation that was just saved shows the
    normalization of its cleaned record: this is the round trip through the
    store that does hold. *)
Theorem mount_after_save (clock : nat → Z) (p q : value) (id : string)
    (ls : Api.LocalStorage) (st : Editor.State) :
  prop p "id" = Some (VStr id) → Api.cleanEntry p = Some q → Api.writable ls = true →
  Editor.presentation (Editor.mountEffect clock id (Api.savePresentation p ls).1 st) =
  Editor.normalize clock q.
Proof. apply mounted_after_save. Qed.

Lemma mount_after_save_witness :
  let image := VObj (obj [("type", VStr "image"); ("value", VStr "https://img/1")]) in
  let slide := VObj (obj [("id", VStr "1-0"); ("title", VStr "A"); ("content", VArr []);
                          ("background", image)]) in
  let p := VObj (obj [("id", VStr "1"); ("slides", VArr [slide])]) in
  let st := {| Editor.presentation := None; Editor.currentSlideIndex := 3;
               Editor.isLoading := true; Editor.error := None;
               Editor.gallerySearchQuery := ""; Editor.galleryImages := [];
               Editor.isSearching := false |} in
  (Editor.presentation
     (Editor.mountEffect (λ _, 0%Z) "1" (Api.savePresentation p Sample.emptyStore).1 st)
     ≫= λ p', Editor.slides_of p' !! 0 ≫= λ s, prop s "background" ≫= λ b, prop b "opacity")
  = Some (num 1).
Proof.
  intros image slide p st.
  rewrite (mount_after_save (λ _, 0%Z) p
             (VObj (obj [("id", VStr "1"); ("userId", VStr "unknown_user");
                         ("title", VStr "Untitled Presentation"); ("slides", VArr [slide]);
                         ("theme", VStr "Default");
                         ("createdAt", VStr "1970-01-01T00:00:00.000Z")])) "1");
    [|reflexivity|vm_compute; reflexivity|reflexivity].
  vm_compute. reflexivity.
Defined.

(** X5. An editing session round trip: with a store that accepts writes,
    loading a presentation, saving it as loaded and loading it again gives
    the same presentation, and the store then holds exactly what the editor
    shows. *)
Theorem load_save_load (clock clock' : nat → Z) (id : string) (ls : Api.LocalStorage)
    (st st2 : Editor.State) :
  Api.writable ls = true → Api.getPresentation id ls ≠ VNull →
  let st1 := Editor.mountEffect clock id ls st in
  let ls' := (Editor.handleSave st1 ls).1 in
  ∃ p, Editor.presentation st1 = Some p ∧
    Api.getPresentation id ls' = p ∧
    Editor.presentation (Editor.mountEffect clock' id ls' st2) = Some p.
Proof.
  intros Hw Hfound st1 ls'.
  destruct (getPresentation_cases id ls) as [? | (q & Hget & Hq & Hid)]; [done|].
  destruct (normalize_record_fixed clock q Hq) as (p & Hp & Hfix & Hpid).
  rewrite Hid in Hpid.
  assert (H1 : Editor.presentation st1 = Some p).
  { subst st1. unfold Editor.mountEffect. by rewrite Hget, Hp. }
  assert (Hls' : ls' = (Api.savePresentation p ls).1).
  { subst ls'. unfold Editor.handleSave. by rewrite H1. }
  exists p. split; [done|]. rewrite Hls'.
  split; [by apply getPresentation_after_save|].
  rewrite (mounted_after_save clock' p p id ls st2 Hpid Hfix Hw).
  unfold Editor.normalize in Hp |- *.
  destruct (truthy q); [|done]. injection Hp as <-.
  cbn [truthy prop own_props]. rewrite lookup_insert_eq. cbn [array_or_empty].
  by rewrite cleanedSlides_idem, insert_insert_eq.
Qed.

Lemma load_save_load_witness :
  let slide := VObj (obj [("title", VStr "A")]) in
  let ls := {| Api.items :=
                 {["presentations" :=
                     Api.Json (VArr [VObj (obj [("id", VStr "1"); ("slides", VArr [slide])])])]};
               Api.writable := true |} in
  let st := {| Editor.presentation := None; Editor.currentSlideIndex := 0;
               Editor.isLoading := true; Editor.error := None;
               Editor.gallerySearchQuery := ""; Editor.galleryImages := [];
               Editor.isSearching := false |} in
  let st1 := Editor.mountEffect (λ _, 5%Z) "1" ls st in
  Editor.presentation (Editor.mountEffect (λ _, 9%Z) "1" (Editor.handleSave st1 ls).1 st) =
  Editor.presentation st1.
Proof.
  intros slide ls st st1.
  destruct (load_save_load (λ _, 5%Z) (λ _, 9%Z) "1" ls st st) as (p & Hp & _ & Hp');
    [reflexivity|vm_compute; discriminate|].
  fold st1 in Hp. rewrite Hp. exact Hp'.
Defined.



(** ** Editing *)

Lemma setPresentation_same st : Editor.setPresentation (Editor.presentation st) st = st.
Proof. by destruct st. Qed.

Lemma spread2_lookup (a b : gmap string value) k :
  spread2 a b !! k = match b !! k with Some v => Some v | None => a !! k end.
Proof. unfold spread2. rewrite lookup_union. by destruct (b !! k), (a !! k). Qed.

(** X7. [updateSlide] merges the given fields into the slide at the index:
    those fields take the new values, the slide keeps its other fields, and
    the other slides, their number and the cursor are untouched.  An index
    past the end changes no slide, and without a presentation nothing
    happens at all. *)
Theorem updateSlide_merges (i : nat) (updatedProps : gmap string value) (st : Editor.State) :
  (Editor.presentation st = None → Editor.updateSlide i updatedProps st = st) ∧
  (∀ p, Editor.presentation st = Some p →
     ∃ p', Editor.presentation (Editor.updateSlide i updatedProps st) = Some p' ∧
       Editor.currentSlideIndex (Editor.updateSlide i updatedProps st) =
         Editor.currentSlideIndex st ∧
       length (Editor.slides_of p') = length (Editor.slides_of p) ∧
       (∀ j, j ≠ i → Editor.slides_of p' !! j = Editor.slides_of p !! j) ∧
       (Editor.slides_of p !! i = None → Editor.slides_of p' = Editor.slides_of p) ∧
       (∀ s, Editor.slides_of p !! i = Some (VObj s) →
          ∃ s', Editor.slides_of p' !! i = Some (VObj s') ∧
            (∀ k v, updatedProps !! k = Some v → s' !! k = Some v) ∧
            (∀ k, updatedProps !! k = None → s' !! k = s !! k))).
Proof.
  split.
  - intros Hp. unfold Editor.updateSlide. rewrite Hp, <-Hp. apply setPresentation_same.
  - intros p Hp. unfold Editor.updateSlide. rewrite Hp.
    eexists. split; [reflexivity|]. split; [done|].
    rewrite slides_of_with_slides.
    destruct (Editor.slides_of p !! i) as [slide|] eqn:Hi.
    + destruct (truthy slide) eqn:Ht.
      * split; [by rewrite length_insert|].
        split; [by intros j Hj; rewrite list_lookup_insert_ne|]. split; [done|].
        intros s [= ->]. eexists. split.
        { apply list_lookup_insert_eq. by eapply lookup_lt_Some. }
        cbn [own_props]. split.
        { intros k v Hk. by rewrite spread2_lookup, Hk. }
        { intros k Hk. by rewrite spread2_lookup, Hk. }
      * split; [done|]. split; [done|]. split; [done|]. by intros s [= ->].
    + split; [done|]. split; [done|]. split; [done|]. done.
Qed.

Lemma updateSlide_merges_witness :
  let slide := VObj (obj [("id", VStr "s1"); ("title", VStr "Old"); ("content", VArr [])]) in
  let p := VObj (obj [("id", VStr "p"); ("slides", VArr [slide])]) in
  let st := {| Editor.presentation := Some p; Editor.currentSlideIndex := 0;
               Editor.isLoading := false; Editor.error := None;
               Editor.gallerySearchQuery := ""; Editor.galleryImages := [];
               Editor.isSearching := false |} in
  ∃ p' s', Editor.presentation (Editor.updateSlide 0 (obj [("title", VStr "New")]) st) = Some p' ∧
    Editor.slides_of p' !! 0 = Some (VObj s') ∧
    s' !! "title" = Some (VStr "New") ∧ s' !! "id" = Some (VStr "s1").
Proof.
  intros slide p st.
  destruct (updateSlide_merges 0 (obj [("title", VStr "New")]) st) as [_ H].
  destruct (H p eq_refl) as (p' & Hp' & _ & _ & _ & _ & Hs).
  destruct (Hs _ eq_refl) as (s' & Hs' & Hnew & Hold).
  exists p', s'. split; [exact Hp'|]. split; [exact Hs'|]. split.
  - apply Hnew. reflexivity.
  - rewrite Hold by reflexivity. reflexivity.
Defined.

Lemma pretty_N_go_nonempty x s : s ≠ "" → pretty_N_go x s ≠ "".
Proof.
  revert s. induction (N.lt_wf_0 x) as [x _ IH]; intros s Hs.
  assert (x = 0 ∨ 0 < x)%N as [->|Hx] by lia.
  - by rewrite pretty_N_go_0.
  - rewrite pretty_N_go_step by done. apply IH; [by apply N.div_lt|done].
Qed.

Lemma pretty_Z_nonempty (z : Z) : pretty z ≠ "".
Proof.
  destruct z as [|x|x]; [done| |done].
  unfold pretty, pretty_Z, pretty, pretty_positive, pretty, pretty_N.
  rewrite decide_False by done. rewrite pretty_N_go_step by lia.
  by apply pretty_N_go_nonempty.
Qed.

Lemma addSlide_slides now st p :
  Editor.presentation st = Some p →
  ∃ p' newSlide,
    Editor.presentation (Editor.addSlide now st) = Some p' ∧
    Editor.slides_of p' = Editor.slides_of p ++ [newSlide] ∧
    Editor.currentSlideIndex (Editor.addSlide now st) = length (Editor.slides_of p) ∧
    newSlide = VObj (obj
      [("id", VStr (pretty now));
       ("title", VStr "New Slide Title");
       ("content", VArr [VStr "New slide content."]);
       ("background", VObj (obj [("type", VStr "color"); ("value", VStr "#ffffff")]));
       ("titleStyle", js_or (prop_opt (Editor.slides_of p !! 0) "titleStyle")
                        (VObj Editor.defaultTitleStyle));
       ("contentStyle", js_or (prop_opt (Editor.slides_of p !! 0) "contentStyle")
                          (VObj Editor.defaultContentStyle))]).
Proof.
  intros Hp. unfold Editor.addSlide. rewrite Hp. eexists _, _.
  split; [reflexivity|]. by rewrite slides_of_with_slides.
Qed.

(** X8. [addSlide] appends exactly one slide and moves the cursor onto it:
    the earlier slides are unchanged, the new one has the placeholder title
    and content and a white background, and it takes the text styles of the
    first slide when there is one with styles, the defaults otherwise.  It
    works on a presentation without slides too. *)
Theorem addSlide_appends (now : Z) (st : Editor.State) (p : value) :
  Editor.presentation st = Some p →
  ∃ p' newSlide, Editor.presentation (Editor.addSlide now st) = Some p' ∧
    Editor.slides_of p' = Editor.slides_of p ++ [newSlide] ∧
    Editor.currentSlideIndex (Editor.addSlide now st) = length (Editor.slides_of p) ∧
    Editor.slides_of p' !! Editor.currentSlideIndex (Editor.addSlide now st) = Some newSlide ∧
    prop newSlide "title" = Some (VStr "New Slide Title") ∧
    prop newSlide "content" = Some (VArr [VStr "New slide content."]) ∧
    prop newSlide "background" = Some Editor.solidBackground ∧
    (Editor.slides_of p = [] →
       prop newSlide "titleStyle" = Some (VObj Editor.defaultTitleStyle) ∧
       prop newSlide "contentStyle" = Some (VObj Editor.defaultContentStyle)) ∧
    (∀ first ts cs, Editor.slides_of p !! 0 = Some first →
       prop first "titleStyle" = Some (VObj ts) → prop first "contentStyle" = Some (VObj cs) →
       prop newSlide "titleStyle" = Some (VObj ts) ∧
       prop newSlide "contentStyle" = Some (VObj cs)).
Proof.
  intros Hp. destruct (addSlide_slides now st p Hp) as (p' & new & Hp' & Hs & Hc & ->).
  eexists p', _. split; [done|]. split; [done|]. split; [done|].
  split; [by rewrite Hc, Hs, list_lookup_middle|].
  rewrite !prop_obj. split; [done|]. split; [done|]. split; [done|]. split.
  - by intros ->.
  - intros first ts cs -> Hts Hcs. cbn [prop_opt]. by rewrite Hts, Hcs.
Qed.

Lemma addSlide_appends_witness :
  let p := VObj (obj [("id", VStr "p"); ("slides", VArr [])]) in
  let st := {| Editor.presentation := Some p; Editor.currentSlideIndex := 0;
               Editor.isLoading := false; Editor.error := None;
               Editor.gallerySearchQuery := ""; Editor.galleryImages := [];
               Editor.isSearching := false |} in
  ∃ p', Editor.presentation (Editor.addSlide 42 st) = Some p' ∧
    length (Editor.slides_of p') = 1 ∧
    Editor.currentSlideIndex (Editor.addSlide 42 st) = 0.
Proof.
  intros p st.
  destruct (addSlide_appends 42 st p eq_refl) as (p' & new & Hp' & Hs & Hc & _).
  exists p'. split; [exact Hp'|]. split; [by rewrite Hs|exact Hc].
Defined.

Lemma deleteSlide_slides st p :
  Editor.presentation st = Some p → 1 < length (Editor.slides_of p) →
  ∃ p', Editor.presentation (Editor.deleteSlide st) = Some p' ∧
    Editor.slides_of p' = delete (Editor.currentSlideIndex st) (Editor.slides_of p) ∧
    Editor.currentSlideIndex (Editor.deleteSlide st) =
      Nat.min (Editor.currentSlideIndex st) (length (Editor.slides_of p') - 1).
Proof.
  intros Hp Hlen. unfold Editor.deleteSlide. rewrite Hp.
  destruct (Nat.leb_spec (length (Editor.slides_of p)) 1); [lia|].
  rewrite filter_index_delete. eexists. split; [reflexivity|].
  rewrite slides_of_with_slides. split; [done|].
  cbn [Editor.currentSlideIndex Editor.setCurrentSlideIndex Editor.setPresentation].
  pose proof (length_delete_bounds (Editor.slides_of p) (Editor.currentSlideIndex st)). lia.
Qed.

(** X9. Adding a slide and deleting it straight away gives back the slides
    there were, when there was at least one; the cursor ends on the last of
    them.  On a presentation without slides the added slide stays, since a
    single slide is never deleted. *)
Theorem addSlide_then_deleteSlide (now : Z) (st : Editor.State) (p : value) :
  Editor.presentation st = Some p →
  let st' := Editor.deleteSlide (Editor.addSlide now st) in
  ∃ p', Editor.presentation st' = Some p' ∧
    (Editor.slides_of p ≠ [] →
       Editor.slides_of p' = Editor.slides_of p ∧
       Editor.currentSlideIndex st' = length (Editor.slides_of p) - 1) ∧
    (Editor.slides_of p = [] →
       length (Editor.slides_of p') = 1 ∧ Editor.currentSlideIndex st' = 0).
Proof.
  intros Hp st'. subst st'.
  destruct (addSlide_slides now st p Hp) as (p1 & new & Hp1 & Hs1 & Hc1 & _).
  destruct (Editor.slides_of p) as [|x l] eqn:Hl.
  - exists p1. unfold Editor.deleteSlide. rewrite Hp1, Hs1. cbn [app length Nat.leb].
    split; [done|]. split; [done|]. intros _. by rewrite Hc1.
  - destruct (deleteSlide_slides (Editor.addSlide now st) p1 Hp1) as (p2 & Hp2 & Hs2 & Hc2).
    { rewrite Hs1, length_app. cbn. lia. }
    exists p2. split; [done|]. split; [|done]. intros _.
    assert (Hdel : Editor.slides_of p2 = x :: l).
    { by rewrite Hs2, Hc1, Hs1, delete_middle, app_nil_r. }
    split; [done|]. rewrite Hc2, Hdel, Hc1. cbn [length]. lia.
Qed.

Lemma addSlide_then_deleteSlide_witness :
  let slide := VObj (obj [("id", VStr "s1")]) in
  let p := VObj (obj [("id", VStr "p"); ("slides", VArr [slide])]) in
  let st := {| Editor.presentation := Some p; Editor.currentSlideIndex := 0;
               Editor.isLoading := false; Editor.error := None;
               Editor.gallerySearchQuery := ""; Editor.galleryImages := [];
               Editor.isSearching := false |} in
  ∃ p', Editor.presentation (Editor.deleteSlide (Editor.addSlide 42 st)) = Some p' ∧
    Editor.slides_of p' = [slide].
Proof.
  intros slide p st.
  destruct (addSlide_then_deleteSlide 42 st p eq_refl) as (p' & Hp' & Hsame & _).
  exists p'. split; [exact Hp'|]. apply Hsame. discriminate.
Defined.

Lemma goToNextSlide_eq st p :
  Editor.presentation st = Some p →
  Editor.goToNextSlide st =
  if decide (Editor.currentSlideIndex st + 1 < length (Editor.slides_of p))
  then Editor.setCurrentSlideIndex (Editor.currentSlideIndex st + 1) st else st.
Proof.
  intros Hp. unfold Editor.goToNextSlide. rewrite Hp.
  destruct (Z.ltb_spec (Z.of_nat (Editor.currentSlideIndex st))
              (Z.of_nat (length (Editor.slides_of p)) - 1));
    case_decide; try done; lia.
Qed.

Lemma goToPrevSlide_eq st :
  Editor.goToPrevSlide st =
  if decide (0 < Editor.currentSlideIndex st)
  then Editor.setCurrentSlideIndex (Editor.currentSlideIndex st - 1) st else st.
Proof.
  unfold Editor.goToPrevSlide.
  destruct (Nat.ltb_spec 0 (Editor.currentSlideIndex st)); case_decide; try done; lia.
Qed.

(** X10. The navigation arrows keep the cursor on a slide: stepping forward
    or back from a slide lands on a slide, the forward arrow does nothing on
    the last slide and the back arrow nothing on the first, neither touches
    the presentation, and a step forward undoes a step back and the other
    way round. *)
Theorem navigation_stays_in_range (st : Editor.State) (p : value) :
  Editor.presentation st = Some p →
  Editor.currentSlideIndex st < length (Editor.slides_of p) →
  Editor.currentSlideIndex (Editor.goToNextSlide st) < length (Editor.slides_of p) ∧
  Editor.currentSlideIndex (Editor.goToPrevSlide st) < length (Editor.slides_of p) ∧
  Editor.presentation (Editor.goToNextSlide st) = Some p ∧
  Editor.presentation (Editor.goToPrevSlide st) = Some p ∧
  (Editor.currentSlideIndex st = length (Editor.slides_of p) - 1 →
     Editor.goToNextSlide st = st) ∧
  (Editor.currentSlideIndex st = 0 → Editor.goToPrevSlide st = st) ∧
  (Editor.currentSlideIndex st + 1 < length (Editor.slides_of p) →
     Editor.currentSlideIndex (Editor.goToNextSlide st) = Editor.currentSlideIndex st + 1 ∧
     Editor.goToPrevSlide (Editor.goToNextSlide st) = st) ∧
  (0 < Editor.currentSlideIndex st →
     Editor.currentSlideIndex (Editor.goToPrevSlide st) = Editor.currentSlideIndex st - 1 ∧
     Editor.goToNextSlide (Editor.goToPrevSlide st) = st).
Proof.
  intros Hp Hc. rewrite (goToNextSlide_eq st p Hp), goToPrevSlide_eq.
  split; [case_decide; cbn; lia|]. split; [case_decide; cbn; lia|].
  split; [by case_decide|]. split; [by case_decide|].
  split; [intros Hl; case_decide; [lia|done]|].
  split; [intros Hl; case_decide; [lia|done]|]. split.
  - intros Hn. rewrite decide_True by done. split; [done|].
    rewrite goToPrevSlide_eq. cbn [Editor.currentSlideIndex Editor.setCurrentSlideIndex].
    rewrite decide_True by lia.
    replace (Editor.currentSlideIndex st + 1 - 1) with (Editor.currentSlideIndex st) by lia.
    destruct st; reflexivity.
  - intros Hn. rewrite decide_True by done. split; [done|].
    rewrite (goToNextSlide_eq _ p) by done.
    cbn [Editor.currentSlideIndex Editor.setCurrentSlideIndex].
    rewrite decide_True by lia.
    replace (Editor.currentSlideIndex st - 1 + 1) with (Editor.currentSlideIndex st) by lia.
    destruct st; reflexivity.
Qed.

Lemma navigation_stays_in_range_witness :
  let slide (n : string) := VObj (obj [("id", VStr n)]) in
  let p := VObj (obj [("id", VStr "p"); ("slides", VArr [slide "a"; slide "b"])]) in
  let st := {| Editor.presentation := Some p; Editor.currentSlideIndex := 1;
               Editor.isLoading := false; Editor.error := None;
               Editor.gallerySearchQuery := ""; Editor.galleryImages := [];
               Editor.isSearching := false |} in
  Editor.goToNextSlide st = st ∧
  Editor.currentSlideIndex (Editor.goToPrevSlide st) = 0.
Proof.
  intros slide p st.
  destruct (navigation_stays_in_range st p eq_refl) as (_ & _ & _ & _ & Hlast & _ & _ & Hback).
  - vm_compute. lia.
  - split; [apply Hlast; reflexivity|]. destruct Hback as [Hb _]; [vm_compute; lia|exact Hb].
Defined.

Lemma splice_in_delete_same {A} (l : list A) i x :
  l !! i = Some x → Editor.splice_in i x (delete i l) = l.
Proof.
  intros Hi. unfold Editor.splice_in. rewrite delete_take_drop.
  assert (Hlen : length (take i l) = i).
  { apply length_take_le. apply lookup_lt_Some in Hi. lia. }
  rewrite take_app_length', drop_app_length' by done.
  by apply take_drop_middle.
Qed.

Lemma handleDragSort_slides st p from to x :
  Editor.presentation st = Some p → Editor.slides_of p !! from = Some x →
  ∃ p', Editor.presentation (Editor.handleDragSort (Some from) (Some to) st) = Some p' ∧
    Editor.slides_of p' = Editor.splice_in to x (delete from (Editor.slides_of p)) ∧
    Editor.currentSlideIndex (Editor.handleDragSort (Some from) (Some to) st) =
      Editor.currentSlideIndex st.
Proof.
  intros Hp Hx. unfold Editor.handleDragSort. rewrite Hp, Hx. eexists.
  split; [reflexivity|]. by rewrite slides_of_with_slides.
Qed.

Lemma splice_in_Permutation {A} (l : list A) i x : Editor.splice_in i x l ≡ₚ x :: l.
Proof.
  unfold Editor.splice_in. rewrite <-Permutation_middle. by rewrite take_drop.
Qed.

(** X11. Dropping a dragged slide reorders and nothing more: the slides
    afterwards are a permutation of the slides before, the dragged slide
    sits at the drop position (the last position when dropped past the end),
    dropping a slide on itself changes nothing, and the cursor keeps its
    index, so it does not follow the slide.  Without both refs set the
    handler does nothing. *)
Theorem handleDragSort_permutes (st : Editor.State) (p x : value) (from to : nat) :
  Editor.presentation st = Some p → Editor.slides_of p !! from = Some x →
  let st' := Editor.handleDragSort (Some from) (Some to) st in
  ∃ p', Editor.presentation st' = Some p' ∧
    Editor.slides_of p' ≡ₚ Editor.slides_of p ∧
    length (Editor.slides_of p') = length (Editor.slides_of p) ∧
    Editor.slides_of p' !! Nat.min to (length (Editor.slides_of p) - 1) = Some x ∧
    (to = from → Editor.slides_of p' = Editor.slides_of p) ∧
    Editor.currentSlideIndex st' = Editor.currentSlideIndex st ∧
    (∀ other, Editor.handleDragSort None other st = st ∧
              Editor.handleDragSort other None st = st).
Proof.
  intros Hp Hx st'. subst st'.
  destruct (handleDragSort_slides st p from to x Hp Hx) as (p' & Hp' & Hs & Hc).
  exists p'. split; [done|]. rewrite Hs.
  assert (Hperm : Editor.splice_in to x (delete from (Editor.slides_of p))
                  ≡ₚ Editor.slides_of p).
  { rewrite splice_in_Permutation. symmetry. by apply delete_Permutation. }
  split; [done|]. split; [by rewrite Hperm|]. split; [|split; [|split; [done|]]].
  - unfold Editor.splice_in.
    assert (Hlen : length (take to (delete from (Editor.slides_of p))) =
                   Nat.min to (length (Editor.slides_of p) - 1)).
    { rewrite length_take, length_delete by eauto. lia. }
    rewrite <-Hlen. apply list_lookup_middle. done.
  - intros ->. by apply splice_in_delete_same.
  - intros other. split; [done|]. unfold Editor.handleDragSort. by destruct other.
Qed.

Lemma handleDragSort_permutes_witness :
  let slide (n : string) := VObj (obj [("id", VStr n)]) in
  let p := VObj (obj [("id", VStr "p"); ("slides", VArr [slide "a"; slide "b"; slide "c"])]) in
  let st := {| Editor.presentation := Some p; Editor.currentSlideIndex := 0;
               Editor.isLoading := false; Editor.error := None;
               Editor.gallerySearchQuery := ""; Editor.galleryImages := [];
               Editor.isSearching := false |} in
  ∃ p', Editor.presentation (Editor.handleDragSort (Some 0) (Some 2) st) = Some p' ∧
    Editor.slides_of p' !! 2 = Some (slide "a") ∧
    Editor.currentSlideIndex (Editor.handleDragSort (Some 0) (Some 2) st) = 0.
Proof.
  intros slide p st.
  destruct (handleDragSort_permutes st p (slide "a") 0 2 eq_refl eq_refl)
    as (p' & Hp' & _ & _ & Hat & _ & Hc & _).
  exists p'. split; [exact Hp'|]. split; [exact Hat|exact Hc].
Defined.

(** ** Images in the editor *)

Lemma generateImage_text ai prompt :
  Gemini.generateImage ai (VStr prompt) =
  let placeholder := "https://picsum.photos/seed/" +:+ remove_spaces prompt +:+ "/1280/720" in
  match ai with
  | None => ([], Some placeholder)
  | Some client =>
      ([Async.GenerateImages (VStr prompt)],
       Some match Gemini.generateImages client (VStr prompt) with
            | Some base64ImageBytes => "data:image/jpeg;base64," +:+ base64ImageBytes
            | None => placeholder
            end)
  end.
Proof.
  unfold Gemini.generateImage. destruct ai as [client|]; [|done].
  cbn [Async.bind Async.emit]. by destruct (Gemini.generateImages client (VStr prompt)).
Qed.

(** X12. "Regenerate with AI" cannot fail, and shows what the generator
    gave.  With a prompt and a current slide it always ends with an image
    background of opacity 1 and blur 0 on the current slide, and nothing else
    of the slide changed.  The image is the generated one whenever the
    generator gives one, and the placeholder address built from the prompt
    only when there is no generator or it fails.  The only outside call is
    the one to the image generator, so the failure alert is never shown.
    With an empty prompt it does nothing. *)
Theorem regenerateImage_always_sets_image (ai : option Gemini.GoogleGenAI)
    (aiImagePrompt : string) (st : Editor.State) (p : value) (s : gmap string value) :
  Editor.presentation st = Some p →
  Editor.slides_of p !! Editor.currentSlideIndex st = Some (VObj s) →
  aiImagePrompt ≠ "" →
  let placeholder :=
    "https://picsum.photos/seed/" +:+ remove_spaces aiImagePrompt +:+ "/1280/720" in
  let url :=
    match ai with
    | Some client =>
        match Gemini.generateImages client (VStr aiImagePrompt) with
        | Some bytes => "data:image/jpeg;base64," +:+ bytes
        | None => placeholder
        end
    | None => placeholder
    end in
  let background := VObj (obj [("type", VStr "image"); ("value", VStr url);
                               ("opacity", num 1); ("blur", num 0)]) in
  Editor.regenerateImage ai aiImagePrompt st =
    (match ai with
     | Some _ => [Async.GenerateImages (VStr aiImagePrompt)]
     | None => []
     end,
     Some (Editor.changeBackground background st)) ∧
  Editor.changeBackground background st =
    Editor.setPresentation
      (Some (Editor.with_slides p
               (<[Editor.currentSlideIndex st := VObj (<["background" := background]> s)]>
                  (Editor.slides_of p)))) st ∧
  Editor.regenerateImage ai "" st = Async.ret st.
Proof.
  intros Hp Hs Hne placeholder url background.
  assert (Hempty : Editor.regenerateImage ai "" st = Async.ret st).
  { unfold Editor.regenerateImage. cbn [nonempty String.eqb negb]. by rewrite orb_true_r. }
  assert (Hrun : Editor.regenerateImage ai aiImagePrompt st =
    Async.catch
      (Async.bind (Gemini.generateImage ai (VStr aiImagePrompt))
         (λ imageUrl,
            Async.ret (Editor.changeBackground
              (VObj (obj [("type", VStr "image"); ("value", VStr imageUrl);
                          ("opacity", num 1); ("blur", num 0)])) st)))
      (Async.bind (Async.emit (Async.Alert "Failed to generate a new image. Please try again."))
         (λ _, Async.ret st))).
  { unfold Editor.regenerateImage, Editor.currentSlide. rewrite Hp, Hs.
    apply String.eqb_neq in Hne. unfold nonempty. by rewrite Hne. }
  split; [|split; [|exact Hempty]].
  - rewrite Hrun, generateImage_text. cbn zeta. subst background url placeholder.
    destruct ai as [client|]; [|reflexivity].
    destruct (Gemini.generateImages client (VStr aiImagePrompt)); reflexivity.
  - unfold Editor.changeBackground.
    rewrite (updateSlide_object st p _ s _ Hp Hs). by rewrite spread_one_field.
Qed.

Lemma regenerateImage_always_sets_image_witness :
  let slide := obj [("id", VStr "s1"); ("title", VStr "Cats")] in
  let p := VObj (obj [("id", VStr "p"); ("slides", VArr [VObj slide])]) in
  let st := {| Editor.presentation := Some p; Editor.currentSlideIndex := 0;
               Editor.isLoading := false; Editor.error := None;
               Editor.gallerySearchQuery := ""; Editor.galleryImages := [];
               Editor.isSearching := false |} in
  let ai := Some {| Gemini.generateContent := λ _, Gemini.Rejected;
                    Gemini.generateImages := λ _, Some "QUJD" |} in
  Editor.regenerateImage ai "red cats" st =
    ([Async.GenerateImages (VStr "red cats")],
     Some (Editor.changeBackground
             (VObj (obj [("type", VStr "image"); ("value", VStr "data:image/jpeg;base64,QUJD");
                         ("opacity", num 1); ("blur", num 0)])) st)).
Proof.
  intros slide p st ai.
  destruct (regenerateImage_always_sets_image ai "red cats" st p slide eq_refl eq_refl)
    as (Hrun & _); [discriminate|].
  exact Hrun.
Defined.

Lemma handleImageSearch_run key fetch st :
  nonempty (trim (Editor.gallerySearchQuery st)) = true →
  let query := Editor.gallerySearchQuery st in
  Editor.handleImageSearch key fetch st =
  ([Async.Fetch ("https://serpapi.com/search.json?q=" +:+ encodeURIComponent query
                 +:+ "&tbm=isch&api_key=" +:+ key)],
   Some (Editor.setIsSearching false
           (Editor.setGalleryImages
              match Async.settled (Editor.searchWithSerpApi key fetch query) with
              | Some imageUrls => imageUrls
              | None =>
                  (λ i : nat,
                     Some (VStr ("https://picsum.photos/seed/" +:+ remove_spaces query
                                 +:+ pretty i +:+ "/400/300"))) <$> seq 0 12
              end
              (Editor.setGalleryImages [] (Editor.setIsSearching true st))))).
Proof.
  intros Hq query.
  assert (Hcalls : Async.calls (Editor.searchWithSerpApi key fetch query) =
            [Async.Fetch ("https://serpapi.com/search.json?q=" +:+ encodeURIComponent query
                          +:+ "&tbm=isch&api_key=" +:+ key)]).
  { unfold Editor.searchWithSerpApi. rewrite calls_bind.
    cbn [Async.calls Async.settled Async.emit fst snd].
    repeat case_match; reflexivity. }
  destruct (Editor.handleImageSearch key fetch st) as [tr r] eqn:Hrun.
  assert (Htr : tr = Async.calls (Editor.handleImageSearch key fetch st)) by by rewrite Hrun.
  assert (Hr : r = Async.settled (Editor.handleImageSearch key fetch st)) by by rewrite Hrun.
  clear Hrun. subst tr r. unfold Editor.handleImageSearch. fold query.
  destruct (Async.settled (Editor.searchWithSerpApi key fetch query))
    as [imageUrls|] eqn:Hserp.
  - pose proof (searchWithSerpApi_nonempty key fetch query imageUrls Hserp) as Hne.
    destruct (tryProviders_win (Editor.searchWithSerpApi key fetch)
                [Editor.searchWithFallback] query imageUrls Hserp Hne) as [Hs Hc].
    destruct (searchWith_found _ st imageUrls Hq Hs) as [Hfound Hfc].
    rewrite Hfound, Hfc. fold query. by rewrite Hc, Hcalls.
  - set (fallbackUrls := (λ i : nat,
          Some (VStr ("https://picsum.photos/seed/" +:+ remove_spaces query +:+ pretty i
                      +:+ "/400/300"))) <$> seq 0 12).
    assert (Hfb : Async.settled (Editor.searchWithFallback query) = Some fallbackUrls)
      by reflexivity.
    destruct (tryProviders_skip [Editor.searchWithSerpApi key fetch]
                [Editor.searchWithFallback] query) as [Hs Hc].
    { constructor; [by left|constructor]. }
    destruct (tryProviders_win Editor.searchWithFallback [] query fallbackUrls Hfb)
      as [Hs' Hc']; [done|].
    cbn [app] in Hs, Hc. rewrite Hs' in Hs.
    destruct (searchWith_found _ st fallbackUrls Hq Hs) as [Hfound Hfc].
    rewrite Hfound, Hfc. fold query. rewrite Hc, Hc'. cbn [mbind list_bind].
    by rewrite !app_nil_r, Hcalls.
Qed.

Lemma searchWithSerpApi_answer key fetch query status data results imageUrls :
  fetch ("https://serpapi.com/search.json?q=" +:+ encodeURIComponent query
         +:+ "&tbm=isch&api_key=" +:+ key) = Async.Response true status (Some data) →
  prop data "images_results" = Some (VArr results) →
  Editor.thumbnails results = Some imageUrls → imageUrls ≠ [] →
  Async.settled (Editor.searchWithSerpApi key fetch query) = Some imageUrls.
Proof.
  intros Hfetch Hres Hth Hne. unfold Editor.searchWithSerpApi.
  rewrite settled_bind. cbn [Async.settled Async.emit snd mbind option_bind].
  rewrite Hfetch.
  assert (Hd : data ≠ VNull) by (intros ->; done).
  rewrite (member_not_null data _ Hd), Hres, Hth.
  destruct imageUrls; [done|reflexivity].
Qed.

(** X13. What a web search in the editor shows is decided by the answer to
    its one request.  For a query that is not blank it makes exactly one
    fetch, to the address of the primary provider built from the query and
    the key, empties the gallery, and ends with the search flag cleared and
    the gallery holding the thumbnails of the answer, in order, when the
    answer is an ok response whose [images_results] is a non-empty array;
    when the request fails, is not ok, has no JSON body or no such results,
    the gallery holds the twelve placeholder addresses built from the
    query.  It never alerts, and it touches neither the presentation nor
    the cursor.  For a blank query it does nothing. *)
Theorem handleImageSearch_outcome (key : string) (fetch : string → Async.http)
    (st : Editor.State) :
  let query := Editor.gallerySearchQuery st in
  let url := "https://serpapi.com/search.json?q=" +:+ encodeURIComponent query
             +:+ "&tbm=isch&api_key=" +:+ key in
  let fallback :=
    (λ i : nat, Some (VStr ("https://picsum.photos/seed/" +:+ remove_spaces query
                            +:+ pretty i +:+ "/400/300"))) <$> seq 0 12 in
  let shows (imageUrls : list (option value)) :=
    Editor.handleImageSearch key fetch st =
    ([Async.Fetch url],
     Some {| Editor.presentation := Editor.presentation st;
             Editor.currentSlideIndex := Editor.currentSlideIndex st;
             Editor.isLoading := Editor.isLoading st;
             Editor.error := Editor.error st;
             Editor.gallerySearchQuery := query;
             Editor.galleryImages := imageUrls;
             Editor.isSearching := false |}) in
  (nonempty (trim query) = false → Editor.handleImageSearch key fetch st = Async.ret st) ∧
  (nonempty (trim query) = true →
     (∀ status data results imageUrls,
        fetch url = Async.Response true status (Some data) →
        prop data "images_results" = Some (VArr results) →
        Editor.thumbnails results = Some imageUrls → imageUrls ≠ [] →
        shows imageUrls) ∧
     (fetch url = Async.NetworkError → shows fallback) ∧
     (∀ status json, fetch url = Async.Response false status json → shows fallback) ∧
     (∀ status, fetch url = Async.Response true status None → shows fallback) ∧
     (∀ status data, fetch url = Async.Response true status (Some data) →
        (prop data "images_results" = None ∨ prop data "images_results" = Some (VArr [])) →
        shows fallback) ∧
     (shows fallback ∨
      ∃ imageUrls, imageUrls ≠ [] ∧ shows imageUrls ∧
        Async.settled (Editor.searchWithSerpApi key fetch query) = Some imageUrls)).
Proof.
  intros query url fallback shows. split.
  - intros Hq. unfold Editor.handleImageSearch, Editor.searchWith. fold query. by rewrite Hq.
  - intros Hq. pose proof (handleImageSearch_run key fetch st Hq) as Hrun.
    cbn zeta in Hrun. fold query in Hrun. fold url in Hrun. fold fallback in Hrun.
    assert (Hfail : Async.settled (Editor.searchWithSerpApi key fetch query) = None →
                    shows fallback).
    { intros Hnone. subst shows. cbn beta. rewrite Hrun, Hnone. reflexivity. }
    split; [|split; [|split; [|split; [|split]]]].
    + intros status data results imageUrls Hfetch Hres Hth Hne.
      subst shows. cbn beta. rewrite Hrun.
      by rewrite (searchWithSerpApi_answer key fetch query status data results imageUrls
                    Hfetch Hres Hth Hne).
    + intros Hfetch. apply Hfail. unfold Editor.searchWithSerpApi.
      rewrite settled_bind. cbn [Async.settled Async.emit snd mbind option_bind].
      fold url. by rewrite Hfetch.
    + intros status json Hfetch. apply Hfail. unfold Editor.searchWithSerpApi.
      rewrite settled_bind. cbn [Async.settled Async.emit snd mbind option_bind].
      fold url. by rewrite Hfetch.
    + intros status Hfetch. apply Hfail. unfold Editor.searchWithSerpApi.
      rewrite settled_bind. cbn [Async.settled Async.emit snd mbind option_bind].
      fold url. by rewrite Hfetch.
    + intros status data Hfetch Hres. apply Hfail. unfold Editor.searchWithSerpApi.
      rewrite settled_bind. cbn [Async.settled Async.emit snd mbind option_bind].
      fold url. rewrite Hfetch.
      destruct data; try (destruct Hres as [Hres|Hres]; done);
        cbn [member prop] in *; destruct Hres as [-> | ->]; reflexivity.
    + destruct (Async.settled (Editor.searchWithSerpApi key fetch query))
        as [imageUrls|] eqn:Hs; [right|left; by apply Hfail].
      exists imageUrls. split; [by apply (searchWithSerpApi_nonempty key fetch query)|].
      split; [|done]. subst shows. cbn beta. rewrite Hrun. reflexivity.
Qed.

Lemma handleImageSearch_outcome_witness :
  let st := {| Editor.presentation := None; Editor.currentSlideIndex := 0;
               Editor.isLoading := false; Editor.error := None;
               Editor.gallerySearchQuery := "red cats"; Editor.galleryImages := [];
               Editor.isSearching := true |} in
  let answer := VObj (obj [("images_results",
                  VArr [VObj (obj [("thumbnail", VStr "https://img/1")]);
                        VObj (obj [("thumbnail", VStr "https://img/2")])])]) in
  let fetch (_ : string) := Async.Response true 200 (Some answer) in
  Editor.handleImageSearch "key" fetch st =
  ([Async.Fetch "https://serpapi.com/search.json?q=red%20cats&tbm=isch&api_key=key"],
   Some {| Editor.presentation := None; Editor.currentSlideIndex := 0;
           Editor.isLoading := false; Editor.error := None;
           Editor.gallerySearchQuery := "red cats";
           Editor.galleryImages := [Some (VStr "https://img/1"); Some (VStr "https://img/2")];
           Editor.isSearching := false |}).
Proof.
  intros st answer fetch.
  destruct (handleImageSearch_outcome "key" fetch st) as [_ Hsearch].
  destruct (Hsearch eq_refl) as (Hanswer & _).
  apply (Hanswer 200%Z answer
           [VObj (obj [("thumbnail", VStr "https://img/1")]);
            VObj (obj [("thumbnail", VStr "https://img/2")])]);
    [reflexivity|reflexivity|reflexivity|discriminate].
Defined.

(** ** The editor keeps its state in good order *)

Lemma valid_slide_with_background id title content b ts cs newBackground :
  <["background" := newBackground]>
    (obj [("id", id); ("title", title); ("content", content); ("background", b);
          ("titleStyle", ts); ("contentStyle", cs)]) =
  obj [("id", id); ("title", title); ("content", content); ("background", newBackground);
       ("titleStyle", ts); ("contentStyle", cs)].
Proof.
  unfold obj. cbn [list_to_map foldr]. apply map_eq. intros k.
  rewrite !lookup_insert. repeat case_decide; simplify_eq; done.
Qed.

Lemma addSlide_well_formed now st : Spec.well_formed st → Spec.well_formed (Editor.addSlide now st).
Proof.
  intros (p & Hp & Hv & Hc).
  destruct (addSlide_slides now st p Hp) as (p' & new & Hp' & Hs & Hc' & Hnew).
  exists p'. split; [done|]. rewrite Hs, Hc', length_app. split; [|cbn; lia].
  apply Forall_app. split; [done|]. constructor; [|constructor].
  subst new. eexists _, _, _, _, _, _. split; [reflexivity|].
  split; [cbn; apply negb_true_iff, String.eqb_neq, pretty_Z_nonempty|].
  split; [done|].
  split; [eexists _, "color"; by repeat split|].
  destruct (Editor.slides_of p) as [|first l] eqn:Hl.
  - cbn [lookup list_lookup prop_opt js_or].
    split; eexists; (split; [done|]); intros k Hk; apply default_style_has; auto.
  - apply Forall_inv in Hv. destruct Hv as (a & b & c & d & ts & cs & -> & _ & _ & _ & Hts & Hcs).
    cbn [lookup list_lookup prop_opt]. rewrite !prop_obj.
    cbn [List.find fst snd String.eqb Ascii.eqb Bool.eqb fmap option_fmap option_map].
    pose proof Hts as (ots & -> & _). pose proof Hcs as (ocs & -> & _).
    by rewrite !(js_or_kept (VObj _)) by done.
Qed.

Lemma deleteSlide_well_formed st : Spec.well_formed st → Spec.well_formed (Editor.deleteSlide st).
Proof.
  intros (p & Hp & Hv & Hc).
  destruct (decide (1 < length (Editor.slides_of p))) as [Hlen|Hlen].
  - destruct (deleteSlide_slides st p Hp Hlen) as (p' & Hp' & Hs & Hc').
    exists p'. split; [done|]. rewrite Hc', Hs. split; [by apply Forall_delete|lia].
  - exists p. unfold Editor.deleteSlide. rewrite Hp.
    destruct (Nat.leb_spec (length (Editor.slides_of p)) 1); [|lia]. done.
Qed.

Lemma changeBackground_well_formed b st :
  Spec.valid_background b → Spec.well_formed st →
  Spec.well_formed (Editor.changeBackground b st).
Proof.
  intros Hb (p & Hp & Hv & Hc). unfold Editor.changeBackground, Editor.updateSlide.
  rewrite Hp. eexists. split; [reflexivity|]. rewrite slides_of_with_slides.
  cbn [Editor.currentSlideIndex Editor.setPresentation].
  destruct (Editor.slides_of p !! Editor.currentSlideIndex st) as [slide|] eqn:Hs; [|done].
  pose proof Hv as Hv'. rewrite Forall_lookup in Hv'.
  destruct (Hv' _ _ Hs) as (id & t & c & b0 & ts & cs & -> & Hid & Ht & _ & Hts & Hcs).
  cbn [truthy own_props]. rewrite spread_one_field, valid_slide_with_background.
  rewrite length_insert. split; [|done].
  apply Forall_insert; [done|]. by eexists _, _, _, _, _, _.
Qed.

Lemma handleDragSort_well_formed from to st :
  Spec.well_formed st →
  (∀ p, Editor.presentation st = Some p → from < length (Editor.slides_of p)) →
  Spec.well_formed (Editor.handleDragSort (Some from) (Some to) st).
Proof.
  intros (p & Hp & Hv & Hc) Hfrom.
  destruct (lookup_lt_is_Some_2 _ _ (Hfrom p Hp)) as [x Hx].
  destruct (handleDragSort_slides st p from to x Hp Hx) as (p' & Hp' & Hs & Hc').
  assert (Hperm : Editor.slides_of p' ≡ₚ Editor.slides_of p).
  { rewrite Hs, splice_in_Permutation. symmetry. by apply delete_Permutation. }
  exists p'. split; [done|]. rewrite Hc'. split; [by rewrite Hperm|by rewrite Hperm].
Qed.

(** X14. The editor keeps its state in good order.  Opening a stored
    presentation gives a state whose slides are all valid and whose cursor
    is on a slide, and from such a state the arrows, adding a slide,
    deleting the current slide, changing the background to a valid one and
    reordering by drag and drop all lead to such a state again. *)
Theorem editing_keeps_well_formed (st : Editor.State) :
  (∀ clock id ls, Api.getPresentation id ls ≠ VNull →
     Spec.well_formed (Editor.mountEffect clock id ls st)) ∧
  (Spec.well_formed st →
     Spec.well_formed (Editor.goToNextSlide st) ∧
     Spec.well_formed (Editor.goToPrevSlide st) ∧
     (∀ now, Spec.well_formed (Editor.addSlide now st)) ∧
     Spec.well_formed (Editor.deleteSlide st) ∧
     (∀ b, Spec.valid_background b → Spec.well_formed (Editor.changeBackground b st)) ∧
     (∀ from to, (∀ p, Editor.presentation st = Some p → from < length (Editor.slides_of p)) →
        Spec.well_formed (Editor.handleDragSort (Some from) (Some to) st))).
Proof.
  split.
  - intros clock id ls Hfound. unfold Editor.mountEffect.
    destruct (getPresentation_cases id ls) as [? | (q & -> & Hq & Hid)]; [done|].
    destruct (normalize_record_fixed clock q Hq) as (p & Hp & _).
    rewrite Hp. exists p. split; [done|].
    split; [by apply (normalize_slides_valid clock q)|cbn; lia].
  - intros Hwf. pose proof Hwf as (p & Hp & Hv & Hc).
    split; [|split; [|split; [|split; [|split]]]].
    + rewrite (goToNextSlide_eq st p Hp). case_decide; [|done].
      exists p. split; [done|]. split; [done|cbn; lia].
    + rewrite goToPrevSlide_eq. case_decide; [|done].
      exists p. split; [done|]. split; [done|cbn; lia].
    + intros now. by apply addSlide_well_formed.
    + by apply deleteSlide_well_formed.
    + intros b Hb. by apply changeBackground_well_formed.
    + intros from to Hfrom. by apply handleDragSort_well_formed.
Qed.

Lemma editing_keeps_well_formed_witness :
  let ls := {| Api.items :=
                 {["presentations" :=
                     Api.Json (VArr [VObj (obj [("id", VStr "1");
                                                ("slides", VArr [VNull; VStr "x"])])])]};
               Api.writable := true |} in
  let st := {| Editor.presentation := None; Editor.currentSlideIndex := 5;
               Editor.isLoading := true; Editor.error := None;
               Editor.gallerySearchQuery := ""; Editor.galleryImages := [];
               Editor.isSearching := false |} in
  Spec.well_formed (Editor.deleteSlide (Editor.mountEffect (λ _, 5%Z) "1" ls st)).
Proof.
  intros ls st.
  destruct (editing_keeps_well_formed st) as [Hmount _].
  destruct (editing_keeps_well_formed (Editor.mountEffect (λ _, 5%Z) "1" ls st)) as [_ Hkeep].
  assert (Hfound : Api.getPresentation "1" ls ≠ VNull) by (vm_compute; discriminate).
  destruct (Hkeep (Hmount (λ _, 5%Z) "1" ls Hfound)) as (_ & _ & _ & Hdelete & _).
  exact Hdelete.
Defined.

(** ** Saving, listing and deleting stored presentations *)

Lemma findIndex_Some f l i :
  Api.findIndex f l = Some i →
  ∃ x, l !! i = Some x ∧ f x = true ∧ Forall (λ y, f y = false) (take i l).
Proof.
  revert i. induction l as [|y l IH]; intros i; [done|]. cbn [Api.findIndex].
  destruct (f y) eqn:Hy.
  - intros [= <-]. exists y. by repeat split.
  - destruct (Api.findIndex f l) as [j|]; [|done]. intros [= <-].
    destruct (IH j eq_refl) as (x & Hx & Hfx & Hall).
    exists x. split; [done|]. split; [done|]. cbn [take]. by constructor.
Qed.

Lemma findIndex_None f l : Api.findIndex f l = None → Forall (λ y, f y = false) l.
Proof.
  induction l as [|y l IH]; [constructor|]. cbn [Api.findIndex].
  destruct (f y) eqn:Hy; [done|]. destruct (Api.findIndex f l); [done|].
  intros _. constructor; [done|]. by apply IH.
Qed.

Lemma findIndex_insert f l i q :
  Api.findIndex f l = Some i → f q = true → Api.findIndex f (<[i := q]> l) = Some i.
Proof.
  revert i. induction l as [|y l IH]; intros i; [done|]. cbn [Api.findIndex].
  destruct (f y) eqn:Hy.
  - intros [= <-] Hq. cbn [insert list_insert Api.findIndex]. by rewrite Hq.
  - destruct (Api.findIndex f l) as [j|]; [|done]. intros [= <-] Hq.
    change (<[S j := q]> (y :: l)) with (y :: <[j := q]> l).
    cbn [Api.findIndex]. by rewrite Hy, (IH j eq_refl Hq).
Qed.

Lemma findIndex_app_new f l q :
  Api.findIndex f l = None → f q = true → Api.findIndex f (l ++ [q]) = Some (length l).
Proof.
  induction l as [|y l IH]; cbn [Api.findIndex app length].
  - intros _ ->. done.
  - destruct (f y); [done|]. destruct (Api.findIndex f l); [done|].
    intros _ Hq. by rewrite (IH eq_refl Hq).
Qed.

Lemma omap_cleanEntry_insert l i p q :
  Forall (λ x, Api.cleanEntry x = Some x) l → i < length l → Api.cleanEntry p = Some q →
  omap Api.cleanEntry (<[i := p]> l) = <[i := q]> l.
Proof.
  intros Hl. revert i. induction Hl as [|x l Hx Hl IH]; intros i Hi Hq; [cbn in Hi; lia|].
  destruct i as [|i].
  - change (<[0 := p]> (x :: l)) with (p :: l). change (<[0 := q]> (x :: l)) with (q :: l).
    cbn [omap list_omap]. rewrite Hq. f_equal. by apply omap_cleanEntry_fixed.
  - change (<[S i := p]> (x :: l)) with (x :: <[i := p]> l).
    change (<[S i := q]> (x :: l)) with (x :: <[i := q]> l).
    cbn [omap list_omap]. rewrite Hx. f_equal. apply IH; [cbn in Hi; lia|done].
Qed.

Lemma omap_cleanEntry_app l p :
  Forall (λ x, Api.cleanEntry x = Some x) l →
  omap Api.cleanEntry (l ++ [p]) = l ++ option_list (Api.cleanEntry p).
Proof.
  intros Hl. rewrite omap_app. rewrite (omap_cleanEntry_fixed l Hl). f_equal.
Qed.

Lemma find_insert_other (f : value → bool) (l : list value) i x q :
  l !! i = Some x → f x = false → f q = false →
  List.find f (<[i := q]> l) = List.find f l.
Proof.
  revert i. induction l as [|y l IH]; intros i; [done|].
  destruct i as [|i].
  - change (<[0 := q]> (y :: l)) with (q :: l). cbn [lookup list_lookup List.find].
    intros [= ->] -> ->. done.
  - change (<[S i := q]> (y :: l)) with (y :: <[i := q]> l). cbn [lookup list_lookup List.find].
    intros Hx Hfx Hq. destruct (f y); [done|]. by apply (IH i).
Qed.

Lemma find_app_other (f : value → bool) (l : list value) q : f q = false → List.find f (l ++ [q]) = List.find f l.
Proof.
  intros Hq. induction l as [|y l IH]; cbn [app List.find]; [by rewrite Hq|].
  by destruct (f y).
Qed.

Lemma has_id_text id p : prop p "id" = Some (VStr id) → Spec.has_id id p = true.
Proof. intros Hid. unfold Spec.has_id. rewrite Hid. cbn [strict_eq]. apply String.eqb_refl. Qed.

Lemma has_id_other id id' p :
  prop p "id" = Some (VStr id) → id' ≠ id → Spec.has_id id' p = false.
Proof.
  intros Hid Hne. unfold Spec.has_id. rewrite Hid. cbn [strict_eq].
  apply String.eqb_neq. congruence.
Qed.

Lemma has_id_empty q : Api.cleanEntry q = Some q → Spec.has_id "" q = false.
Proof.
  intros Hq. destruct (cleanEntry_Some q q Hq) as (idv & Hid & Ht & _).
  unfold Spec.has_id. rewrite Hid. destruct idv; try done. cbn [strict_eq truthy] in *.
  by apply negb_true_iff in Ht.
Qed.

Lemma savePresentation_store p id ls :
  prop p "id" = Some (VStr id) → Api.writable ls = true →
  (Api.savePresentation p ls).1 =
  {| Api.items :=
       <["presentations" :=
           Api.Json (VArr match Api.findIndex (Spec.has_id id)
                                  (Api._getAndCleanPresentations ls) with
                          | Some i => <[i := p]> (Api._getAndCleanPresentations ls)
                          | None => Api._getAndCleanPresentations ls ++ [p]
                          end)]> (Api.items ls);
     Api.writable := true |}.
Proof.
  intros Hid Hw. unfold Api.savePresentation, Api.setItem. rewrite Hw, Hid. reflexivity.
Qed.

Lemma cleaned_after_save p q id ls :
  prop p "id" = Some (VStr id) → Api.cleanEntry p = Some q → Api.writable ls = true →
  Api._getAndCleanPresentations (Api.savePresentation p ls).1 =
  match Api.findIndex (Spec.has_id id) (Api._getAndCleanPresentations ls) with
  | Some i => <[i := q]> (Api._getAndCleanPresentations ls)
  | None => Api._getAndCleanPresentations ls ++ [q]
  end.
Proof.
  intros Hid Hq Hw. rewrite (savePresentation_store p id ls Hid Hw).
  unfold Api._getAndCleanPresentations at 1. unfold Api.getItem. cbn [Api.items].
  rewrite lookup_insert_eq. pose proof (cleaned_all_fixed ls) as Hall.
  destruct (Api.findIndex _ _) as [i|] eqn:Hi.
  - apply omap_cleanEntry_insert; [done| |done].
    destruct (findIndex_Some _ _ _ Hi) as (x & Hx & _). by apply lookup_lt_Some in Hx.
  - rewrite (omap_cleanEntry_app _ p Hall), Hq. done.
Qed.

(** X15. Saving is an insert-or-replace by id.  In a store that accepts the
    write, saving a presentation with a non-empty text id replaces the first
    stored record with that id, in place, or is appended when there is none;
    the stored count stays or grows by one accordingly; every other id
    loads what it loaded before; and no other key of the store is touched. *)
Theorem savePresentation_upsert (p : value) (id : string) (ls : Api.LocalStorage) :
  prop p "id" = Some (VStr id) → id ≠ "" → Api.writable ls = true →
  let before := Api._getAndCleanPresentations ls in
  let ls' := (Api.savePresentation p ls).1 in
  let after := Api._getAndCleanPresentations ls' in
  ∃ q, Api.cleanEntry p = Some q ∧
    match Api.findIndex (Spec.has_id id) before with
    | Some i => after = <[i := q]> before ∧ i < length before ∧ length after = length before
    | None => after = before ++ [q] ∧ length after = length before + 1
    end ∧
    (∀ id', id' ≠ id → Api.getPresentation id' ls' = Api.getPresentation id' ls) ∧
    (∀ key, key ≠ "presentations" → Api.getItem key ls' = Api.getItem key ls).
Proof.
  intros Hid Hne Hw before ls' after.
  assert (Hq : ∃ q, Api.cleanEntry p = Some q).
  { unfold Api.cleanEntry. destruct p; try done. rewrite Hid. cbn [truthy].
    apply String.eqb_neq in Hne. rewrite Hne. eauto. }
  destruct Hq as [q Hq]. exists q. split; [done|].
  assert (Hafter : after = match Api.findIndex (Spec.has_id id) before with
                           | Some i => <[i := q]> before
                           | None => before ++ [q]
                           end) by by apply cleaned_after_save.
  assert (Hqid : prop q "id" = Some (VStr id)) by by rewrite (cleanEntry_id p q Hq).
  split; [|split].
  - destruct (Api.findIndex _ before) as [i|] eqn:Hi.
    + destruct (findIndex_Some _ _ _ Hi) as (x & Hx & _). apply lookup_lt_Some in Hx.
      by rewrite Hafter, length_insert.
    + rewrite Hafter, length_app. by cbn.
  - intros id' Hne'. unfold Api.getPresentation. fold before after. rewrite Hafter.
    change (λ p0, strict_eq (prop p0 "id") (Some (VStr id'))) with (Spec.has_id id').
    f_equal. destruct (Api.findIndex _ before) as [i|] eqn:Hi.
    + destruct (findIndex_Some _ _ _ Hi) as (x & Hx & Hfx & _).
      apply (find_insert_other _ _ _ x); [done| |by apply (has_id_other id)].
      by apply (has_id_distinct id' id).
    + apply find_app_other. by apply (has_id_other id).
  - intros key Hkey. subst ls'. rewrite (savePresentation_store p id ls Hid Hw).
    unfold Api.getItem. cbn [Api.items]. by rewrite lookup_insert_ne.
Qed.

Lemma savePresentation_upsert_witness :
  let record (id title : string) :=
    VObj (obj [("id", VStr id); ("userId", VStr "u"); ("title", VStr title);
               ("slides", VArr []); ("theme", VStr "Default");
               ("createdAt", VStr "2024-01-01T00:00:00.000Z")]) in
  let ls := {| Api.items :=
                 {["presentations" := Api.Json (VArr [record "a" "A"; record "b" "B"])]};
               Api.writable := true |} in
  Api.getPresentation "a" (Api.savePresentation (record "b" "B2") ls).1 = record "a" "A" ∧
  Api.getItem "users" (Api.savePresentation (record "b" "B2") ls).1 = None.
Proof.
  intros record ls.
  destruct (savePresentation_upsert (record "b" "B2") "b" ls)
    as (q & _ & _ & Hframe & Hkeys); [reflexivity|done|reflexivity|].
  split.
  - rewrite (Hframe "a") by done. vm_compute. reflexivity.
  - rewrite (Hkeys "users") by done. reflexivity.
Defined.

(** X16. Saving twice is saving once: a second save of the same
    presentation leaves the store exactly as the first one left it, whether
    the store accepts writes or not, and also for an id that is the empty
    text. *)
Theorem savePresentation_idempotent (p : value) (id : string) (ls : Api.LocalStorage) :
  prop p "id" = Some (VStr id) →
  (Api.savePresentation p (Api.savePresentation p ls).1).1 = (Api.savePresentation p ls).1.
Proof.
  intros Hid. destruct (Api.writable ls) eqn:Hw.
  2: { assert (Hsame : (Api.savePresentation p ls).1 = ls).
       { unfold Api.savePresentation, Api.setItem. by rewrite Hw. }
       by rewrite !Hsame. }
  set (ls1 := (Api.savePresentation p ls).1).
  assert (Hw1 : Api.writable ls1 = true).
  { subst ls1. by rewrite (savePresentation_store p id ls Hid Hw). }
  rewrite (savePresentation_store p id ls1 Hid Hw1).
  assert (Hitems : Api.items ls1 = <["presentations" :=
            Api.Json (VArr match Api.findIndex (Spec.has_id id)
                                   (Api._getAndCleanPresentations ls) with
                           | Some i => <[i := p]> (Api._getAndCleanPresentations ls)
                           | None => Api._getAndCleanPresentations ls ++ [p]
                           end)]> (Api.items ls)).
  { subst ls1. by rewrite (savePresentation_store p id ls Hid Hw). }
  assert (Hls1 : ls1 = {| Api.items := Api.items ls1; Api.writable := true |}).
  { destruct ls1. cbn in *. by rewrite Hw1. }
  rewrite Hls1 at 3. f_equal. rewrite Hitems at 2. rewrite Hitems at 1.
  rewrite insert_insert_eq. do 3 f_equal.
  pose proof (cleaned_all_fixed ls) as Hall.
  set (C := Api._getAndCleanPresentations ls) in *.
  destruct (Api.cleanEntry p) as [q|] eqn:Hq.
  - change (Api._getAndCleanPresentations ls1)
      with (Api._getAndCleanPresentations (Api.savePresentation p ls).1).
    rewrite (cleaned_after_save p q id ls Hid Hq Hw). fold C.
    assert (Hqid : Spec.has_id id q = true).
    { apply has_id_text. by rewrite (cleanEntry_id p q Hq). }
    destruct (Api.findIndex (Spec.has_id id) C) as [i|] eqn:Hi.
    + rewrite (findIndex_insert _ _ _ _ Hi Hqid). apply list_insert_insert_eq.
    + rewrite (findIndex_app_new _ _ _ Hi Hqid).
      rewrite insert_app_r_alt by done. by rewrite Nat.sub_diag.
  - assert (Hempty : id = "").
    { unfold Api.cleanEntry in Hq. destruct p; try done. rewrite Hid in Hq.
      cbn [truthy] in Hq. destruct (String.eqb_spec id ""); [done|]. done. }
    subst id.
    assert (Hnone : Api.findIndex (Spec.has_id "") C = None).
    { clear -Hall. induction Hall as [|x l Hx _ IH]; [done|]. cbn [Api.findIndex].
      by rewrite (has_id_empty x Hx), IH. }
    assert (Hclean1 : Api._getAndCleanPresentations ls1 = C).
    { unfold Api._getAndCleanPresentations at 1. unfold Api.getItem. rewrite Hitems.
      rewrite lookup_insert_eq. fold C. rewrite Hnone.
      rewrite (omap_cleanEntry_app _ p Hall), Hq. cbn. by rewrite app_nil_r. }
    by rewrite Hclean1, Hnone.
Qed.

Lemma savePresentation_idempotent_witness :
  let p := VObj (obj [("id", VStr "a"); ("title", VStr "A")]) in
  let ls := Sample.emptyStore in
  (Api.savePresentation p (Api.savePresentation p ls).1).1 = (Api.savePresentation p ls).1.
Proof.
  intros p ls. apply (savePresentation_idempotent p "a" ls). reflexivity.
Defined.

Lemma cleaned_after_delete id ls :
  Api.writable ls = true →
  Api._getAndCleanPresentations (Api.deletePresentation id ls) =
  List.filter (λ p, negb (Spec.has_id id p)) (Api._getAndCleanPresentations ls).
Proof.
  intros Hw. unfold Api.deletePresentation.
  destruct (Api.setItem _ _ ls) as [ls1|] eqn:Hset.
  - rewrite (cleaned_after_setItem _ _ _ Hset).
    apply omap_cleanEntry_fixed, Forall_filter_bool, cleaned_all_fixed.
  - unfold Api.setItem in Hset. by rewrite Hw in Hset.
Qed.

Lemma toMeta_id q : Api.cleanEntry q = Some q → prop (Api.toMeta q) "id" = prop q "id".
Proof.
  intros Hq. destruct (cleanEntry_Some q q Hq) as (idv & Hid & _ & _).
  unfold Api.toMeta. rewrite Hid. reflexivity.
Qed.

Lemma filter_fmap_toMeta id l :
  Forall (λ q, Api.cleanEntry q = Some q) l →
  List.filter (λ p, negb (strict_eq (prop p "id") (Some (VStr id)))) (Api.toMeta <$> l) =
  Api.toMeta <$> List.filter (λ p, negb (Spec.has_id id p)) l.
Proof.
  induction 1 as [|q l Hq _ IH]; [done|].
  cbn [fmap list_fmap List.filter]. fold (fmap (M := list) Api.toMeta l).
  unfold Spec.has_id at 1. rewrite (toMeta_id q Hq), IH.
  by destruct (negb _).
Qed.

Lemma filter_filter_comm {A} (f g : A → bool) l :
  List.filter f (List.filter g l) = List.filter g (List.filter f l).
Proof.
  induction l as [|x l IH]; [done|]. cbn [List.filter].
  destruct (f x) eqn:Hf, (g x) eqn:Hg; cbn [List.filter]; rewrite ?Hf, ?Hg, ?IH; done.
Qed.

(** X17. Deleting from the dashboard.  Declining the confirmation changes
    neither the store nor the list shown.  After a confirmed deletion in a
    store that accepts the write, the list shown is exactly what the
    dashboard would load afresh from the store.  When the store refuses the
    write the store is unchanged, so the list shown has lost an entry that a
    fresh load still shows. *)
Theorem handleDelete_in_step (userId id : string) (ls : Api.LocalStorage) :
  let shown := Dashboard.mountEffect userId ls in
  Dashboard.handleDelete false id ls shown = (ls, shown) ∧
  (Api.writable ls = true →
     (Dashboard.handleDelete true id ls shown).2 =
     Dashboard.mountEffect userId (Dashboard.handleDelete true id ls shown).1) ∧
  (Api.writable ls = false →
     (Dashboard.handleDelete true id ls shown).1 = ls ∧
     ∀ meta, meta ∈ shown → prop meta "id" = Some (VStr id) →
       (meta ∉ (Dashboard.handleDelete true id ls shown).2) ∧
       (meta ∈ Dashboard.mountEffect userId (Dashboard.handleDelete true id ls shown).1)).
Proof.
  intros shown. split; [done|]. split.
  - intros Hw. unfold Dashboard.handleDelete. cbn [fst snd].
    subst shown. unfold Dashboard.mountEffect, Api.getPresentationsMeta.
    rewrite (cleaned_after_delete id ls Hw).
    rewrite filter_fmap_toMeta by apply Forall_filter_bool, cleaned_all_fixed.
    by rewrite filter_filter_comm.
  - intros Hw.
    assert (Hsame : Api.deletePresentation id ls = ls).
    { unfold Api.deletePresentation, Api.setItem. by rewrite Hw. }
    unfold Dashboard.handleDelete. cbn [fst snd]. rewrite Hsame. split; [done|].
    intros meta Hin Hid. split; [|done].
    rewrite list_elem_of_In, List.filter_In. intros [_ Hkeep].
    rewrite Hid in Hkeep. cbn [strict_eq] in Hkeep. by rewrite String.eqb_refl in Hkeep.
Qed.

Lemma handleDelete_in_step_witness :
  let record (id : string) :=
    VObj (obj [("id", VStr id); ("userId", VStr "u"); ("title", VStr "T");
               ("slides", VArr []); ("theme", VStr "Default");
               ("createdAt", VStr "2024-01-01T00:00:00.000Z")]) in
  let ls := {| Api.items := {["presentations" := Api.Json (VArr [record "a"; record "b"])]};
               Api.writable := true |} in
  let shown := Dashboard.mountEffect "u" ls in
  (Dashboard.handleDelete true "a" ls shown).2 =
  Dashboard.mountEffect "u" (Dashboard.handleDelete true "a" ls shown).1.
Proof.
  intros record ls shown.
  destruct (handleDelete_in_step "u" "a" ls) as (_ & Hsync & _).
  apply Hsync. reflexivity.
Defined.

(** X18. A saved presentation shows up on its owner's dashboard: after a
    save into a store that accepts the write, the owner's list has an entry
    with the presentation's id, its title (or the default title), and the
    number of its slides, and the full listing has the records of that
    owner only. *)
Theorem saved_presentation_is_listed (p : value) (id userId : string)
    (ls : Api.LocalStorage) :
  prop p "id" = Some (VStr id) → id ≠ "" →
  prop p "userId" = Some (VStr userId) → userId ≠ "" →
  Api.writable ls = true →
  let ls' := (Api.savePresentation p ls).1 in
  VObj (obj [("id", VStr id);
             ("title", js_or (prop p "title") (VStr "Untitled Presentation"));
             ("slideCount", num (Z.of_nat (length (array_or_empty (prop p "slides")))));
             ("createdAt", js_or (prop p "createdAt") (VStr "1970-01-01T00:00:00.000Z"))])
    ∈ Api.getPresentationsMeta userId ls' ∧
  length (Api.getPresentationsMeta userId ls') = length (Api.getPresentations userId ls') ∧
  Forall (λ q, prop q "userId" = Some (VStr userId)) (Api.getPresentations userId ls').
Proof.
  intros Hid Hne Hu Hune Hw ls'.
  assert (Hq : ∃ q, Api.cleanEntry p = Some q).
  { unfold Api.cleanEntry. destruct p; try done. rewrite Hid. cbn [truthy].
    apply String.eqb_neq in Hne. rewrite Hne. eauto. }
  destruct Hq as [q Hq].
  assert (Hin : q ∈ Api._getAndCleanPresentations ls').
  { subst ls'. rewrite (cleaned_after_save p q id ls Hid Hq Hw).
    destruct (Api.findIndex _ _) as [i|] eqn:Hi.
    - destruct (findIndex_Some _ _ _ Hi) as (x & Hx & _). apply lookup_lt_Some in Hx.
      apply list_elem_of_lookup. exists i. by apply list_lookup_insert_eq.
    - set_solver. }
  destruct (cleanEntry_Some p q Hq) as (idv & Hidv & _ & Heq).
  rewrite Hid in Hidv. injection Hidv as <-.
  assert (Hqu : prop q "userId" = Some (VStr userId)).
  { rewrite Heq, Hu. cbn [js_or truthy]. apply String.eqb_neq in Hune. by rewrite Hune. }
  split; [|split].
  - unfold Api.getPresentationsMeta. apply list_elem_of_fmap. exists q. split.
    + unfold Api.toMeta. by rewrite Heq.
    + rewrite list_elem_of_In, List.filter_In, <-list_elem_of_In. split; [done|].
      rewrite Hqu. cbn [strict_eq]. apply String.eqb_refl.
  - unfold Api.getPresentationsMeta, Api.getPresentations. by rewrite length_fmap.
  - unfold Api.getPresentations. apply Forall_forall. intros x.
    rewrite list_elem_of_In, List.filter_In. intros [_ Hx].
    destruct (prop x "userId") as [[]|]; try done. cbn [strict_eq] in Hx.
    by apply String.eqb_eq in Hx as ->.
Qed.

Lemma saved_presentation_is_listed_witness :
  let p := VObj (obj [("id", VStr "a"); ("userId", VStr "u");
                      ("slides", VArr [VNull; VNull])]) in
  VObj (obj [("id", VStr "a"); ("title", VStr "Untitled Presentation");
             ("slideCount", num 2); ("createdAt", VStr "1970-01-01T00:00:00.000Z")])
    ∈ Api.getPresentationsMeta "u" (Api.savePresentation p Sample.emptyStore).1.
Proof.
  intros p.
  destruct (saved_presentation_is_listed p "a" "u" Sample.emptyStore) as [Hin _];
    [reflexivity|done|reflexivity|done|reflexivity|].
  exact Hin.
Defined.

(** ** Accounts and sessions *)

Lemma findByEmail_not_found email users :
  Api.findByEmail email users = Some None →
  ∀ newUser, prop newUser "email" = Some (VStr email) → newUser ≠ VNull →
    Api.findByEmail email (users ++ [newUser]) = Some (Some newUser).
Proof.
  intros Hnone newUser Hemail Hnn. induction users as [|u users IH].
  - cbn [app Api.findByEmail]. destruct newUser; try done.
    cbn [member]. rewrite Hemail. cbn [strict_eq]. by rewrite String.eqb_refl.
  - cbn [app Api.findByEmail] in *. destruct (member u "email") as [e|]; [|done].
    destruct (strict_eq e (Some (VStr email))); [done|]. by apply IH.
Qed.

Lemma findByEmail_found email users u :
  Api.findByEmail email users = Some (Some u) →
  u ∈ users ∧ prop u "email" = Some (VStr email) ∧ truthy u = true.
Proof.
  induction users as [|x users IH]; [done|]. cbn [Api.findByEmail].
  destruct (member x "email") as [e|] eqn:He; [|done].
  destruct (strict_eq e (Some (VStr email))) eqn:Heq.
  - intros [= <-]. split; [by constructor|].
    destruct x; try done; cbn [member prop] in *; injection He as <-;
      destruct (_ !! "email") as [[]|] eqn:Hl || idtac; try done.
    cbn [strict_eq] in Heq. apply String.eqb_eq in Heq as ->. done.
  - intros Hrest. destruct (IH Hrest) as (Hin & Hemail & Ht). split; [by constructor|done].
Qed.

Lemma setItem_writable key v ls :
  Api.writable ls = true →
  Api.setItem key v ls =
  Some {| Api.items := <[key := Api.Json v]> (Api.items ls); Api.writable := true |}.
Proof. intros Hw. unfold Api.setItem. by rewrite Hw. Qed.

Lemma signup_new now name email password_raw b users :
  Api.writable (Api.storage b) = true → Api.passwordWritable b = true →
  Api.storedUsers b = VArr users →
  Api.findByEmail email users = Some None →
  Api.signup now name email password_raw b =
  ({| Api.storage :=
        {| Api.items :=
             <["users" := Api.Json (VArr (users ++
                 [VObj (obj [("id", VStr (pretty now)); ("name", VStr name);
                             ("email", VStr email)])]))]> (Api.items (Api.storage b));
           Api.writable := true |};
      Api.passwords := <[email := password_raw]> (Api.passwords b);
      Api.passwordWritable := true |},
   Async.ret (VObj (obj [("id", VStr (pretty now)); ("name", VStr name);
                         ("email", VStr email)]))).
Proof.
  intros Hw Hpw Hu Hf. unfold Api.signup. rewrite Hu, Hf. cbn [Api.found].
  by rewrite (setItem_writable _ _ _ Hw), Hpw.
Qed.

Lemma signup_half_written now name email password_raw b users :
  Api.writable (Api.storage b) = true → Api.passwordWritable b = false →
  Api.storedUsers b = VArr users →
  Api.findByEmail email users = Some None →
  Api.signup now name email password_raw b =
  ({| Api.storage :=
        {| Api.items :=
             <["users" := Api.Json (VArr (users ++
                 [VObj (obj [("id", VStr (pretty now)); ("name", VStr name);
                             ("email", VStr email)])]))]> (Api.items (Api.storage b));
           Api.writable := true |};
      Api.passwords := Api.passwords b;
      Api.passwordWritable := false |},
   Async.ret VNull).
Proof.
  intros Hw Hpw Hu Hf. unfold Api.signup. rewrite Hu, Hf. cbn [Api.found].
  by rewrite (setItem_writable _ _ _ Hw), Hpw.
Qed.

Lemma signup_taken now name email password_raw b users u :
  Api.storedUsers b = VArr users → Api.findByEmail email users = Some (Some u) →
  Api.signup now name email password_raw b = (b, Async.ret VNull).
Proof.
  intros Hu Hf. unfold Api.signup. rewrite Hu, Hf.
  destruct (findByEmail_found _ _ _ Hf) as (_ & _ & Ht). cbn [Api.found]. by rewrite Ht.
Qed.

Lemma login_Some email password_raw b b' u :
  Api.login email password_raw b = Some (b', u) →
  (u = VNull ∧ b' = b) ∨
  (∃ users, Api.storedUsers b = VArr users ∧
     Api.findByEmail email users = Some (Some u) ∧
     Api.passwords b !! email = Some password_raw ∧
     Api.setItem "currentUser" u (Api.storage b) = Some (Api.storage b') ∧
     Api.passwords b' = Api.passwords b).
Proof.
  unfold Api.login. destruct (Api.storedUsers b) as [| | | |users|]; try done.
  destruct (Api.findByEmail email users) as [[x|]|] eqn:Hf; try done.
  - destruct (truthy x && _) eqn:Hc.
    + apply andb_true_iff in Hc as [Ht Hpw]. apply bool_decide_eq_true in Hpw.
      destruct (Api.setItem _ _ _) as [ls'|] eqn:Hset.
      * intros [= <- <-]. right. exists users. by repeat split.
      * intros [= <- <-]. by left.
    + intros [= <- <-]. by left.
  - intros [= <- <-]. by left.
Qed.

(** X19. An account that was just created can sign in.  With a store that
    accepts every write and an email that no stored user has, [signup] resolves
    with the new user; signing in with that email and password then
    returns this user and records the session; any other password is
    turned down and changes nothing; signing up again with the same email
    resolves with [null] and changes nothing; and the recorded session
    survives a reload exactly when the name and the email are not empty. *)
Theorem signup_then_login (now : Z) (name email password_raw : string)
    (b : Api.Browser) (users : list value) :
  Api.writable (Api.storage b) = true → Api.passwordWritable b = true →
  Api.storedUsers b = VArr users →
  Api.findByEmail email users = Some None →
  let newUser := VObj (obj [("id", VStr (pretty now)); ("name", VStr name);
                            ("email", VStr email)]) in
  let b1 := (Api.signup now name email password_raw b).1 in
  (Api.signup now name email password_raw b).2 = Async.ret newUser ∧
  (∃ b2, Api.login email password_raw b1 = Some (b2, newUser) ∧
     Api.getItem "currentUser" (Api.storage b2) = Some (Api.Json newUser) ∧
     Api.getCurrentUser b2 = if nonempty name && nonempty email then newUser else VNull) ∧
  (∀ other, other ≠ password_raw → Api.login email other b1 = Some (b1, VNull)) ∧
  (∀ now' name' password', Api.signup now' name' email password' b1 = (b1, Async.ret VNull)).
Proof.
  intros Hw Hpw Hu Hf newUser b1.
  assert (Hb1 : b1 = {| Api.storage :=
        {| Api.items := <["users" := Api.Json (VArr (users ++ [newUser]))]>
                          (Api.items (Api.storage b));
           Api.writable := true |};
      Api.passwords := <[email := password_raw]> (Api.passwords b);
      Api.passwordWritable := true |}).
  { subst b1. by rewrite (signup_new now name email password_raw b users Hw Hpw Hu Hf). }
  assert (Hu1 : Api.storedUsers b1 = VArr (users ++ [newUser])).
  { rewrite Hb1. unfold Api.storedUsers, Api.getItem. cbn [Api.storage Api.items].
    by rewrite lookup_insert_eq. }
  assert (Hf1 : Api.findByEmail email (users ++ [newUser]) = Some (Some newUser)).
  { by apply findByEmail_not_found. }
  assert (Hp1 : Api.passwords b1 !! email = Some password_raw).
  { rewrite Hb1. cbn [Api.passwords]. by rewrite lookup_insert_eq. }
  assert (Hw1 : Api.writable (Api.storage b1) = true) by by rewrite Hb1.
  split; [by rewrite (signup_new now name email password_raw b users Hw Hpw Hu Hf)|].
  split; [|split].
  - unfold Api.login. rewrite Hu1, Hf1, Hp1, (setItem_writable _ _ _ Hw1).
    rewrite bool_decide_eq_true_2 by done. cbn [truthy andb].
    eexists. split; [reflexivity|]. unfold Api.getCurrentUser, Api.getItem.
    cbn [Api.storage Api.items]. rewrite lookup_insert_eq. split; [done|].
    assert (Hid : truthy (VStr (pretty now)) = true).
    { cbn [truthy]. apply negb_true_iff, String.eqb_neq, pretty_Z_nonempty. }
    subst newUser. rewrite !prop_obj.
    cbn [List.find fst snd String.eqb Ascii.eqb Bool.eqb fmap option_fmap option_map
         Api.found].
    rewrite Hid. cbn [truthy andb]. unfold nonempty. done.
  - intros other Hne. unfold Api.login. rewrite Hu1, Hf1, Hp1.
    rewrite bool_decide_eq_false_2 by congruence. by rewrite andb_false_r.
  - intros now' name' password'. unfold Api.signup. by rewrite Hu1, Hf1.
Qed.

Lemma signup_then_login_witness :
  let b := {| Api.storage := Sample.emptyStore; Api.passwords := ∅;
              Api.passwordWritable := true |} in
  let b1 := (Api.signup 7 "Ann" "ann@x.org" "secret1" b).1 in
  Api.login "ann@x.org" "secret2" b1 = Some (b1, VNull).
Proof.
  intros b b1.
  destruct (signup_then_login 7 "Ann" "ann@x.org" "secret1" b [])
    as (_ & _ & Hother & _); [reflexivity..|].
  apply Hother. done.
Defined.

(** X20. Signing up is not all or nothing; it has three outcomes.  When
    the email is free and both writes go through, the promise resolves with
    the new user, the user is appended to the stored users and the password
    is recorded.  When the email is taken, the stored users cannot be
    searched or the first write is refused, nothing changes, and the
    promise resolves with [null] or rejects.  When the first write goes
    through and the second is refused, the promise resolves with [null]
    although the user has been stored, without a password: from then on
    that email is turned down at every sign-up, and at every sign-in too
    unless a password was recorded for it before.  No other email's
    password is ever touched. *)
Theorem signup_outcomes (now : Z) (name email password_raw : string) (b : Api.Browser) :
  let b' := (Api.signup now name email password_raw b).1 in
  let promise := (Api.signup now name email password_raw b).2 in
  let newUser := VObj (obj [("id", VStr (pretty now)); ("name", VStr name);
                            ("email", VStr email)]) in
  (∀ users, Api.storedUsers b = VArr users → Api.findByEmail email users = Some None →
     Api.writable (Api.storage b) = true →
     Api.storedUsers b' = VArr (users ++ [newUser]) ∧
     (Api.passwordWritable b = true →
        promise = Async.ret newUser ∧
        Api.passwords b' = <[email := password_raw]> (Api.passwords b)) ∧
     (Api.passwordWritable b = false →
        promise = Async.ret VNull ∧ Api.passwords b' = Api.passwords b ∧
        (∀ now' name' password',
           Api.signup now' name' email password' b' = (b', Async.ret VNull)) ∧
        (Api.passwords b !! email = None →
           ∀ password, Api.login email password b' = Some (b', VNull)))) ∧
  (∀ users u, Api.storedUsers b = VArr users →
     Api.findByEmail email users = Some (Some u) →
     b' = b ∧ promise = Async.ret VNull) ∧
  (Api.writable (Api.storage b) = false →
     b' = b ∧ (promise = Async.ret VNull ∨ promise = Async.reject)) ∧
  ((∀ users, Api.storedUsers b = VArr users → Api.findByEmail email users = None) →
     b' = b ∧ promise = Async.reject) ∧
  (∀ other, other ≠ email → Api.passwords b' !! other = Api.passwords b !! other).
Proof.
  intros b' promise newUser. subst b' promise.
  split; [|split; [|split; [|split]]].
  - intros users Hu Hf Hw. subst newUser.
    set (newUser := VObj (obj [("id", VStr (pretty now)); ("name", VStr name);
                               ("email", VStr email)])).
    assert (Hhalf : Api.signup now name email password_raw b =
      ({| Api.storage :=
            {| Api.items := <["users" := Api.Json (VArr (users ++ [newUser]))]>
                              (Api.items (Api.storage b));
               Api.writable := true |};
          Api.passwords := Api.passwords b; Api.passwordWritable := false |},
       Async.ret VNull) ∨ Api.passwordWritable b = true).
    { destruct (Api.passwordWritable b) eqn:Hpw; [by right|left].
      apply (signup_half_written now name email password_raw b users Hw Hpw Hu Hf). }
    assert (Hf1 : Api.findByEmail email (users ++ [newUser]) = Some (Some newUser))
      by by apply findByEmail_not_found.
    destruct (Api.passwordWritable b) eqn:Hpw.
    + rewrite (signup_new now name email password_raw b users Hw Hpw Hu Hf).
      cbn [fst snd Api.passwords]. split.
      { unfold Api.storedUsers, Api.getItem. cbn [Api.storage Api.items].
        by rewrite lookup_insert_eq. }
      split; [done|]. intros [=].
    + destruct Hhalf as [Hhalf|?]; [|congruence]. rewrite Hhalf.
      cbn [fst snd Api.passwords].
      assert (Hu1 : Api.storedUsers
                {| Api.storage :=
                     {| Api.items := <["users" := Api.Json (VArr (users ++ [newUser]))]>
                                       (Api.items (Api.storage b));
                        Api.writable := true |};
                   Api.passwords := Api.passwords b; Api.passwordWritable := false |}
              = VArr (users ++ [newUser])).
      { unfold Api.storedUsers, Api.getItem. cbn [Api.storage Api.items].
        by rewrite lookup_insert_eq. }
      split; [exact Hu1|]. split; [intros [=]|]. intros _.
      split; [done|]. split; [done|]. split.
      * intros now' name' password'.
        apply (signup_taken now' name' email password' _ _ newUser Hu1 Hf1).
      * intros Hnone password. unfold Api.login. rewrite Hu1, Hf1.
        cbn [Api.passwords]. rewrite Hnone.
        rewrite bool_decide_eq_false_2 by done. by rewrite andb_false_r.
  - intros users u Hu Hf. by rewrite (signup_taken now name email password_raw b users u Hu Hf).
  - intros Hw. unfold Api.signup, Api.setItem. rewrite Hw.
    destruct (Api.storedUsers b); try (split; [done|by right]).
    destruct (Api.findByEmail email l) as [x|]; [|split; [done|by right]].
    destruct (Api.found x); (split; [done|by left]).
  - intros Hthrows. unfold Api.signup.
    destruct (Api.storedUsers b) as [| | | |users|]; try done.
    by rewrite (Hthrows users eq_refl).
  - intros other Hne. unfold Api.signup.
    destruct (Api.storedUsers b) as [| | | |users|]; try done.
    destruct (Api.findByEmail email users) as [x|]; [|done].
    destruct (Api.found x); [done|].
    destruct (Api.setItem _ _ _); [|done].
    destruct (Api.passwordWritable b); [|done].
    cbn [fst Api.passwords]. by rewrite lookup_insert_ne.
Qed.

(** X21. Signing in is sound: [login] returns a user only if that user is
    stored with the email given and the password stored for this email is
    the one given, and then the session is recorded; in every other case in
    which it returns, it returns [null] and has changed nothing.  It throws
    exactly when the stored users are not an array or have a [null] element
    before any match. *)
Theorem login_sound (email password_raw : string) (b : Api.Browser) :
  (∀ b' u, Api.login email password_raw b = Some (b', u) →
     (u = VNull ∧ b' = b) ∨
     (∃ users, Api.storedUsers b = VArr users ∧ u ∈ users ∧
        prop u "email" = Some (VStr email) ∧
        Api.passwords b !! email = Some password_raw ∧
        Api.getItem "currentUser" (Api.storage b') = Some (Api.Json u) ∧
        Api.passwords b' = Api.passwords b)) ∧
  (Api.login email password_raw b = None ↔
     ∀ users, Api.storedUsers b = VArr users → Api.findByEmail email users = None).
Proof.
  split.
  - intros b' u Hlogin.
    destruct (login_Some _ _ _ _ _ Hlogin) as [?|(users & Hu & Hf & Hp & Hset & Hpw)];
      [by left|right].
    destruct (findByEmail_found _ _ _ Hf) as (Hin & Hemail & _).
    exists users. repeat split; try done.
    unfold Api.setItem in Hset. destruct (Api.writable _); [|done].
    injection Hset as <-. unfold Api.getItem. cbn [Api.items]. by rewrite lookup_insert_eq.
  - unfold Api.login. destruct (Api.storedUsers b) as [| | | |users|] eqn:Hu;
      try (split; [intros _ users' [=]|done]).
    destruct (Api.findByEmail email users) as [[x|]|] eqn:Hf.
    + split; [|intros Hall; specialize (Hall users eq_refl); congruence].
      destruct (truthy x && _); [destruct (Api.setItem _ _ _)|]; done.
    + split; [done|intros Hall; specialize (Hall users eq_refl); congruence].
    + split; [by intros _ users' [= <-]|done].
Qed.

Lemma logout_storedUsers b : Api.storedUsers (Api.logout b) = Api.storedUsers b.
Proof.
  unfold Api.storedUsers, Api.logout, Api.removeItem, Api.getItem.
  cbn [Api.storage Api.items]. by rewrite lookup_delete_ne.
Qed.

(** X22. Signing out ends the session and nothing else: afterwards there is
    no current user, while the stored users, passwords and presentations
    are as before, so that every sign-in is answered as it would have been
    before; signing out twice is signing out once. *)
Theorem logout_ends_session (b : Api.Browser) :
  Api.getCurrentUser (Api.logout b) = VNull ∧
  Api.storedUsers (Api.logout b) = Api.storedUsers b ∧
  Api.passwords (Api.logout b) = Api.passwords b ∧
  Api._getAndCleanPresentations (Api.storage (Api.logout b)) =
    Api._getAndCleanPresentations (Api.storage b) ∧
  (∀ email password_raw,
     snd <$> Api.login email password_raw (Api.logout b) =
     snd <$> Api.login email password_raw b) ∧
  Api.logout (Api.logout b) = Api.logout b.
Proof.
  split; [|split; [|split; [|split; [|split]]]].
  - unfold Api.getCurrentUser, Api.logout, Api.removeItem, Api.getItem.
    cbn [Api.storage Api.items]. by rewrite lookup_delete_eq.
  - apply logout_storedUsers.
  - done.
  - unfold Api._getAndCleanPresentations, Api.logout, Api.removeItem, Api.getItem.
    cbn [Api.storage Api.items]. by rewrite lookup_delete_ne.
  - intros email password_raw. unfold Api.login. rewrite logout_storedUsers.
    destruct (Api.storedUsers b) as [| | | |users|]; try done.
    destruct (Api.findByEmail email users) as [[x|]|]; try done.
    change (Api.passwords (Api.logout b)) with (Api.passwords b).
    destruct (truthy x && _); [|done].
    unfold Api.setItem, Api.logout, Api.removeItem. cbn [Api.storage Api.writable].
    by destruct (Api.writable (Api.storage b)).
  - unfold Api.logout, Api.removeItem. cbn [Api.storage Api.items Api.writable Api.passwords].
    by rewrite delete_delete_eq.
Qed.

Lemma signup_outcomes_witness :
  let b := {| Api.storage := Sample.emptyStore; Api.passwords := ∅;
              Api.passwordWritable := false |} in
  let b' := (Api.signup 7 "Ann" "ann@x.org" "secret1" b).1 in
  (Api.signup 7 "Ann" "ann@x.org" "secret1" b).2 = Async.ret VNull ∧
  Api.signup 8 "Ann" "ann@x.org" "secret1" b' = (b', Async.ret VNull) ∧
  Api.login "ann@x.org" "secret1" b' = Some (b', VNull).
Proof.
  intros b b'.
  destruct (signup_outcomes 7 "Ann" "ann@x.org" "secret1" b) as (Hfree & _).
  destruct (Hfree [] eq_refl eq_refl eq_refl) as (_ & _ & Hhalf).
  destruct (Hhalf eq_refl) as (Hnull & _ & Hagain & Hlogin).
  split; [exact Hnull|]. split; [apply Hagain|]. apply Hlogin. reflexivity.
Defined.

Lemma login_sound_witness :
  let ann := VObj (obj [("id", VStr "1"); ("name", VStr "Ann"); ("email", VStr "ann@x.org")]) in
  let b := {| Api.storage :=
                {| Api.items := {["users" := Api.Json (VArr [ann])]}; Api.writable := true |};
              Api.passwords := {["ann@x.org" := "secret1"]};
              Api.passwordWritable := true |} in
  ∃ b', Api.login "ann@x.org" "secret1" b = Some (b', ann) ∧
        Api.passwords b !! "ann@x.org" = Some "secret1".
Proof.
  intros ann b.
  assert (Hlogin : ∃ b', Api.login "ann@x.org" "secret1" b = Some (b', ann))
    by (eexists; reflexivity).
  destruct Hlogin as [b' Hlogin]. exists b'. split; [done|].
  destruct (login_sound "ann@x.org" "secret1" b) as [Hsound _].
  destruct (Hsound b' ann Hlogin) as [[Hnull _]|(users & _ & _ & _ & Hp & _)]; [done|done].
Defined.

(** X23. The sign-up page never reports a taken email.  A password of fewer
    than six characters is turned down with a message and nothing is asked
    of the store.  Any longer password ends in the success callback with no
    error shown, whatever [signup] did: also when the email is taken, or
    the store refuses the write, and the store is then unchanged.  The text
    about an existing account is never shown. *)
Theorem signUpSubmit_outcome (now : Z) (name email password : string)
    (b : Api.Browser) (st : Auth.State) :
  let out := Auth.signUpSubmit now name email password b st in
  (String.length password < 6 →
     Auth.onSignUpSuccess out = false ∧ Auth.signUpBrowser out = b ∧
     Auth.error (Auth.signUpState out) = "Password must be at least 6 characters." ∧
     Auth.isLoading (Auth.signUpState out) = Auth.isLoading st) ∧
  (6 ≤ String.length password →
     Auth.onSignUpSuccess out = true ∧
     Auth.signUpBrowser out = (Api.signup now name email password b).1 ∧
     Auth.error (Auth.signUpState out) = "" ∧
     Auth.isLoading (Auth.signUpState out) = false ∧
     (∀ users u, Api.storedUsers b = VArr users →
        Api.findByEmail email users = Some (Some u) → Auth.signUpBrowser out = b) ∧
     (Api.writable (Api.storage b) = false → Auth.signUpBrowser out = b)) ∧
  Auth.error (Auth.signUpState out) ≠ "An account with this email already exists.".
Proof.
  intros out. subst out. unfold Auth.signUpSubmit.
  destruct (Nat.ltb_spec (String.length password) 6) as [Hshort|Hlong].
  - split; [done|]. split; [lia|done].
  - split; [lia|].
    destruct (Api.signup now name email password b) as [b' newUser] eqn:Hs.
    cbn [Auth.truthy_promise Auth.onSignUpSuccess Auth.signUpBrowser Auth.signUpState
         Auth.error Auth.isLoading Auth.setError Auth.setIsLoading fst].
    split; [|done]. intros _. repeat split.
    + intros users u Hu Hf.
      rewrite (signup_taken now name email password b users u Hu Hf) in Hs. congruence.
    + intros Hw. unfold Api.signup, Api.setItem in Hs. rewrite Hw in Hs.
      destruct (Api.storedUsers b); try congruence.
      destruct (Api.findByEmail email l) as [x|]; [|congruence].
      destruct (Api.found x); congruence.
Qed.

Lemma signUpSubmit_outcome_witness :
  let ann := VObj (obj [("id", VStr "1"); ("name", VStr "Ann"); ("email", VStr "ann@x.org")]) in
  let b := {| Api.storage :=
                {| Api.items := {["users" := Api.Json (VArr [ann])]}; Api.writable := true |};
              Api.passwords := {["ann@x.org" := "secret1"]};
              Api.passwordWritable := true |} in
  let out := Auth.signUpSubmit 7 "Eve" "ann@x.org" "secret2" b
               {| Auth.error := ""; Auth.isLoading := false |} in
  Auth.onSignUpSuccess out = true ∧ Auth.signUpBrowser out = b.
Proof.
  intros ann b out.
  destruct (signUpSubmit_outcome 7 "Eve" "ann@x.org" "secret2" b
              {| Auth.error := ""; Auth.isLoading := false |}) as (_ & Hlong & _).
  destruct Hlong as (Hok & _ & _ & _ & Htaken & _); [cbn; lia|].
  split; [exact Hok|]. apply (Htaken [ann] ann); reflexivity.
Defined.

(** X24. The login page hands over a user only after a sound sign-in: the
    callback is made only with a user stored under the email given whose
    stored password is the one given, with no error shown; when [login]
    returns [null] the message is shown and the store is untouched; and
    when [login] throws, the page is left loading, with neither message nor
    callback. *)
Theorem loginSubmit_outcome (email password : string) (b : Api.Browser) (st : Auth.State) :
  let out := Auth.loginSubmit email password b st in
  (∀ u, Auth.onLogin out = Some u →
     truthy u = true ∧ Auth.loginState out = {| Auth.error := ""; Auth.isLoading := false |} ∧
     Api.passwords b !! email = Some password ∧
     prop u "email" = Some (VStr email) ∧
     Api.getItem "currentUser" (Api.storage (Auth.loginBrowser out)) = Some (Api.Json u)) ∧
  (Auth.onLogin out = None →
     Auth.loginBrowser out = b ∧
     ((Api.login email password b = None ∧
       Auth.loginState out = {| Auth.error := ""; Auth.isLoading := true |}) ∨
      (Api.login email password b = Some (b, VNull) ∧
       Auth.loginState out =
         {| Auth.error := "Invalid email or password."; Auth.isLoading := false |}))).
Proof.
  intros out. subst out. unfold Auth.loginSubmit.
  destruct (Api.login email password b) as [[b' user]|] eqn:Hlogin.
  - destruct (login_Some _ _ _ _ _ Hlogin) as [[-> ->]|(users & Hu & Hf & Hp & Hset & Hpw)].
    + cbn [truthy]. split; [done|]. intros _. split; [done|]. by right.
    + destruct (findByEmail_found _ _ _ Hf) as (_ & Hemail & Ht). rewrite Ht.
      split; [|done]. intros u [= <-]. repeat split; try done.
      cbn [Auth.loginBrowser]. unfold Api.setItem in Hset.
      destruct (Api.writable _); [|done]. injection Hset as <-.
      unfold Api.getItem. cbn [Api.items]. by rewrite lookup_insert_eq.
  - split; [done|]. intros _. split; [done|]. by left.
Qed.

Lemma loginSubmit_outcome_witness :
  let b := {| Api.storage :=
                {| Api.items := {["users" := Api.Json (VStr "oops")]}; Api.writable := true |};
              Api.passwords := ∅;
              Api.passwordWritable := true |} in
  let out := Auth.loginSubmit "ann@x.org" "secret1" b
               {| Auth.error := "old"; Auth.isLoading := false |} in
  Auth.loginBrowser out = b ∧ Auth.isLoading (Auth.loginState out) = true.
Proof.
  intros b out.
  destruct (loginSubmit_outcome "ann@x.org" "secret1" b
              {| Auth.error := "old"; Auth.isLoading := false |}) as [_ Hnone].
  destruct Hnone as [Hb [[_ Hst]|[Hl _]]]; [reflexivity| |discriminate Hl].
  split; [exact Hb|]. fold out in Hst. by rewrite Hst.
Defined.

(** ** Which page is shown *)

Lemma renderContent_signed_out st :
  App.user st = VNull → App.renderContent st = App.LoginPage ∨
                        App.renderContent st = App.SignUpPage.
Proof.
  intros Hu. unfold App.renderContent. rewrite Hu. cbn [truthy andb].
  destruct (App.currentView st); auto.
Qed.

Lemma run_signed_out cs b st :
  Forall (λ c, ∀ u changed, c ≠ App.handleLogin u changed) cs →
  App.user st = VNull → Api.getCurrentUser b = VNull →
  App.user (App.run cs b st).2 = VNull ∧ Api.getCurrentUser (App.run cs b st).1 = VNull.
Proof.
  intros Hcs. revert b st. induction Hcs as [|c cs Hc _ IH]; intros b st Hu Hb; [done|].
  cbn [App.run]. destruct (App.handle c b st) as [b' st'] eqn:Hh. apply IH.
  - destruct c; cbn in Hh; injection Hh as <- <-; try done. by destruct (Hc loggedInUser userChanged).
  - destruct c; cbn [App.handle] in Hh; injection Hh as <- <-; try done.
    unfold Api.getCurrentUser, Api.logout, Api.removeItem, Api.getItem.
    cbn [Api.storage Api.items]. by rewrite lookup_delete_eq.
Qed.

Lemma handleLogout_signed_out b st :
  App.user (App.handle App.handleLogout b st).2 = VNull ∧
  Api.getCurrentUser (App.handle App.handleLogout b st).1 = VNull.
Proof.
  split; [done|]. cbn [App.handle fst].
  unfold Api.getCurrentUser, Api.logout, Api.removeItem, Api.getItem.
  cbn [Api.storage Api.items]. by rewrite lookup_delete_eq.
Qed.

(** X25. Without a user only the login and sign-up pages are shown.  The
    application starts on the dashboard of the stored user, or on the login
    page when there is none.  After a logout, whatever callbacks follow
    short of a new login, there is no user and no stored session, and the
    page shown is the login or the sign-up page.  In any state, a dashboard
    or creation page is shown for the signed-in user only, and an editor
    only with a user and a non-empty presentation id. *)
Theorem signed_out_sees_no_page (b : Api.Browser) (st : App.State) (cs : list App.Callback) :
  App.renderContent (App.init b) =
    (if truthy (Api.getCurrentUser b) then App.DashboardPage (Api.getCurrentUser b)
     else App.LoginPage) ∧
  (Forall (λ c, ∀ u changed, c ≠ App.handleLogin u changed) cs →
     let after := App.run (App.handleLogout :: cs) b st in
     App.user after.2 = VNull ∧ Api.getCurrentUser after.1 = VNull ∧
     (App.renderContent after.2 = App.LoginPage ∨
      App.renderContent after.2 = App.SignUpPage)) ∧
  match App.renderContent (App.run cs b st).2 with
  | App.DashboardPage u | App.CreatePresentationPage u =>
      u = App.user (App.run cs b st).2 ∧ truthy u = true
  | App.EditorPage id =>
      truthy (App.user (App.run cs b st).2) = true ∧ truthy id = true ∧
      id = App.editingPresentationId (App.run cs b st).2
  | App.LoginPage | App.SignUpPage => True
  end.
Proof.
  split; [|split].
  - unfold App.init, App.userEffect, App.renderContent.
    cbn [App.user App.currentView App.setCurrentView].
    by destruct (truthy (Api.getCurrentUser b)) eqn:Ht; cbn [App.currentView]; rewrite ?Ht.
  - intros Hcs after. subst after. cbn [App.run].
    destruct (App.handle App.handleLogout b st) as [b' st'] eqn:Hh.
    pose proof (handleLogout_signed_out b st) as [Hu Hb]. rewrite Hh in Hu, Hb.
    destruct (run_signed_out cs b' st' Hcs Hu Hb) as [Hu' Hb'].
    split; [done|]. split; [done|]. by apply renderContent_signed_out.
  - unfold App.renderContent. destruct (App.currentView _); try done.
    + by destruct (truthy (App.user _)) eqn:Ht.
    + by destruct (truthy (App.user _)) eqn:Ht.
    + destruct (truthy (App.user _)) eqn:Ht; [|done].
      by destruct (truthy (App.editingPresentationId _)) eqn:Hid.
Qed.

Lemma signed_out_sees_no_page_witness :
  let b := {| Api.storage := Sample.emptyStore; Api.passwords := ∅;
              Api.passwordWritable := true |} in
  let st := {| App.user := VObj (obj [("id", VStr "1")]); App.currentView := App.Dashboard;
               App.editingPresentationId := VNull |} in
  let cs := [App.handleCreateNew; App.handleEditPresentation "p1"] in
  App.renderContent (App.run (App.handleLogout :: cs) b st).2 = App.LoginPage.
Proof.
  intros b st cs.
  destruct (signed_out_sees_no_page b st cs) as (_ & Hout & _).
  destruct Hout as (_ & _ & [Hlogin|Hsignup]).
  - repeat constructor; intros u changed; discriminate.
  - exact Hlogin.
  - vm_compute in Hsignup. discriminate Hsignup.
Defined.

(** ** The generators and the creation page *)

Lemma length_mock (n : Z) : S (length (Gemini.from_two n)) = Z.to_nat (Z.max 1 n).
Proof. unfold Gemini.from_two. rewrite length_seqZ. lia. Qed.

(** X26. The slide generators always answer.  Neither of them rejects;
    without a client they make no outside call and return the mock slides,
    with a client they make exactly one call, for the request built from
    their arguments; and the mock slides number [slideCount], or one when
    [slideCount] is smaller, each with a non-empty title and a list for
    content. *)
Theorem generators_always_answer (ai : option Gemini.GoogleGenAI)
    (content : string) (slideCount : Z) :
  let byTopic := Gemini.generatePresentationSlides ai content slideCount in
  let byText := Gemini.generateSlidesFromText ai content slideCount in
  (∃ slides, Async.settled byTopic = Some slides) ∧
  (∃ slides, Async.settled byText = Some slides) ∧
  match ai with
  | None =>
      byTopic = Async.ret (Gemini.getMockSlides content slideCount) ∧
      byText = Async.ret (Gemini.getMockSlidesFromText content slideCount)
  | Some _ =>
      Async.calls byTopic = [Async.GenerateContent (Async.SlidesForTopic content slideCount)] ∧
      Async.calls byText = [Async.GenerateContent (Async.SlidesForText content slideCount)]
  end ∧
  length (Gemini.getMockSlides content slideCount) = Z.to_nat (Z.max 1 slideCount) ∧
  length (Gemini.getMockSlidesFromText content slideCount) = Z.to_nat (Z.max 1 slideCount) ∧
  Forall Spec.proper_pair (Gemini.getMockSlides content slideCount) ∧
  Forall Spec.proper_pair (Gemini.getMockSlidesFromText content slideCount).
Proof.
  intros byTopic byText. subst byTopic byText.
  unfold Gemini.generatePresentationSlides, Gemini.generateSlidesFromText, Gemini.askForSlides.
  split; [|split; [|split; [|split; [|split; [|split]]]]].
  - destruct ai as [client|]; [|by eexists]. cbn [Async.bind Async.emit].
    destruct (Gemini.generateContent client _) as [| |[]]; by eexists.
  - destruct ai as [client|]; [|by eexists]. cbn [Async.bind Async.emit].
    destruct (Gemini.generateContent client _) as [| |[]]; by eexists.
  - destruct ai as [client|]; [|done]. cbn [Async.bind Async.emit]. split.
    + by destruct (Gemini.generateContent client _) as [| |[]].
    + by destruct (Gemini.generateContent client _) as [| |[]].
  - unfold Gemini.getMockSlides. rewrite length_cons, length_fmap. apply length_mock.
  - unfold Gemini.getMockSlidesFromText. rewrite length_cons, length_fmap. apply length_mock.
  - unfold Gemini.getMockSlides. constructor.
    + eexists _, _. split; [by rewrite prop_obj|]. split; [done|by rewrite prop_obj].
    + apply Forall_fmap, Forall_forall. intros i _.
      eexists _, _. split; [by rewrite prop_obj|]. split; [done|by rewrite prop_obj].
  - unfold Gemini.getMockSlidesFromText. constructor.
    + eexists _, _. split; [by rewrite prop_obj|]. split; [done|by rewrite prop_obj].
    + apply Forall_fmap, Forall_forall. intros i _.
      eexists _, _. split; [by rewrite prop_obj|]. split; [done|by rewrite prop_obj].
Qed.

Lemma assemble_settled userId w form t c p :
  Async.settled (Create.assemble userId w form t c) = Some p →
  ∃ slides, p = VObj (obj
    [("id", VStr (pretty (Create.assembled (Create.clock w))));
     ("userId", VStr userId);
     ("title", VStr t);
     ("slides", VArr slides);
     ("theme", VStr (Create.selectedTheme form));
     ("createdAt", VStr (Create.assembledIso (Create.clock w)))]).
Proof.
  unfold Create.assemble. rewrite settled_bind.
  destruct (Async.settled c) as [text|]; [|done]. cbn [mbind option_bind].
  rewrite settled_bind.
  destruct (Async.settled (Create.generateSlideContents w form text)) as [contents|]; [|done].
  cbn [mbind option_bind]. rewrite settled_bind.
  destruct (Async.settled (Async.all _)) as [slides|]; [|done].
  cbn [mbind option_bind Async.settled Async.ret snd]. intros [= <-]. by exists slides.
Qed.

Lemma handleGenerate_cases userId w form ls :
  let out := Create.handleGenerate userId w form ls in
  (∃ t c p, Create.resolveSource form = Create.Content t c ∧
     Async.settled (Create.assemble userId w form t c) = Some p ∧
     Create.calls out = Async.calls (Create.assemble userId w form t c) ∧
     Create.error out = "" ∧ Create.generated out = Some p ∧
     Create.storage out = (Api.savePresentation p ls).1) ∨
  (Create.error out ≠ "" ∧ Create.generated out = None ∧ Create.storage out = ls).
Proof.
  intros out. subst out. unfold Create.handleGenerate.
  destruct (negb _ && _); [by right|].
  destruct (Create.resolveSource form) as [message|t c] eqn:Hres.
  - right. split; [|done]. cbn [Create.error]. unfold Create.resolveSource in Hres.
    destruct (Create.source form); [done| |].
    + destruct (negb _); [|done]. by injection Hres as <-.
    + destruct (Create.uploadedFile form); [done|]. by injection Hres as <-.
  - destruct (Create.assemble userId w form t c) as [tr [p|]] eqn:Ha; [left|by right].
    exists t, c, p. split; [done|]. split; [by rewrite Ha|].
    unfold Api.savePresentation. cbn [fst snd Create.calls Create.error Create.generated
      Create.storage]. by rewrite Ha.
Qed.

(** X27. Generating is all or nothing.  A run of the creation page either
    ends without a message, hands over a presentation with the id taken from
    the clock, the user's id, the working title, the chosen theme and the
    creation date, and has saved exactly that presentation; or it ends with
    a message, hands over nothing and leaves the store as it was. *)
Theorem handleGenerate_all_or_nothing (userId : string) (w : Create.World)
    (form : Create.Form) (ls : Api.LocalStorage) :
  let out := Create.handleGenerate userId w form ls in
  (Create.error out = "" ∧
   ∃ t slides,
     Create.generated out =
       Some (VObj (obj
         [("id", VStr (pretty (Create.assembled (Create.clock w))));
          ("userId", VStr userId);
          ("title", VStr t);
          ("slides", VArr slides);
          ("theme", VStr (Create.selectedTheme form));
          ("createdAt", VStr (Create.assembledIso (Create.clock w)))])) ∧
     (∃ c, Create.resolveSource form = Create.Content t c) ∧
     ∀ p, Create.generated out = Some p → Create.storage out = (Api.savePresentation p ls).1) ∨
  (Create.error out ≠ "" ∧ Create.generated out = None ∧ Create.storage out = ls).
Proof.
  intros out. subst out.
  destruct (handleGenerate_cases userId w form ls)
    as [(t & c & p & Hres & Ha & _ & He & Hg & Hs)|Hfail]; [left|by right].
  split; [done|].
  destruct (assemble_settled _ _ _ _ _ _ Ha) as [slides ->].
  exists t, slides. split; [done|]. split; [by exists c|].
  intros p. rewrite Hg. by intros [= <-].
Qed.

(** X28. What was generated can be opened.  When a run hands over a
    presentation and the store accepts writes, the editor opened on the id
    taken from the clock finds it: it shows no error, as many slides as
    were generated, all valid.  When the store refuses writes the run hands
    over the presentation all the same, and the editor opened on a fresh id
    reports that the presentation was not found. *)
Theorem generated_presentation_opens (userId : string) (w : Create.World)
    (form : Create.Form) (ls : Api.LocalStorage) (p : value)
    (clock : nat → Z) (st : Editor.State) :
  let out := Create.handleGenerate userId w form ls in
  let id := pretty (Create.assembled (Create.clock w)) in
  let opened := Editor.mountEffect clock id (Create.storage out) st in
  Create.generated out = Some p →
  (Api.writable ls = true →
     Editor.error opened = None ∧
     ∃ p', Editor.presentation opened = Some p' ∧
       prop p' "id" = Some (VStr id) ∧
       length (Editor.slides_of p') = length (Editor.slides_of p) ∧
       Forall Spec.valid_slide (Editor.slides_of p')) ∧
  (Api.writable ls = false → Api.getPresentation id ls = VNull →
     Editor.error opened = Some "Presentation not found." ∧
     Editor.presentation opened = Editor.presentation st).
Proof.
  intros out id opened Hgen. subst out.
  destruct (handleGenerate_cases userId w form ls)
    as [(t & c & p0 & Hres & Ha & _ & He & Hg & Hs)|(_ & Hnone & _)]; [|congruence].
  rewrite Hg in Hgen. injection Hgen as ->.
  destruct (assemble_settled _ _ _ _ _ _ Ha) as [slides Hp].
  assert (Hid : prop p "id" = Some (VStr id)) by (rewrite Hp; by rewrite prop_obj).
  assert (Hslides : Editor.slides_of p = slides).
  { unfold Editor.slides_of. rewrite Hp. by rewrite prop_obj. }
  split.
  - intros Hw.
    assert (Hq : ∃ q, Api.cleanEntry p = Some q).
    { assert (Hne : String.eqb id "" = false) by apply String.eqb_neq, pretty_Z_nonempty.
      clear Hs Hg He Ha. destruct p; try discriminate Hp.
      unfold Api.cleanEntry. rewrite Hid. cbn [truthy]. rewrite Hne. eauto. }
    destruct Hq as [q Hq].
    assert (Hqs : array_or_empty (prop q "slides") = slides).
    { destruct (cleanEntry_Some p q Hq) as (idv & _ & _ & ->). rewrite prop_obj.
      cbn [List.find fst snd String.eqb Ascii.eqb Bool.eqb fmap option_fmap option_map
           array_or_empty]. exact Hslides. }
    subst opened. rewrite Hs. unfold Editor.mountEffect.
    rewrite (getPresentation_after_save p q id ls Hid Hq Hw).
    destruct (normalize_record_fixed clock q (cleanEntry_fix p q Hq)) as (p' & Hp' & _ & Hpid).
    rewrite Hp'. split; [done|]. exists p'. split; [done|].
    split; [by rewrite Hpid, (cleanEntry_id p q Hq)|].
    split; [|by apply (normalize_slides_valid clock q)].
    unfold Editor.normalize in Hp'. destruct (truthy q); [|done]. injection Hp' as <-.
    unfold Editor.slides_of at 1. cbn [prop]. rewrite lookup_insert_eq. cbn [array_or_empty].
    unfold Editor.cleanedSlides. by rewrite length_imap, Hqs, Hslides.
  - intros Hw Hfresh.
    assert (Hsame : (Api.savePresentation p ls).1 = ls).
    { unfold Api.savePresentation, Api.setItem. by rewrite Hw. }
    subst opened. rewrite Hs, Hsame. unfold Editor.mountEffect. rewrite Hfresh. done.
Qed.

Lemma generated_presentation_opens_witness :
  let w := {| Create.ai := None; Create.fetch := λ _, Async.NetworkError;
              Create.clock := {| Create.slideStarted := λ _, 1%Z; Create.assembled := 2%Z;
                                 Create.assembledIso := "2024-01-01T00:00:00.000Z" |};
              Create.unsplashAccessKey := "access-key" |} in
  let out := Create.handleGenerate "u1" w (Sample.directForm 2) Sample.emptyStore in
  let st := {| Editor.presentation := None; Editor.currentSlideIndex := 0;
               Editor.isLoading := true; Editor.error := None;
               Editor.gallerySearchQuery := ""; Editor.galleryImages := [];
               Editor.isSearching := false |} in
  ∃ p', Editor.presentation (Editor.mountEffect (λ _, 9%Z) "2" (Create.storage out) st)
          = Some p' ∧
        length (Editor.slides_of p') = 2.
Proof.
  intros w out st.
  pose (p := default VNull (Create.generated out)).
  assert (Hgen : Create.generated out = Some p) by (vm_compute; reflexivity).
  assert (Hlen : length (Editor.slides_of p) = 2) by (vm_compute; reflexivity).
  destruct (generated_presentation_opens "u1" w (Sample.directForm 2) Sample.emptyStore p
              (λ _, 9%Z) st Hgen) as [Hopen _].
  destruct (Hopen eq_refl) as (_ & p' & Hp' & _ & Hlen' & _).
  exists p'. split; [exact Hp'|]. by rewrite Hlen', Hlen.
Defined.

Lemma calls_all {A} (ms : list (Async.t A)) :
  Async.calls (Async.all ms) = ms ≫= Async.calls.
Proof.
  induction ms as [|m ms IH]; [done|]. cbn [Async.all mbind list_bind].
  destruct (Async.all ms) as [tr r]. cbn [Async.calls fst] in *. by rewrite IH.
Qed.

Lemma bind_never_reads {A B} (m : Async.t A) (f : A → Async.t B) fileName :
  Async.ReadAsText fileName ∉ Async.calls m →
  (∀ a, Async.ReadAsText fileName ∉ Async.calls (f a)) →
  Async.ReadAsText fileName ∉ Async.calls (Async.bind m f).
Proof.
  intros Hm Hf. rewrite calls_bind. apply not_elem_of_app. split; [done|].
  destruct (Async.settled m); [apply Hf|apply not_elem_of_nil].
Qed.

Lemma generateImage_never_reads ai prompt fileName :
  Async.ReadAsText fileName ∉ Async.calls (Gemini.generateImage ai prompt).
Proof.
  unfold Gemini.generateImage, Gemini.placeholderImage.
  destruct ai as [client|].
  - cbn [Async.bind Async.emit]. destruct (Gemini.generateImages client prompt).
    + cbn. intros Hin. apply list_elem_of_singleton in Hin. discriminate Hin.
    + destruct prompt; cbn; intros Hin; apply list_elem_of_singleton in Hin; discriminate Hin.
  - destruct prompt; apply not_elem_of_nil.
Qed.

Lemma searchPhotos_never_reads w numSlides imagePrompt fileName :
  Async.ReadAsText fileName ∉ Async.calls (Create.searchPhotos w numSlides imagePrompt).
Proof.
  unfold Create.searchPhotos. destruct imagePrompt; try apply not_elem_of_nil.
  cbn [Async.bind Async.emit].
  destruct (Create.fetch w _) as [|ok status [data|]];
    [| |]; try (cbn; intros Hin; apply list_elem_of_singleton in Hin; discriminate Hin).
  destruct (member data "results") as [[[]|]|];
    try (cbn; intros Hin; apply list_elem_of_singleton in Hin; discriminate Hin).
  destruct (Create.photoUrls l);
    cbn; intros Hin; apply list_elem_of_singleton in Hin; discriminate Hin.
Qed.

Lemma buildSlide_never_reads w form t index content fileName :
  Async.ReadAsText fileName ∉ Async.calls (Create.buildSlide w form t index content).
Proof.
  unfold Create.buildSlide. apply bind_never_reads.
  - destruct (Create.imageSource form).
    + destruct (member content "title"); [|apply not_elem_of_nil].
      apply bind_never_reads; [|intros; apply not_elem_of_nil].
      apply bind_never_reads; [apply generateImage_never_reads|intros; apply not_elem_of_nil].
    + destruct (member content "title"); [|apply not_elem_of_nil].
      apply bind_never_reads; [|intros; apply not_elem_of_nil].
      apply searchPhotos_never_reads.
    + apply not_elem_of_nil.
  - intros background. destruct (member content "title"), (member content "content");
      apply not_elem_of_nil.
Qed.

Lemma handleGenerate_settled_text userId w form ls t c :
  Spec.missing_input form = false →
  Create.resolveSource form = Create.Content t c →
  Async.settled c = None →
  Create.handleGenerate userId w form ls =
  {| Create.calls := Async.calls c;
     Create.error := "Failed to generate presentation. Please try again.";
     Create.generated := None; Create.storage := ls |}.
Proof.
  intros Hin Hres Hc. unfold Create.handleGenerate. rewrite Hres.
  assert (Hcheck : negb (nonempty (trim (Create.title form)))
                   && match Create.source form with Create.SourceAi => true | _ => false end
                   = false).
  { unfold Spec.missing_input in Hin. destruct (Create.source form).
    - by rewrite Hin.
    - apply andb_false_r.
    - apply andb_false_r. }
  rewrite Hcheck. unfold Create.assemble.
  destruct c as [tr [text|]]; [done|]. reflexivity.
Qed.

(** X29. A file that cannot be read stops the run before anything is
    generated.  With an uploaded plain-text file whose reading fails, the
    only outside call is the reading itself: no generator or image call is
    made, the failure message is shown and nothing is saved.  A file of any
    other type is never read: the generator is given a sentence naming the
    file. *)
Theorem unreadable_file_stops_generation (userId : string) (w : Create.World)
    (form : Create.Form) (ls : Api.LocalStorage) (file : Create.File) :
  Create.source form = Create.SourceFile → Create.uploadedFile form = Some file →
  (Create.type file = "text/plain" → Create.text file = None →
     Create.handleGenerate userId w form ls =
     {| Create.calls := [Async.ReadAsText (Create.name file)];
        Create.error := "Failed to generate presentation. Please try again.";
        Create.generated := None; Create.storage := ls |}) ∧
  (Create.type file ≠ "text/plain" →
     Create.readFile file =
       Async.ret ("This presentation is about the contents of the file named: "
                  +:+ Create.name file) ∧
     Async.ReadAsText (Create.name file) ∉ Create.calls (Create.handleGenerate userId w form ls)).
Proof.
  intros Hsrc Hfile.
  assert (Hin : Spec.missing_input form = false).
  { unfold Spec.missing_input. by rewrite Hsrc, Hfile. }
  assert (Hres : ∃ t, Create.resolveSource form = Create.Content t (Create.readFile file)).
  { unfold Create.resolveSource. rewrite Hsrc, Hfile. eauto. }
  destruct Hres as [t Hres]. split.
  - intros Htype Htext.
    assert (Hread : Create.readFile file = ([Async.ReadAsText (Create.name file)], None)).
    { unfold Create.readFile. rewrite Htype, Htext. reflexivity. }
    rewrite (handleGenerate_settled_text userId w form ls t _ Hin Hres); by rewrite Hread.
  - intros Htype.
    assert (Hread : Create.readFile file =
       Async.ret ("This presentation is about the contents of the file named: "
                  +:+ Create.name file)).
    { unfold Create.readFile. apply String.eqb_neq in Htype. by rewrite Htype. }
    split; [done|].
    unfold Create.handleGenerate. rewrite Hres.
    assert (Hcheck : negb (nonempty (trim (Create.title form)))
                     && match Create.source form with Create.SourceAi => true | _ => false end
                     = false) by (rewrite Hsrc; apply andb_false_r).
    rewrite Hcheck.
    assert (Hcalls : Async.ReadAsText (Create.name file) ∉
              Async.calls (Create.assemble userId w form t (Create.readFile file))).
    { unfold Create.assemble. rewrite Hread. rewrite calls_bind.
      cbn [Async.calls Async.settled Async.ret fst snd app].
      rewrite calls_bind. intros Hin'. apply elem_of_app in Hin' as [Hin'|Hin'].
      - unfold Create.generateSlideContents in Hin'. rewrite Hsrc in Hin'.
        unfold Gemini.generateSlidesFromText, Gemini.askForSlides in Hin'.
        destruct (Create.ai w) as [client|]; cbn in Hin'.
        + destruct (Gemini.generateContent client _) as [| |[]]; cbn in Hin';
            apply list_elem_of_singleton in Hin' || apply elem_of_cons in Hin' as [Hin'|Hin'];
            try done; by apply elem_of_nil in Hin'.
        + by apply elem_of_nil in Hin'.
      - destruct (Async.settled (Create.generateSlideContents w form _)) as [contents|];
          [|by apply elem_of_nil in Hin'].
        rewrite calls_bind in Hin'. apply elem_of_app in Hin' as [Hin'|Hin'].
        + rewrite calls_all in Hin'. apply list_elem_of_bind in Hin' as (m & Hin' & Hm).
          apply elem_of_lookup_imap in Hm as (i & x & -> & _).
          by apply buildSlide_never_reads in Hin'.
        + destruct (Async.settled (Async.all _)); by apply elem_of_nil in Hin'. }
    destruct (Create.assemble userId w form t (Create.readFile file)) as [tr [p|]];
      cbn [Async.calls fst] in Hcalls.
    + by destruct (Api.savePresentation p ls).
    + done.
Qed.

Lemma unreadable_file_stops_generation_witness :
  let file := {| Create.name := "notes.txt"; Create.type := "text/plain";
                 Create.text := None |} in
  let form := {| Create.title := ""; Create.source := Create.SourceFile;
                 Create.textContent := ""; Create.uploadedFile := Some file;
                 Create.numSlides := 5; Create.selectedTheme := "Default";
                 Create.imageSource := Create.ImagesAi |} in
  Create.calls (Create.handleGenerate "u1" (Sample.answering Gemini.Rejected) form
                  Sample.emptyStore) = [Async.ReadAsText "notes.txt"].
Proof.
  intros file form.
  destruct (unreadable_file_stops_generation "u1" (Sample.answering Gemini.Rejected) form
              Sample.emptyStore file eq_refl eq_refl) as [Hstop _].
  by rewrite Hstop.
Defined.
